(** * GTDB species clusters: misclassification detection and type-strain checks

    A shallow embedding of [update_erroneous_ncbi.py] (class
    [UpdateErroneousNCBI]), [pmc_check_type_strains.py] (class
    [PMC_CheckTypeStrains]) and [update_new_genomes.py] (class [NewGenomes]).

    Python dictionaries whose iteration order is observable (the genome
    set, the clusters, the per-species candidate groups, the curated
    taxonomy) are association lists in insertion order; dictionaries that
    are only indexed (the genome-to-representative index, the species
    anchors, the similarity results) are [gmap]s; the set of flagged
    genomes is a [gset].  Exceptions and [sys.exit] are values of [exn];
    the report file is threaded through a small state-and-error monad.
    Identity and alignment fraction are rationals, of which only the
    order is used; a report field holds the number with the precision of
    its format.  Calls to the logger and the progress line on standard
    output are left out. *)

From Stdlib Require Import QArith.
From stdpp Require Import gmap strings list fin_maps.

Local Open Scope string_scope.
Local Open Scope Z_scope.
Local Open Scope list_scope.

(** ** Exceptions, report files and the monad that threads them *)

Inductive exn : Type :=
  | KeyError (key : string)
  | PairKeyError (key : string * string)
  | NameError (name : string)
  | IndexError
  | SysExit (code : Z).

(** One field of a tab-separated report line: a string written as it is
    ([{}]), or a number written in fixed point with [digits] decimals
    ([{:.2f}], [{:.3f}]).  A numeric field keeps the number that was
    formatted and the precision of its format; the digits that the rounding
    prints are not computed. *)
Inductive field : Type :=
  | FStr (s : string)
  | FFixed (digits : nat) (q : Q).

Definition line : Type := list field.

(** The report file of a run: [None] until [open(..., 'w')] has been
    executed, then the lines written so far, oldest first. *)
Definition report : Type := option (list line).

Definition M (A : Type) : Type := report → report * (exn + A).

Definition ret {A} (a : A) : M A := λ w, (w, inr a).

Definition raise {A} (e : exn) : M A := λ w, (w, inl e).

Definition bind {A B} (m : M A) (k : A → M B) : M B :=
  λ w, match m w with
       | (w', inl e) => (w', inl e)
       | (w', inr a) => k a w'
       end.

Notation "'let!' x ':=' m 'in' k" := (bind m (λ x, k))
  (at level 10, x pattern, m at level 100, k at level 200, only parsing).
Notation "'run!' m 'in' k" := (bind m (λ _, k))
  (at level 10, m at level 100, k at level 200, only parsing).

(** [d[k]] on a dictionary: [KeyError] when the key is absent. *)
Definition getitem {A} (o : option A) (k : string) : M A :=
  match o with
  | Some a => ret a
  | None => raise (KeyError k)
  end.

(** [open(path, 'w')]: the file is created or truncated. *)
Definition fopen : M unit := λ _, (Some [], inr ()).

(** [fout.write(row)]. *)
Definition fwrite (l : line) : M unit :=
  λ w, (match w with Some ls => Some (ls ++ [l]) | None => None end, inr ()).

(** [for x in xs: body], with the loop-carried variables as [acc]. *)
Fixpoint for_each {A S} (xs : list A) (body : S → A → M S) (acc : S) : M S :=
  match xs with
  | [] => ret acc
  | x :: xs' => let! acc' := body acc x in for_each xs' body acc'
  end.

(** ** Genomes *)

(** What the code reads of a genome: [ncbi_taxa.species],
    [is_effective_type_strain()], [is_gtdb_type_strain()] and
    [excluded_from_refseq_note]. *)
Record Genome : Type := mkGenome {
  ncbi_taxa_species : string;
  is_effective_type_strain : bool;
  is_gtdb_type_strain : bool;
  excluded_from_refseq_note : string
}.

(** The genome set, in iteration order. *)
Definition Genomes : Type := list (string * Genome).

Fixpoint genomes_lookup (cur_genomes : Genomes) (gid : string) : option Genome :=
  match cur_genomes with
  | [] => None
  | (k, g) :: rest => if String.eqb k gid then Some g else genomes_lookup rest gid
  end.

(** ** taxon_utils *)

(** Modelled from the spec: [specific_epithet] of [taxon_utils] is not among
    the sources.  The spec calls it "the second word of the species
    binomial"; a label without a second word, such as the sentinel [s__],
    has the empty epithet here. *)
Definition specific_epithet (species_name : string) : string :=
  nth 1 (String.words species_name) "".

(** Modelled from the spec: [longest_common_prefix] of [taxon_utils] is not
    among the sources.  The spec speaks of "their longest common prefix". *)
Fixpoint longest_common_prefix (s1 s2 : string) : string :=
  match s1, s2 with
  | String a s1', String b s2' =>
      if Ascii.eqb a b then String a (longest_common_prefix s1' s2') else ""
  | _, _ => ""
  end.

(** Python's [len] of a string, an unbounded integer. *)
Definition len (s : string) : Z := Z.of_nat (String.length s).

Module PMC_CheckTypeStrains.

(** [_test_same_epithet]: the comparison is on Python integers, so
    [min(...) - 3] may be negative. *)
Definition _test_same_epithet (epithet1 epithet2 : string) : bool :=
  if String.eqb epithet1 epithet2 then true
  else
    let lcp := longest_common_prefix epithet1 epithet2 in
    if len lcp >=? Z.min (len epithet1) (len epithet2) - 3 then true
    else false.

(** [Taxonomy.SPECIES_INDEX] of biolib: the species is the seventh rank. *)
Definition SPECIES_INDEX : nat := 6.

(** The body of the loop over the curated taxonomy (lines 99-114);
    [num_incongruent] is the loop-carried counter. *)
Definition check_genome (cur_genomes : Genomes) (num_incongruent : Z)
    (entry : string * list string) : M Z :=
  let rid := entry.1 in
  let taxa := entry.2 in
  let! g := getitem (genomes_lookup cur_genomes rid) rid in
  if is_gtdb_type_strain g then
    let! gtdb_sp := match taxa !! SPECIES_INDEX with
                    | Some sp => ret sp
                    | None => raise IndexError
                    end in
    let ncbi_sp := ncbi_taxa_species g in
    if String.eqb ncbi_sp "s__" then ret num_incongruent
    else if negb (_test_same_epithet (specific_epithet gtdb_sp) (specific_epithet ncbi_sp))
    then
      run! fwrite [FStr rid; FStr gtdb_sp; FStr ncbi_sp;
                   FStr (excluded_from_refseq_note g)] in
      ret (num_incongruent + 1)
    else ret num_incongruent
  else ret num_incongruent.

Definition header : line :=
  [FStr "Genome ID"; FStr "GTDB species"; FStr "NCBI species"; FStr "NCBI RefSeq note"].

(** [run] from the point where the curated taxonomy [mc_taxonomy] and the
    genome set have been loaded (line 90 onwards).  The value is the count
    that the closing log line reports. *)
Definition run (mc_taxonomy : list (string * list string)) (cur_genomes : Genomes) : M Z :=
  let! g1 := getitem (genomes_lookup cur_genomes "G003992675") "G003992675" in
  let! g2 := getitem (genomes_lookup cur_genomes "G003149745") "G003149745" in
  run! fopen in
  run! fwrite header in
  for_each mc_taxonomy (check_genome cur_genomes) 0.

End PMC_CheckTypeStrains.

(** Python's [<] on two finite floats. *)
Definition float_lt (x y : Q) : bool := negb (Qle_bool y x).

Module UpdateErroneousNCBI.

(** [cur_clusters]: representative to the collection of clustered genome
    IDs, both in iteration order. *)
Definition Clusters : Type := list (string * list string).

Definition forbidden_names : gset string := {[ "cyanobacterium" ]}.

(** Lines 77-80 and 167-170: the mapping from genomes to their
    representatives. *)
Definition gid_to_rid (cur_clusters : Clusters) : gmap string string :=
  foldl (λ index cluster,
           foldl (λ index cid, <[cid := cluster.1]> index) index cluster.2)
        ∅ cur_clusters.

(** [ncbi_sp_gids[ncbi_species].append(gid)] on a [defaultdict(list)]: a
    new key goes to the end of the iteration order. *)
Fixpoint group_append (ncbi_species gid : string)
    (groups : list (string * list string)) : list (string * list string) :=
  match groups with
  | [] => [(ncbi_species, [gid])]
  | (sp, gids) :: rest =>
      if String.eqb sp ncbi_species then (sp, gids ++ [gid]) :: rest
      else (sp, gids) :: group_append ncbi_species gid rest
  end.

(** Lines 83-89 and 173-179.  The second component is the variable
    [ncbi_species] as the loop leaves it: unbound ([None]) when the genome
    set is empty, else the label of the last genome visited. *)
Definition gather_step (st : list (string * list string) * option string)
    (entry : string * Genome) : list (string * list string) * option string :=
  let gid := entry.1 in
  let ncbi_species := ncbi_taxa_species entry.2 in
  let ncbi_specific := specific_epithet ncbi_species in
  (if negb (String.eqb ncbi_species "s__")
      && negb (bool_decide (ncbi_specific ∈ forbidden_names))
   then group_append ncbi_species gid st.1
   else st.1,
   Some ncbi_species).

Definition gather (cur_genomes : Genomes) : list (string * list string) * option string :=
  foldl gather_step ([], None) cur_genomes.

Definition ncbi_sp_gids (cur_genomes : Genomes) : list (string * list string) :=
  (gather cur_genomes).1.

(** Lines 92-97: anchors of the ANI method, by representative only. *)
Definition anchor_rep (cur_genomes : Genomes) (anchored : gmap string string)
    (cluster : string * list string) : M (gmap string string) :=
  let rid := cluster.1 in
  let! g := getitem (genomes_lookup cur_genomes rid) rid in
  if is_effective_type_strain g then
    let ncbi_type_species := ncbi_taxa_species g in
    if negb (String.eqb ncbi_type_species "s__")
    then ret (<[ncbi_type_species := rid]> anchored)
    else ret anchored
  else ret anchored.

Definition ncbi_type_anchored_species_ani (cur_genomes : Genomes)
    (cur_clusters : Clusters) : M (gmap string string) :=
  for_each cur_clusters (anchor_rep cur_genomes) ∅.

(** Lines 184-195: one clustered genome in the anchor loop of the
    clustering method.  [ncbi_species] is the variable left over from the
    loop over the genome set (line 187 reads it, not [ncbi_type_species]). *)
Definition anchor_member (cur_genomes : Genomes) (ncbi_species : option string)
    (rid : string) (anchored : gmap string string) (cid : string)
    : M (gmap string string) :=
  let! g := getitem (genomes_lookup cur_genomes cid) cid in
  if is_effective_type_strain g then
    let ncbi_type_species := ncbi_taxa_species g in
    let! ncbi_species := match ncbi_species with
                         | Some sp => ret sp
                         | None => raise (NameError "ncbi_species")
                         end in
    let ncbi_specific := specific_epithet ncbi_species in
    if negb (String.eqb ncbi_type_species "s__")
       && negb (bool_decide (ncbi_specific ∈ forbidden_names))
    then
      match anchored !! ncbi_type_species with
      | Some prev =>
          if negb (String.eqb rid prev) then raise (SysExit (-1))
          else ret (<[ncbi_type_species := rid]> anchored)
      | None => ret (<[ncbi_type_species := rid]> anchored)
      end
    else ret anchored
  else ret anchored.

Definition anchor_cluster (cur_genomes : Genomes) (ncbi_species : option string)
    (anchored : gmap string string) (cluster : string * list string)
    : M (gmap string string) :=
  for_each cluster.2 (anchor_member cur_genomes ncbi_species cluster.1) anchored.

Definition ncbi_type_anchored_species_cluster (cur_genomes : Genomes)
    (cur_clusters : Clusters) : M (gmap string string) :=
  for_each cur_clusters (anchor_cluster cur_genomes (gather cur_genomes).2) ∅.

Section ANI.

(** [self.ani_ncbi_erroneous], the erroneous-assignment threshold. *)
Variable ani_ncbi_erroneous : Q.

(** [self.fastani.pairs]: the similarity results for a batch of ordered
    pairs, from which pairs may be missing. *)
Variable fastani_pairs : list (string * string) → gmap (string * string) (Q * Q).

(** What a lookup yields when both orderings of a pair were scored. *)
Variable both : Q * Q → Q * Q → Q * Q.

(** Modelled from the spec: [symmetric_ani] of [type_genome_utils] is not
    among the sources.  By the spec, similarity lookups "probe both
    orderings" of the pair, and for a pair that the oracle left out "the
    lookup would raise".  How two scored orderings combine is not said and
    is the parameter [both]. *)
Definition symmetric_ani (ani_af : gmap (string * string) (Q * Q))
    (gid1 gid2 : string) : M (Q * Q) :=
  match ani_af !! (gid1, gid2), ani_af !! (gid2, gid1) with
  | Some fwd, Some rev => ret (both fwd rev)
  | Some fwd, None => ret fwd
  | None, Some rev => ret rev
  | None, None => raise (PairKeyError (gid1, gid2))
  end.

(** Lines 112-118. *)
Definition check_member (index : gmap string string) (type_rid : string)
    (gids_to_check : list string) (gid : string) : M (list string) :=
  let! cur_rid := getitem (index !! gid) gid in
  if negb (String.eqb type_rid cur_rid) then ret (gids_to_check ++ [gid])
  else ret gids_to_check.

(** Lines 121-124. *)
Definition gid_pairs (type_rid : string) (gids_to_check : list string)
    : list (string * string) :=
  flat_map (λ gid, [(type_rid, gid); (gid, type_rid)]) gids_to_check.

(** Lines 139-149. *)
Definition score_member (index : gmap string string)
    (ani_af : gmap (string * string) (Q * Q)) (ncbi_species type_rid : string)
    (misclassified_gids : gset string) (gid : string) : M (gset string) :=
  let! scores := symmetric_ani ani_af type_rid gid in
  if float_lt scores.1 ani_ncbi_erroneous then
    let! cur_rid := getitem (index !! gid) gid in
    run! fwrite [FStr gid; FStr ncbi_species; FStr cur_rid; FStr type_rid;
                 FFixed 2 scores.1; FFixed 3 scores.2] in
    ret ({[gid]} ∪ misclassified_gids)
  else ret misclassified_gids.

(** Lines 106-149: one species of [ncbi_sp_gids]. *)
Definition score_species (index anchored : gmap string string)
    (misclassified_gids : gset string) (group : string * list string)
    : M (gset string) :=
  match anchored !! group.1 with
  | None => ret misclassified_gids
  | Some type_rid =>
      let! gids_to_check := for_each group.2 (check_member index type_rid) [] in
      if 0 <? Z.of_nat (length gids_to_check) then
        let ani_af := fastani_pairs (gid_pairs type_rid gids_to_check) in
        for_each gids_to_check
                 (score_member index ani_af group.1 type_rid) misclassified_gids
      else ret misclassified_gids
  end.

Definition header_ani : line :=
  [FStr "Genome ID"; FStr "NCBI species"; FStr "Genome cluster";
   FStr "Type species cluster"; FStr "ANI to type strain"; FStr "AF to type strain"].

Definition identify_misclassified_genomes_ani (cur_genomes : Genomes)
    (cur_clusters : Clusters) : M (gset string) :=
  let index := gid_to_rid cur_clusters in
  let groups := ncbi_sp_gids cur_genomes in
  let! anchored := ncbi_type_anchored_species_ani cur_genomes cur_clusters in
  run! fopen in
  run! fwrite header_ani in
  for_each groups (score_species index anchored) ∅.

End ANI.

(** Lines 211-219: one genome of an anchored species in the clustering
    method.  The row ends in a tab, hence the empty last field. *)
Definition flag_member (index : gmap string string) (ncbi_species type_rid : string)
    (misclassified_gids : gset string) (gid : string) : M (gset string) :=
  let! cur_rid := getitem (index !! gid) gid in
  if negb (String.eqb type_rid cur_rid) then
    run! fwrite [FStr gid; FStr ncbi_species; FStr cur_rid; FStr type_rid; FStr ""] in
    ret ({[gid]} ∪ misclassified_gids)
  else ret misclassified_gids.

Definition flag_species (index anchored : gmap string string)
    (misclassified_gids : gset string) (group : string * list string)
    : M (gset string) :=
  match anchored !! group.1 with
  | None => ret misclassified_gids
  | Some type_rid => for_each group.2 (flag_member index group.1 type_rid) misclassified_gids
  end.

Definition header_cluster : line :=
  [FStr "Genome ID"; FStr "NCBI species"; FStr "Genome cluster";
   FStr "Type species cluster"].

Definition identify_misclassified_genomes_cluster (cur_genomes : Genomes)
    (cur_clusters : Clusters) : M (gset string) :=
  let index := gid_to_rid cur_clusters in
  let groups := ncbi_sp_gids cur_genomes in
  let! anchored := ncbi_type_anchored_species_cluster cur_genomes cur_clusters in
  run! fopen in
  run! fwrite header_cluster in
  for_each groups (flag_species index anchored) ∅.

Section Run.

Variable ani_ncbi_erroneous : Q.
Variable fastani_pairs : list (string * string) → gmap (string * string) (Q * Q).
Variable both : Q * Q → Q * Q → Q * Q.

(** [run] from the point where the genome set and the clusters are loaded
    (lines 268-273): the ANI method, then the clustering method.  The two
    write different files, so the state is the pair of their reports; the
    returned sets are dropped. *)
Definition run (cur_genomes : Genomes) (cur_clusters : Clusters)
    (files : report * report) : (report * report) * (exn + unit) :=
  match identify_misclassified_genomes_ani ani_ncbi_erroneous fastani_pairs both
          cur_genomes cur_clusters files.1 with
  | (ani_report, inl e) => ((ani_report, files.2), inl e)
  | (ani_report, inr _) =>
      match identify_misclassified_genomes_cluster cur_genomes cur_clusters files.2 with
      | (cluster_report, inl e) => ((ani_report, cluster_report), inl e)
      | (cluster_report, inr _) => ((ani_report, cluster_report), inr ())
      end
  end.

End Run.

End UpdateErroneousNCBI.

(** ** update_new_genomes.py *)

(** Python's string methods, on ASCII text. *)

(** [str.isspace] of an ASCII character. *)
Definition is_py_space (c : Ascii.ascii) : bool :=
  let n := Ascii.nat_of_ascii c in
  ((9 <=? n)%nat && (n <=? 13)%nat) || ((28 <=? n)%nat && (n <=? 32)%nat).

Fixpoint lstrip (s : string) : string :=
  match s with
  | "" => ""
  | String c s' => if is_py_space c then lstrip s' else s
  end.

Fixpoint rstrip (s : string) : string :=
  match s with
  | "" => ""
  | String c s' =>
      match rstrip s' with
      | "" => if is_py_space c then "" else String c ""
      | kept => String c kept
      end
  end.

(** [s.strip()]. *)
Definition strip (s : string) : string := rstrip (lstrip s).

(** [s.split(sep)] for a separator of one character: never empty. *)
Fixpoint split (sep : Ascii.ascii) (s : string) : list string :=
  match s with
  | "" => [""]
  | String c s' =>
      if Ascii.eqb c sep then "" :: split sep s'
      else match split sep s' with
           | field :: fields => String c field :: fields
           | [] => [String c ""]
           end
  end.

Definition tab : Ascii.ascii := Ascii.ascii_of_nat 9.

(** [line.strip().split('\t')]. *)
Definition line_split (line : string) : list string := split tab (strip line).

(** [sub in s]. *)
Fixpoint contains (sub s : string) : bool :=
  String.prefix sub s ||
  match s with
  | "" => false
  | String _ s' => contains sub s'
  end.

(** [s.replace(old, '')] for a non-empty [old]: the occurrences of [old]
    are dropped from left to right, without looking again at what is left.
    [skip] counts the characters of an occurrence still to drop. *)
Fixpoint remove_from (old : string) (skip : nat) (s : string) : string :=
  match s with
  | "" => ""
  | String c s' =>
      match skip with
      | S skip' => remove_from old skip' s'
      | O =>
          if String.prefix old s then remove_from old (String.length old - 1) s'
          else String c (remove_from old 0 s')
      end
  end.

Definition remove_all (old s : string) : string := remove_from old 0 s.

(** [l.index(x)]: [None] stands for the [ValueError]. *)
Fixpoint index_of (x : string) (l : list string) : option nat :=
  match l with
  | [] => None
  | y :: l' => if String.eqb y x then Some O else S <$> index_of x l'
  end.

(** A dictionary that is iterated: the items in insertion order.  Setting
    a key that is there keeps its place. *)
Fixpoint dict_set (k v : string) (d : list (string * string)) : list (string * string) :=
  match d with
  | [] => [(k, v)]
  | (k', v') :: d' =>
      if String.eqb k' k then (k', v) :: d' else (k', v') :: dict_set k v d'
  end.

Fixpoint dict_get (k : string) (d : list (string * string)) : option string :=
  match d with
  | [] => None
  | (k', v') :: d' => if String.eqb k' k then Some v' else dict_get k d'
  end.

Module NewGenomes.

(** The exceptions of [exn], and [ValueError] of [list.index]. *)
Inductive error : Type :=
  | Exn (e : exn)
  | ValueError (x : string).

Section NewGenomes.

(** [canonical_gid] of the module [common], which is not among the sources. *)
Variable canonical_gid : string → string.

(** [os.path.basename], [os.path.normpath] and [os.path.join]. *)
Variable basename normpath : string → string.
Variable join : string → string → string.

(** The order in which a [for] loop runs over a set, which Python leaves
    open. *)
Variable set_order : gset string → list string.

(** [same_genome_accn] (lines 36-56). *)
Definition same_genome_accn (accn1 accn2 : string)
    (identical_accns : gmap string string) : error + bool :=
  if String.eqb accn1 accn2 then inr true
  else if negb (String.eqb (canonical_gid accn1) (canonical_gid accn2))
  then inl (Exn (SysExit (-1)))
  else
    let accn1 := remove_all "GB_" (remove_all "RS_" accn1) in
    let accn2 := remove_all "GB_" (remove_all "RS_" accn2) in
    if bool_decide (identical_accns !! accn1 = Some accn2) then inr true
    else inr false.

(** Lines 69-75: one metadata file read into [prev_accns].  [f.readline()]
    takes the first line away. *)
Definition read_prev (lines : list string) (prev_accns : gmap string string)
    : gmap string string :=
  foldl (λ accns line,
           let gid := default "" (line_split line !! 0%nat) in
           <[canonical_gid gid := gid]> accns)
        prev_accns (tail lines).

(** Lines 81-88: the current metadata file read into [cur_accns]. *)
Definition read_cur (lines : list string) : list (string * string) :=
  foldl (λ accns line,
           let gid := default "" (line_split line !! 0%nat) in
           dict_set (canonical_gid gid) gid accns)
        [] (tail lines).

(** Lines 105-112: one line below the header of the assembly summary. *)
Definition read_pair (gb_accn_index rs_accn_index paired_asm_index : nat)
    (identical_accns : gmap string string) (line : string)
    : error + gmap string string :=
  let fields := line_split line in
  match fields !! paired_asm_index with
  | None => inl (Exn IndexError)
  | Some paired_asm =>
      if String.eqb paired_asm "identical" then
        match fields !! gb_accn_index with
        | None => inl (Exn IndexError)
        | Some gb_accn =>
            match fields !! rs_accn_index with
            | None => inl (Exn IndexError)
            | Some rs_accn =>
                inr (<[rs_accn := gb_accn]> (<[gb_accn := rs_accn]> identical_accns))
            end
        end
      else inr identical_accns
  end.

Fixpoint read_pairs (gb_accn_index rs_accn_index paired_asm_index : nat)
    (identical_accns : gmap string string) (lines : list string)
    : error + gmap string string :=
  match lines with
  | [] => inr identical_accns
  | line :: rest =>
      match read_pair gb_accn_index rs_accn_index paired_asm_index
                      identical_accns line with
      | inl e => inl e
      | inr identical_accns' =>
          read_pairs gb_accn_index rs_accn_index paired_asm_index
                     identical_accns' rest
      end
  end.

(** Lines 93-112.  The inner loop runs over the same file object, so
    everything below the header line is read as data and nothing is left
    for the outer loop. *)
Fixpoint read_identical (lines : list string) : error + gmap string string :=
  match lines with
  | [] => inr ∅
  | line :: rest =>
      if String.prefix "#" line && contains "assembly_accession" line then
        let header := line_split line in
        match index_of "# assembly_accession" header with
        | None => inl (ValueError "# assembly_accession")
        | Some gb_accn_index =>
            match index_of "gbrs_paired_asm" header with
            | None => inl (ValueError "gbrs_paired_asm")
            | Some rs_accn_index =>
                match index_of "paired_asm_comp" header with
                | None => inl (ValueError "paired_asm_comp")
                | Some paired_asm_index =>
                    read_pairs gb_accn_index rs_accn_index paired_asm_index ∅ rest
                end
            end
        end
      else read_identical rest
  end.

(** Lines 118-128: one key of [cur_accns]; the state is [new_gids] and
    [updated_gids]. *)
Definition classify_gid (cur_accns : list (string * string))
    (prev_accns identical_accns : gmap string string)
    (st : gset string * gset string) (cur_gid : string)
    : error + gset string * gset string :=
  if String.prefix "U" cur_gid then inr st
  else
    match prev_accns !! cur_gid with
    | Some prev_accn =>
        match dict_get cur_gid cur_accns with
        | None => inl (Exn (KeyError cur_gid))
        | Some cur_accn =>
            match same_genome_accn cur_accn prev_accn identical_accns with
            | inl e => inl e
            | inr same =>
                if negb same then inr (st.1, {[cur_gid]} ∪ st.2) else inr st
            end
        end
    | None => inr ({[cur_gid]} ∪ st.1, st.2)
    end.

Fixpoint classify_gids (cur_accns : list (string * string))
    (prev_accns identical_accns : gmap string string)
    (st : gset string * gset string) (cur_gids : list string)
    : error + gset string * gset string :=
  match cur_gids with
  | [] => inr st
  | cur_gid :: rest =>
      match classify_gid cur_accns prev_accns identical_accns st cur_gid with
      | inl e => inl e
      | inr st' => classify_gids cur_accns prev_accns identical_accns st' rest
      end
  end.

(** Lines 116-128. *)
Definition classify (cur_accns : list (string * string))
    (prev_accns identical_accns : gmap string string)
    : error + gset string * gset string :=
  classify_gids cur_accns prev_accns identical_accns (∅, ∅) cur_accns.*1.

(** Lines 137-147: one line of the file of genome paths. *)
Definition read_path (cur_genome_files : gmap string string) (line : string)
    : error + gmap string string :=
  let fields := line_split line in
  match fields !! 0%nat, fields !! 1%nat, fields !! 2%nat with
  | Some accn, Some genome_path, Some gid =>
      let assembly_id := basename (normpath genome_path) in
      let genomic_file := join genome_path (assembly_id +:+ "_genomic.fna") in
      inr (<[gid := genomic_file]> cur_genome_files)
  | _, _, _ => inl (Exn IndexError)
  end.

Fixpoint read_paths (cur_genome_files : gmap string string) (lines : list string)
    : error + gmap string string :=
  match lines with
  | [] => inr cur_genome_files
  | line :: rest =>
      match read_path cur_genome_files line with
      | inl e => inl e
      | inr cur_genome_files' => read_paths cur_genome_files' rest
      end
  end.

(** Lines 159-164: the rows of one status, appended to the lines written
    so far. *)
Fixpoint write_rows (type_str : string) (cur_accns : list (string * string))
    (cur_genome_files : gmap string string) (gids : list string)
    (written : list line) : list line * (error + unit) :=
  match gids with
  | [] => (written, inr ())
  | gid :: rest =>
      match cur_genome_files !! gid with
      | None => (written, inl (Exn (KeyError gid)))
      | Some genomic_file =>
          match dict_get gid cur_accns with
          | None => (written, inl (Exn (KeyError gid)))
          | Some cur_accn =>
              write_rows type_str cur_accns cur_genome_files rest
                (written ++ [[FStr gid; FStr cur_accn; FStr type_str;
                              FStr genomic_file]])
          end
      end
  end.

Definition header : line :=
  [FStr "Genome ID"; FStr "Accession"; FStr "Status"; FStr "Genomic file"].

(** [run] (lines 58-164) on the lines of its five input files; the state
    is the report [genomes_new_updated.tsv]. *)
Definition run (prev_ar_metadata prev_bac_metadata cur_gtdb_metadata
                cur_genome_paths ncbi_assembly_summary_genbank : list string)
    (w : report) : report * (error + unit) :=
  let prev_accns := read_prev prev_bac_metadata (read_prev prev_ar_metadata ∅) in
  let cur_accns := read_cur cur_gtdb_metadata in
  match read_identical ncbi_assembly_summary_genbank with
  | inl e => (w, inl e)
  | inr identical_accns =>
      match classify cur_accns prev_accns identical_accns with
      | inl e => (w, inl e)
      | inr (new_gids, updated_gids) =>
          match read_paths ∅ cur_genome_paths with
          | inl e => (w, inl e)
          | inr cur_genome_files =>
              match write_rows "NEW" cur_accns cur_genome_files
                               (set_order new_gids) [header] with
              | (written, inl e) => (Some written, inl e)
              | (written, inr _) =>
                  let (written', r) :=
                    write_rows "UPDATED" cur_accns cur_genome_files
                               (set_order updated_gids) written in
                  (Some written', r)
              end
          end
      end
  end.

End NewGenomes.

End NewGenomes.

(** * Properties *)

(** ** The monad *)

Lemma bind_inr {A B} (m : M A) (k : A → M B) w w' b :
  bind m k w = (w', inr b) →
  ∃ a w1, m w = (w1, inr a) ∧ k a w1 = (w', inr b).
Proof.
  unfold bind. destruct (m w) as [w1 [e|a]]; [discriminate|]. eauto.
Qed.

Lemma bind_ok {A B} (m : M A) (k : A → M B) w w1 a :
  m w = (w1, inr a) → bind m k w = k a w1.
Proof. unfold bind. by intros ->. Qed.

Lemma bind_err {A B} (m : M A) (k : A → M B) w w1 e :
  m w = (w1, inl e) → bind m k w = (w1, inl e).
Proof. unfold bind. by intros ->. Qed.

(** A loop invariant: [I] holds of the loop-carried value and the report
    after every completed iteration, [E] of the exception and the report
    when an iteration raises. *)
Lemma for_each_inv {A S} (I : S → report → Prop) (E : exn → report → Prop)
    (body : S → A → M S) (xs : list A) :
  (∀ acc x w, x ∈ xs → I acc w →
     match body acc x w with
     | (w', inr acc') => I acc' w'
     | (w', inl e) => E e w'
     end) →
  ∀ acc w, I acc w →
    match for_each xs body acc w with
    | (w', inr acc') => I acc' w'
    | (w', inl e) => E e w'
    end.
Proof.
  induction xs as [|x xs IH]; intros Hbody acc w HI; simpl; [done|].
  unfold bind. specialize (Hbody acc x w (list_elem_of_here _ _) HI) as Hx.
  destruct (body acc x w) as [w1 [e|acc1]]; [done|].
  apply IH; [|done]. intros acc' y w' Hy. apply Hbody. by right.
Qed.

(** A loop whose body leaves the report alone leaves it alone. *)
Lemma for_each_pure {A S} (body : S → A → M S) (xs : list A) :
  (∀ acc x w, (body acc x w).1 = w) →
  ∀ acc w, (for_each xs body acc w).1 = w.
Proof.
  intros Hbody. induction xs as [|x xs IH]; intros acc w; simpl; [done|].
  unfold bind. specialize (Hbody acc x w).
  destruct (body acc x w) as [w1 [e|acc1]]; simpl in *; [done|].
  by rewrite IH.
Qed.

(** Facts [Q k] about the loop-carried value that every iteration keeps
    are kept by the loop. *)
Lemma for_each_stable {A S K} (Q : K → S → Prop) (body : S → A → M S)
    (xs : list A) :
  (∀ acc x w w' acc', x ∈ xs → body acc x w = (w', inr acc') →
     ∀ k, Q k acc → Q k acc') →
  ∀ acc w w' acc', for_each xs body acc w = (w', inr acc') →
    ∀ k, Q k acc → Q k acc'.
Proof.
  induction xs as [|x xs IH]; intros Hbody acc w w' acc'; simpl.
  - by intros [= <- <-].
  - intros (acc1 & w1 & Hx & Hrest)%bind_inr k Hk.
    eapply IH; [|exact Hrest|].
    + intros ????? Hin. apply Hbody. by right.
    + eapply Hbody; [left|exact Hx|exact Hk].
Qed.

(** If the iteration at [x] establishes [Q (key x)] and every iteration
    keeps the facts [Q k], a loop that completes has established
    [Q (key x)] for every [x] it ran over. *)
Lemma for_each_establish {A S K} (Q : K → S → Prop) (key : A → K)
    (body : S → A → M S) (xs : list A) :
  (∀ acc x w w' acc', x ∈ xs → body acc x w = (w', inr acc') →
     Q (key x) acc' ∧ ∀ k, Q k acc → Q k acc') →
  ∀ acc w w' acc', for_each xs body acc w = (w', inr acc') →
    ∀ x, x ∈ xs → Q (key x) acc'.
Proof.
  induction xs as [|x xs IH]; intros Hbody acc w w' acc'; simpl.
  - intros _ x Hx. by apply elem_of_nil in Hx.
  - intros (acc1 & w1 & Hx & Hrest)%bind_inr y [->|Hy]%elem_of_cons.
    + eapply (for_each_stable Q body xs); [|exact Hrest|].
      * intros ????? Hin Hb.
        exact (proj2 (Hbody _ _ _ _ _ (list_elem_of_further _ _ _ Hin) Hb)).
      * exact (proj1 (Hbody _ _ _ _ _ (list_elem_of_here _ _) Hx)).
    + eapply IH; [|exact Hrest|exact Hy].
      intros ????? Hin. apply Hbody. by right.
Qed.

(** A loop that runs over an element at which the body always raises,
    raises. *)
Lemma for_each_raises {A S} (body : S → A → M S) (xs : list A) (x : A) :
  x ∈ xs →
  (∀ acc w, ∃ w' e, body acc x w = (w', inl e)) →
  ∀ acc w, ∃ w' e, for_each xs body acc w = (w', inl e).
Proof.
  intros Hin Hx. induction xs as [|y xs IH]; [by apply elem_of_nil in Hin|].
  intros acc w. simpl. unfold bind.
  destruct (body acc y w) as [w1 [e|acc1]] eqn:Hy; [by eauto|].
  apply elem_of_cons in Hin as [->|Hin]; [|by apply IH].
  destruct (Hx acc w) as (w' & e & Hraise). congruence.
Qed.

(** [P] holds of every line of the report, if there is one. *)
Definition lines_sat (P : line → Prop) (w : report) : Prop :=
  ∀ ls l, w = Some ls → l ∈ ls → P l.

Lemma lines_sat_fopen (P : line → Prop) (w : report) : lines_sat P (fopen w).1.
Proof. intros ls l [= <-] Hl. by apply elem_of_nil in Hl. Qed.

Lemma lines_sat_fwrite (P : line → Prop) (l : line) (w : report) :
  lines_sat P w → P l → lines_sat P (fwrite l w).1.
Proof.
  intros Hw Hl ls l'. destruct w as [ls0|]; [|done]. simpl. intros [= <-].
  intros [?|Hl'%list_elem_of_singleton]%elem_of_app; [by eapply Hw | by subst].
Qed.

(** ** The epithet test *)

Lemma longest_common_prefix_comm (s1 s2 : string) :
  longest_common_prefix s1 s2 = longest_common_prefix s2 s1.
Proof.
  revert s2. induction s1 as [|a s1 IH]; intros [|b s2]; simpl; try done.
  rewrite (Ascii.eqb_sym b a).
  destruct (Ascii.eqb a b) eqn:Hab; [|done].
  apply Ascii.eqb_eq in Hab as ->. by rewrite IH.
Qed.

Module PMC_CheckTypeStrains_Facts.
Import PMC_CheckTypeStrains.

(** C7.  [_test_same_epithet] answers [True] exactly when the epithets are
    the same string or their longest common prefix is at least
    [min(len(epithet1), len(epithet2)) - 3] long; it accepts
    bacillus/bacillus and coli/colii and rejects coli/subtilis. *)
Theorem test_same_epithet_iff :
  (∀ epithet1 epithet2 : string,
     _test_same_epithet epithet1 epithet2 = true ↔
     epithet1 = epithet2 ∨
     (len (longest_common_prefix epithet1 epithet2)
        >= Z.min (len epithet1) (len epithet2) - 3)%Z) ∧
  _test_same_epithet "bacillus" "bacillus" = true ∧
  _test_same_epithet "coli" "colii" = true ∧
  _test_same_epithet "coli" "subtilis" = false.
Proof.
  split; [|by vm_compute].
  intros e1 e2. unfold _test_same_epithet.
  destruct (String.eqb e1 e2) eqn:Heq.
  - apply String.eqb_eq in Heq. tauto.
  - apply String.eqb_neq in Heq.
    destruct (Z.geb_spec (len (longest_common_prefix e1 e2))
                         (Z.min (len e1) (len e2) - 3)) as [Hge|Hlt].
    + split; [intros _; right; lia | done].
    + split; [done | intros [?|?]; [done | lia]].
Qed.

(** C10.  [_test_same_epithet] does not depend on the order of its two
    arguments. *)
Theorem test_same_epithet_sym (epithet1 epithet2 : string) :
  _test_same_epithet epithet1 epithet2 = _test_same_epithet epithet2 epithet1.
Proof.
  unfold _test_same_epithet.
  rewrite (String.eqb_sym epithet2 epithet1).
  rewrite (longest_common_prefix_comm epithet2 epithet1).
  by rewrite (Z.min_comm (len epithet2) (len epithet1)).
Qed.

(** The epithet equivalence rule in the words of the spec (section 4.5):
    two specific epithets are equivalent if they are identical strings, or
    their longest common prefix has length at least
    [min(len(epithet1), len(epithet2)) - 3]. *)
Definition equivalent (epithet1 epithet2 : string) : Prop :=
  epithet1 = epithet2 ∨
  (len (longest_common_prefix epithet1 epithet2)
     >= Z.min (len epithet1) (len epithet2) - 3)%Z.

(** Lines 45-54 decide the rule. *)
Lemma test_same_epithet_equivalent (epithet1 epithet2 : string) :
  _test_same_epithet epithet1 epithet2 = true ↔ equivalent epithet1 epithet2.
Proof.
  unfold _test_same_epithet, equivalent.
  destruct (String.eqb_spec epithet1 epithet2) as [Heq|Hne]; [tauto|].
  destruct (Z.geb_spec (len (longest_common_prefix epithet1 epithet2))
                       (Z.min (len epithet1) (len epithet2) - 3)) as [Hge|Hlt].
  - split; [intros _; right; lia | done].
  - split; [done | intros [?|?]; [done | lia]].
Qed.

(** The rows that one entry of the curated taxonomy contributes, in
    closed form; the loop is shown to write exactly these. *)
Definition rows_of (cur_genomes : Genomes) (entry : string * list string) : list line :=
  match genomes_lookup cur_genomes entry.1, entry.2 !! SPECIES_INDEX with
  | Some g, Some gtdb_sp =>
      if is_gtdb_type_strain g
         && negb (String.eqb (ncbi_taxa_species g) "s__")
         && negb (_test_same_epithet (specific_epithet gtdb_sp)
                                     (specific_epithet (ncbi_taxa_species g)))
      then [[FStr entry.1; FStr gtdb_sp; FStr (ncbi_taxa_species g);
             FStr (excluded_from_refseq_note g)]]
      else []
  | _, _ => []
  end.

(** Every genome of the curated taxonomy is in the genome set, and the
    type-strain ones have a species rank. *)
Definition loadable (cur_genomes : Genomes) (mc_taxonomy : list (string * list string)) : Prop :=
  ∀ entry, entry ∈ mc_taxonomy →
    ∃ g, genomes_lookup cur_genomes entry.1 = Some g ∧
         (is_gtdb_type_strain g = true → is_Some (entry.2 !! SPECIES_INDEX)).

Lemma check_genome_rows cur_genomes entry g n ls :
  genomes_lookup cur_genomes entry.1 = Some g →
  (is_gtdb_type_strain g = true → is_Some (entry.2 !! SPECIES_INDEX)) →
  check_genome cur_genomes n entry (Some ls) =
  (Some (ls ++ rows_of cur_genomes entry),
   inr (n + Z.of_nat (length (rows_of cur_genomes entry)))).
Proof.
  intros Hg Hsp. unfold check_genome, rows_of, bind, getitem, ret, fwrite.
  rewrite Hg.
  destruct (is_gtdb_type_strain g) eqn:Hts; simpl.
  - destruct (Hsp eq_refl) as [gtdb_sp ->].
    destruct (String.eqb (ncbi_taxa_species g) "s__"); simpl;
      [by rewrite app_nil_r, Z.add_0_r|].
    destruct (_test_same_epithet _ _); simpl;
      [by rewrite app_nil_r, Z.add_0_r | done].
  - destruct (entry.2 !! SPECIES_INDEX); by rewrite app_nil_r, Z.add_0_r.
Qed.

Lemma check_loop cur_genomes mc_taxonomy :
  loadable cur_genomes mc_taxonomy →
  ∀ n ls,
    for_each mc_taxonomy (check_genome cur_genomes) n (Some ls) =
    (Some (ls ++ flat_map (rows_of cur_genomes) mc_taxonomy),
     inr (n + Z.of_nat (length (flat_map (rows_of cur_genomes) mc_taxonomy)))).
Proof.
  induction mc_taxonomy as [|entry mc IH]; intros Hload n ls; simpl.
  - by rewrite app_nil_r, Z.add_0_r.
  - destruct (Hload entry) as (g & Hg & Hsp); [left|].
    rewrite (bind_ok _ _ _ _ _ (check_genome_rows _ _ _ n ls Hg Hsp)).
    rewrite IH by (intros e He; apply Hload; by right).
    rewrite <- app_assoc, length_app. do 2 f_equal. lia.
Qed.

(** C8, amended.  When [run] gets through (the two genomes that lines
    91-92 index are in the genome set, and so is every genome of the curated
    taxonomy, the type-strain ones with a species rank), the report is the
    header and one row for each incongruence, and the count is the number
    of rows: a type-strain genome of the curated taxonomy has its row
    exactly when its NCBI species is not [s__] and the two specific epithets
    are not equivalent under the rule of the spec, that is, they are
    neither the same nor share a prefix of [min] of their lengths minus
    three.  The epithets of "s__Foo bar" and "s__Foo barii" are equivalent,
    so that genome gets no row. *)
Theorem run_reports_incongruent (mc_taxonomy : list (string * list string))
    (cur_genomes : Genomes) (w : report) :
  is_Some (genomes_lookup cur_genomes "G003992675") →
  is_Some (genomes_lookup cur_genomes "G003149745") →
  loadable cur_genomes mc_taxonomy →
  (∃ rows n,
     run mc_taxonomy cur_genomes w = (Some (header :: rows), inr n) ∧
     n = Z.of_nat (length rows) ∧
     ∀ rid taxa g gtdb_sp,
       (rid, taxa) ∈ mc_taxonomy →
       genomes_lookup cur_genomes rid = Some g →
       is_gtdb_type_strain g = true →
       taxa !! SPECIES_INDEX = Some gtdb_sp →
       ([FStr rid; FStr gtdb_sp; FStr (ncbi_taxa_species g);
         FStr (excluded_from_refseq_note g)] ∈ rows
        ↔ ncbi_taxa_species g ≠ "s__" ∧
          ¬ (specific_epithet gtdb_sp = specific_epithet (ncbi_taxa_species g) ∨
             (len (longest_common_prefix
                     (specific_epithet gtdb_sp)
                     (specific_epithet (ncbi_taxa_species g)))
                >= Z.min (len (specific_epithet gtdb_sp))
                         (len (specific_epithet (ncbi_taxa_species g))) - 3)%Z))) ∧
  equivalent (specific_epithet "s__Foo bar") (specific_epithet "s__Foo barii").
Proof.
  intros [g1 H1] [g2 H2] Hload. split; [|right; by vm_compute].
  exists (flat_map (rows_of cur_genomes) mc_taxonomy),
         (Z.of_nat (length (flat_map (rows_of cur_genomes) mc_taxonomy))).
  split; [|split; [done|]].
  - unfold run. rewrite H1, H2. unfold bind at 1 2, getitem, ret at 1 2.
    unfold bind, fopen, fwrite. simpl.
    by rewrite (check_loop _ _ Hload 0 [header]).
  - intros rid taxa g gtdb_sp Hin Hg Hts Hsp.
    change (?a = ?b ∨ (len (longest_common_prefix ?a ?b) >= _)%Z)
      with (equivalent a b).
    rewrite <- test_same_epithet_equivalent.
    rewrite list_elem_of_In, in_flat_map. split.
    + intros ([rid' taxa'] & Hin' & Hrow). unfold rows_of in Hrow. simpl in Hrow.
      destruct (genomes_lookup cur_genomes rid') as [g'|] eqn:Hg'; [|done].
      destruct (taxa' !! SPECIES_INDEX) as [sp'|]; [|by destruct Hrow].
      destruct (is_gtdb_type_strain g'); [|by destruct Hrow].
      destruct (String.eqb (ncbi_taxa_species g') "s__") eqn:Hs; [by destruct Hrow|].
      destruct (_test_same_epithet _ _) eqn:Ht; [by destruct Hrow|].
      simpl in Hrow. destruct Hrow as [Hrow|[]].
      injection Hrow as -> -> Hn _. rewrite Hg in Hg'. injection Hg' as <-.
      split; [by apply String.eqb_neq | by rewrite Ht].
    + intros [Hne Ht%not_true_is_false]. exists (rid, taxa).
      split; [by apply list_elem_of_In|].
      unfold rows_of. simpl. rewrite Hg, Hsp, Hts, Ht.
      apply String.eqb_neq in Hne. rewrite Hne. by left.
Qed.

Definition ts (ncbi_sp : string) : Genome := mkGenome ncbi_sp true true "".

Definition cur_genomes_ex : Genomes :=
  [("G003992675", ts "s__Foo bar"); ("G003149745", ts "s__");
   ("G1", ts "s__Foo barii"); ("G2", ts "s__Foo subtilis")].

Definition taxa_ex (species : string) : list string :=
  ["d__D"; "p__P"; "c__C"; "o__O"; "f__F"; "g__Foo"; species].

Definition mc_taxonomy_ex : list (string * list string) :=
  [("G003149745", taxa_ex "s__Foo bar"); ("G1", taxa_ex "s__Foo bar");
   ("G2", taxa_ex "s__Foo coli")].

Lemma loadable_ex : loadable cur_genomes_ex mc_taxonomy_ex.
Proof.
  intros entry Hin. unfold mc_taxonomy_ex in Hin.
  repeat (apply elem_of_cons in Hin as [->|Hin]);
    [eexists; split; [reflexivity | intros _; by eexists] ..|].
  by apply elem_of_nil in Hin.
Qed.

Lemma run_reports_incongruent_witness :
  (∃ rows n,
     run mc_taxonomy_ex cur_genomes_ex None = (Some (header :: rows), inr n) ∧
     n = Z.of_nat (length rows) ∧
     ∀ rid taxa g gtdb_sp,
       (rid, taxa) ∈ mc_taxonomy_ex →
       genomes_lookup cur_genomes_ex rid = Some g →
       is_gtdb_type_strain g = true →
       taxa !! SPECIES_INDEX = Some gtdb_sp →
       ([FStr rid; FStr gtdb_sp; FStr (ncbi_taxa_species g);
         FStr (excluded_from_refseq_note g)] ∈ rows
        ↔ ncbi_taxa_species g ≠ "s__" ∧
          ¬ (specific_epithet gtdb_sp = specific_epithet (ncbi_taxa_species g) ∨
             (len (longest_common_prefix
                     (specific_epithet gtdb_sp)
                     (specific_epithet (ncbi_taxa_species g)))
                >= Z.min (len (specific_epithet gtdb_sp))
                         (len (specific_epithet (ncbi_taxa_species g))) - 3)%Z))) ∧
  equivalent (specific_epithet "s__Foo bar") (specific_epithet "s__Foo barii").
Proof.
  apply (run_reports_incongruent mc_taxonomy_ex cur_genomes_ex None).
  - by eexists.
  - by eexists.
  - exact loadable_ex.
Defined.

(** C8, counterexample.  G2 is a genome of the curated taxonomy with direct
    type-strain evidence, its NCBI species is not [s__], and the epithets
    coli and subtilis are not equivalent; yet no row is written for it.
    When the genome set lacks a genome that lines 91-92 index, [run] stops
    before the report is opened.  When it has both, a genome of the curated
    taxonomy that comes before G2 and is missing from the genome set stops
    the loop at line 100, and the report holds the header alone. *)
Lemma incongruent_genome_unreported :
  is_gtdb_type_strain (ts "s__Foo subtilis") = true ∧
  ncbi_taxa_species (ts "s__Foo subtilis") ≠ "s__" ∧
  ¬ equivalent (specific_epithet "s__Foo coli")
               (specific_epithet (ncbi_taxa_species (ts "s__Foo subtilis"))) ∧
  run [("G2", taxa_ex "s__Foo coli")] [("G2", ts "s__Foo subtilis")] None
  = (None, inl (KeyError "G003992675")) ∧
  run [("G7", taxa_ex "s__Foo bar"); ("G2", taxa_ex "s__Foo coli")]
      cur_genomes_ex None
  = (Some [header], inl (KeyError "G7")).
Proof.
  split; [reflexivity|]. split; [done|]. split; [|split; reflexivity].
  intros [Heq|Hge]; [done|]. by vm_compute in Hge.
Qed.

(** On the example above only G2 (subtilis against coli) gets a row: G1
    differs in a short suffix, and the genome without an NCBI species is
    passed over. *)
Example run_ex :
  run mc_taxonomy_ex cur_genomes_ex None =
  (Some [header; [FStr "G2"; FStr "s__Foo coli"; FStr "s__Foo subtilis"; FStr ""]],
   inr 1).
Proof. reflexivity. Qed.

(** C9.  [run] indexes the genome set with G003992675 and G003149745
    before it opens the report: when either is missing it stops with the
    [KeyError] of the first missing one and the report is as it was. *)
Theorem run_needs_checked_genomes (mc_taxonomy : list (string * list string))
    (cur_genomes : Genomes) (w : report) :
  genomes_lookup cur_genomes "G003992675" = None ∨
  genomes_lookup cur_genomes "G003149745" = None →
  ∃ gid, (gid = "G003992675" ∨ gid = "G003149745") ∧
         genomes_lookup cur_genomes gid = None ∧
         run mc_taxonomy cur_genomes w = (w, inl (KeyError gid)).
Proof.
  intros Hmiss. unfold run.
  destruct (genomes_lookup cur_genomes "G003992675") as [g1|] eqn:H1.
  - destruct Hmiss as [?|H2]; [done|].
    exists "G003149745". rewrite H2. by auto.
  - exists "G003992675". by auto.
Qed.

Lemma run_needs_checked_genomes_witness :
  ∃ gid, (gid = "G003992675" ∨ gid = "G003149745") ∧
         genomes_lookup [("G003992675", ts "s__Foo bar")] gid = None ∧
         run mc_taxonomy_ex [("G003992675", ts "s__Foo bar")] (Some [])
         = (Some [], inl (KeyError gid)).
Proof.
  apply (run_needs_checked_genomes mc_taxonomy_ex
           [("G003992675", ts "s__Foo bar")] (Some [])).
  right. reflexivity.
Defined.

End PMC_CheckTypeStrains_Facts.

(** ** The cluster index *)

Module UpdateErroneousNCBI_Facts.
Import UpdateErroneousNCBI.

(** The representative that the index ends up with for [gid]: that of the
    last cluster, in iteration order, that lists [gid]. *)
Fixpoint last_listing (gid : string) (cur_clusters : Clusters) : option string :=
  match cur_clusters with
  | [] => None
  | cluster :: rest =>
      match last_listing gid rest with
      | Some rid => Some rid
      | None => if bool_decide (gid ∈ cluster.2) then Some cluster.1 else None
      end
  end.

Lemma index_cluster_lookup (index : gmap string string) (rid : string)
    (cids : list string) (gid : string) :
  foldl (λ index cid, <[cid := rid]> index) index cids !! gid =
  if bool_decide (gid ∈ cids) then Some rid else index !! gid.
Proof.
  revert index. induction cids as [|cid cids IH]; intros index; cbn [foldl].
  - by rewrite bool_decide_eq_false_2 by apply not_elem_of_nil.
  - rewrite IH. destruct (decide (gid ∈ cids)) as [Hin|Hnin].
    + rewrite (bool_decide_eq_true_2 _ Hin).
      by rewrite bool_decide_eq_true_2 by (by right).
    + rewrite (bool_decide_eq_false_2 _ Hnin).
      destruct (decide (gid = cid)) as [->|Hne].
      * rewrite lookup_insert_eq. by rewrite bool_decide_eq_true_2 by left.
      * rewrite lookup_insert_ne by done.
        rewrite bool_decide_eq_false_2; [done|].
        intros [?|?]%elem_of_cons; done.
Qed.

Lemma index_lookup (index : gmap string string) (cur_clusters : Clusters) (gid : string) :
  foldl (λ index cluster,
           foldl (λ index cid, <[cid := cluster.1]> index) index cluster.2)
        index cur_clusters !! gid =
  match last_listing gid cur_clusters with
  | Some rid => Some rid
  | None => index !! gid
  end.
Proof.
  revert index. induction cur_clusters as [|cluster rest IH]; intros index; simpl; [done|].
  rewrite IH. destruct (last_listing gid rest); [done|].
  rewrite index_cluster_lookup. by case_bool_decide.
Qed.

Lemma gid_to_rid_last_listing (cur_clusters : Clusters) (gid : string) :
  gid_to_rid cur_clusters !! gid = last_listing gid cur_clusters.
Proof.
  unfold gid_to_rid. rewrite index_lookup.
  by destruct (last_listing gid cur_clusters).
Qed.

Lemma last_listing_Some gid cur_clusters rid :
  last_listing gid cur_clusters = Some rid →
  ∃ cids, (rid, cids) ∈ cur_clusters ∧ gid ∈ cids.
Proof.
  induction cur_clusters as [|[r cids] rest IH]; simpl; [done|].
  destruct (last_listing gid rest) as [r'|].
  - intros [= ->]. destruct IH as (cids' & ? & ?); [done|].
    exists cids'. split; [by right | done].
  - case_bool_decide; [|done]. intros [= ->]. exists cids. split; [by left | done].
Qed.

Lemma last_listing_None gid cur_clusters :
  last_listing gid cur_clusters = None ↔
  ∀ cluster, cluster ∈ cur_clusters → gid ∉ cluster.2.
Proof.
  induction cur_clusters as [|c rest IH]; simpl.
  - split; [|done]. intros _ c Hc. by apply elem_of_nil in Hc.
  - destruct (last_listing gid rest) as [r'|].
    + split; [done|]. intros Hall.
      assert (Some r' = None) as [=]. apply IH. intros c' Hc'. apply Hall. by right.
    + case_bool_decide as Hin.
      * split; [done|]. intros Hall. destruct (Hall c); [by left | done].
      * split; [|done]. intros _ c' [->|Hc']%elem_of_cons; [done|].
        by apply IH.
Qed.

Lemma last_listing_app gid before cluster after :
  gid ∈ cluster.2 →
  (∀ later, later ∈ after → gid ∉ later.2) →
  last_listing gid (before ++ cluster :: after) = Some cluster.1.
Proof.
  intros Hin Hafter. induction before as [|c before IH]; simpl.
  - apply last_listing_None in Hafter as ->. by rewrite bool_decide_eq_true_2.
  - by rewrite IH.
Qed.

(** What C5 asks of the index: every clustered genome and every
    representative has an entry, and a representative's entry is the
    representative itself. *)
Definition index_total (cur_clusters : Clusters) : Prop :=
  ∀ rid cids, (rid, cids) ∈ cur_clusters →
    gid_to_rid cur_clusters !! rid = Some rid ∧
    ∀ cid, cid ∈ cids → is_Some (gid_to_rid cur_clusters !! cid).

(** C5, as stated, fails: a representative that is not listed among the
    clustered genomes of any cluster has no entry in the index. *)
Lemma index_total_counterexample :
  ¬ index_total [("R1", ["G1"])] ∧ gid_to_rid [("R1", ["G1"])] !! "R1" = None.
Proof.
  split; [|reflexivity].
  intros Htot. destruct (Htot "R1" ["G1"]) as [Hself _]; [by left|].
  vm_compute in Hself. discriminate.
Qed.

(** C5, amended.  The index has an entry for exactly the genome IDs that
    some cluster lists among its clustered genomes, and the entry is the
    representative of the last cluster listing the ID.  So a representative
    maps to itself when its own cluster lists it and no later cluster does,
    and has no entry when no cluster lists it. *)
Theorem gid_to_rid_listed (cur_clusters : Clusters) (gid : string) :
  (is_Some (gid_to_rid cur_clusters !! gid) ↔
   ∃ rid cids, (rid, cids) ∈ cur_clusters ∧ gid ∈ cids) ∧
  (∀ rid, gid_to_rid cur_clusters !! gid = Some rid →
     ∃ cids, (rid, cids) ∈ cur_clusters ∧ gid ∈ cids) ∧
  (∀ before rid cids after,
     cur_clusters = before ++ (rid, cids) :: after →
     gid ∈ cids →
     (∀ later, later ∈ after → gid ∉ later.2) →
     gid_to_rid cur_clusters !! gid = Some rid).
Proof.
  rewrite gid_to_rid_last_listing. split; [|split].
  - split.
    + intros [rid Hrid]. exists rid. by apply last_listing_Some.
    + intros (rid & cids & Hin & Hgid).
      destruct (last_listing gid cur_clusters) eqn:Hl; [done|].
      rewrite last_listing_None in Hl. destruct (Hl _ Hin). done.
  - apply last_listing_Some.
  - intros before rid cids after -> Hin Hafter.
    by apply (last_listing_app gid before (rid, cids) after).
Qed.

Example gid_to_rid_self :
  gid_to_rid [("R1", ["R1"; "G1"]); ("R2", ["G3"; "R2"])] !! "R2" = Some "R2" ∧
  gid_to_rid [("R1", ["R1"; "G1"]); ("R2", ["G3"; "R2"])] !! "G1" = Some "R1".
Proof. split; reflexivity. Qed.

Lemma gid_to_rid_listed_witness :
  gid_to_rid [("R1", ["R1"; "G1"]); ("R2", ["G3"; "R2"])] !! "R2" = Some "R2".
Proof.
  apply (proj2 (proj2 (gid_to_rid_listed
                         [("R1", ["R1"; "G1"]); ("R2", ["G3"; "R2"])] "R2"))
               [("R1", ["R1"; "G1"])] "R2" ["G3"; "R2"] []).
  - reflexivity.
  - right. left.
  - intros later Hlater. by apply elem_of_nil in Hlater.
Defined.

(** ** Candidate gathering *)

(** [gid] is in the candidate group of the species [sp]. *)
Definition grouped (groups : list (string * list string)) (sp gid : string) : Prop :=
  ∃ gids, (sp, gids) ∈ groups ∧ gid ∈ gids.

(** A genome is a candidate when it has an NCBI species whose epithet is
    not forbidden (lines 88 and 178). *)
Definition candidate (g : Genome) : Prop :=
  ncbi_taxa_species g ≠ "s__" ∧
  specific_epithet (ncbi_taxa_species g) ∉ forbidden_names.

Lemma group_append_grouped groups ncbi_species gid sp gid' :
  grouped (group_append ncbi_species gid groups) sp gid' ↔
  (sp = ncbi_species ∧ gid' = gid) ∨ grouped groups sp gid'.
Proof.
  unfold grouped. induction groups as [|[sp0 gids0] rest IH]; simpl.
  - split.
    + intros (gids & [[= -> ->]|[]%elem_of_nil]%elem_of_cons & Hg).
      apply list_elem_of_singleton in Hg. auto.
    + intros [[-> ->]|(gids & []%elem_of_nil & _)].
      exists [gid]. split; [left | by left].
  - destruct (String.eqb_spec sp0 ncbi_species) as [->|Hne].
    + split.
      * intros (gids & [[= -> ->]|Hin]%elem_of_cons & Hg).
        -- apply elem_of_app in Hg as [Hg|Hg%list_elem_of_singleton]; [|auto].
           right. exists gids0. split; [left | done].
        -- right. exists gids. split; [by right | done].
      * intros [[-> ->]|(gids & [[= -> ->]|Hin]%elem_of_cons & Hg)].
        -- exists (gids0 ++ [gid]). split; [left|]. apply elem_of_app. right. by left.
        -- exists (gids0 ++ [gid]). split; [left|]. apply elem_of_app. by left.
        -- exists gids. split; [by right | done].
    + split.
      * intros (gids & [[= -> ->]|Hin]%elem_of_cons & Hg).
        -- right. exists gids0. split; [left | done].
        -- destruct (proj1 IH) as [?|(gids' & ? & ?)]; [by exists gids | by left |].
           right. exists gids'. split; [by right | done].
      * intros [Hnew|(gids & [[= -> ->]|Hin]%elem_of_cons & Hg)].
        -- destruct (proj2 IH (or_introl Hnew)) as (gids' & ? & ?).
           exists gids'. split; [by right | done].
        -- exists gids0. split; [left | done].
        -- destruct (proj2 IH) as (gids' & ? & ?); [right; by exists gids|].
           exists gids'. split; [by right | done].
Qed.

Lemma candidate_dec (g : Genome) :
  negb (String.eqb (ncbi_taxa_species g) "s__")
  && negb (bool_decide (specific_epithet (ncbi_taxa_species g) ∈ forbidden_names)) = true
  ↔ candidate g.
Proof.
  unfold candidate. rewrite andb_true_iff, !negb_true_iff.
  rewrite String.eqb_neq, bool_decide_eq_false. done.
Qed.

Lemma gather_step_grouped st (entry : string * Genome) sp gid :
  grouped (gather_step st entry).1 sp gid ↔
  grouped st.1 sp gid ∨
  (gid = entry.1 ∧ ncbi_taxa_species entry.2 = sp ∧ candidate entry.2).
Proof.
  unfold gather_step. cbn [fst].
  destruct (negb _ && negb _) eqn:Hc.
  - apply candidate_dec in Hc. rewrite group_append_grouped. split.
    + intros [[-> ->]|?]; [by right | by left].
    + intros [?|(-> & <- & _)]; [by right | by left].
  - split; [auto|]. intros [?|(_ & _ & Hcand)]; [done|].
    apply candidate_dec in Hcand. congruence.
Qed.

Lemma gather_from_grouped (cur_genomes : Genomes) st sp gid :
  grouped (foldl gather_step st cur_genomes).1 sp gid ↔
  grouped st.1 sp gid ∨
  ∃ g, (gid, g) ∈ cur_genomes ∧ ncbi_taxa_species g = sp ∧ candidate g.
Proof.
  revert st. induction cur_genomes as [|[gid0 g0] rest IH]; intros st; cbn [foldl].
  - split; [auto|]. intros [?|(g & []%elem_of_nil & _)]. done.
  - rewrite IH, gather_step_grouped. cbn [fst snd]. split.
    + intros [[?|(-> & ? & ?)]|(g & ? & ? & ?)]; [by left| |].
      * right. exists g0. split; [left | done].
      * right. exists g. split; [by right | done].
    + intros [?|(g & [[= -> ->]|?]%elem_of_cons & ? & ?)]; [by left; left| |].
      * left. right. done.
      * right. by exists g.
Qed.

(** The candidate groups hold exactly the genomes with an NCBI species
    whose epithet is not forbidden, each under its own species. *)
Lemma ncbi_sp_gids_grouped (cur_genomes : Genomes) sp gid :
  grouped (ncbi_sp_gids cur_genomes) sp gid ↔
  ∃ g, (gid, g) ∈ cur_genomes ∧ ncbi_taxa_species g = sp ∧ candidate g.
Proof.
  unfold ncbi_sp_gids, gather. rewrite gather_from_grouped. split; [|auto].
  intros [(gids & []%elem_of_nil & _)|?]. done.
Qed.

(** The variable [ncbi_species] after the gathering loop. *)
Lemma gather_from_last (cur_genomes : Genomes) st :
  (foldl gather_step st cur_genomes).2 =
  match last cur_genomes with
  | Some entry => Some (ncbi_taxa_species entry.2)
  | None => st.2
  end.
Proof.
  revert st. induction cur_genomes as [|entry rest IH]; intros st; [done|].
  cbn [foldl]. rewrite IH. destruct rest as [|entry' rest]; [reflexivity|].
  rewrite last_cons_cons. by destruct (last (entry' :: rest)) eqn:Hl; [|apply last_None in Hl].
Qed.

Lemma gather_last (cur_genomes : Genomes) :
  (gather cur_genomes).2 =
  (λ entry : string * Genome, ncbi_taxa_species entry.2) <$> last cur_genomes.
Proof. unfold gather. rewrite gather_from_last. by destruct (last cur_genomes). Qed.

Lemma genomes_lookup_elem (cur_genomes : Genomes) gid g :
  genomes_lookup cur_genomes gid = Some g → (gid, g) ∈ cur_genomes.
Proof.
  induction cur_genomes as [|[k g0] rest IH]; simpl; [done|].
  destruct (String.eqb_spec k gid) as [->|_].
  - intros [= ->]. left.
  - intros ?. right. auto.
Qed.

(** In a dictionary the keys are distinct, so an entry is what indexing
    by its key yields. *)
Lemma genomes_lookup_NoDup (cur_genomes : Genomes) gid g :
  NoDup cur_genomes.*1 → (gid, g) ∈ cur_genomes →
  genomes_lookup cur_genomes gid = Some g.
Proof.
  induction cur_genomes as [|[k g0] rest IH]; simpl.
  - intros _ []%elem_of_nil.
  - intros [Hk Hnd]%NoDup_cons [[= -> ->]|Hin]%elem_of_cons.
    + by rewrite String.eqb_refl.
    + destruct (String.eqb_spec k gid) as [->|_]; [|by apply IH].
      destruct Hk. apply list_elem_of_fmap. by exists (gid, g).
Qed.

(** ** Anchors of the clustering method *)

Section ClusterAnchors.

Variable cur_genomes : Genomes.
Variable ncbi_species : option string.

(** The forbidden-name test of line 188 lets an anchor through. *)
Definition passes : Prop :=
  ∃ sp, ncbi_species = Some sp ∧ specific_epithet sp ∉ forbidden_names.

(** [cid] is a type-strain genome with the NCBI species [sp]. *)
Definition type_strain_of (cid sp : string) : Prop :=
  ∃ g, genomes_lookup cur_genomes cid = Some g ∧
       is_effective_type_strain g = true ∧
       ncbi_taxa_species g = sp ∧ sp ≠ "s__".

(** The exceptions of the anchor loop. *)
Definition anchor_exn (e : exn) : Prop :=
  (∃ cid, e = KeyError cid ∧ genomes_lookup cur_genomes cid = None) ∨
  (e = NameError "ncbi_species" ∧ ncbi_species = None) ∨
  e = SysExit (-1).

Lemma anchor_member_cases rid anchored cid w :
  match anchor_member cur_genomes ncbi_species rid anchored cid w with
  | (w', inr anchored') =>
      w' = w ∧
      ((anchored' = anchored ∧ ¬ (passes ∧ ∃ sp, type_strain_of cid sp)) ∨
       (∃ sp, passes ∧ type_strain_of cid sp ∧
              (anchored !! sp = None ∨ anchored !! sp = Some rid) ∧
              anchored' = <[sp := rid]> anchored))
  | (w', inl e) => w' = w ∧ anchor_exn e
  end.
Proof.
  unfold anchor_member, bind, getitem, ret, raise, anchor_exn, passes, type_strain_of.
  destruct (genomes_lookup cur_genomes cid) as [g|] eqn:Hg; [|by eauto].
  destruct (is_effective_type_strain g) eqn:Hts.
  2:{ split; [done|]. left. split; [done|]. intros (_ & sp & g' & [= <-] & ? & _).
      congruence. }
  destruct ncbi_species as [stale|]; [|by auto].
  destruct (String.eqb_spec (ncbi_taxa_species g) "s__") as [Hs|Hs]; simpl.
  { split; [done|]. left. split; [done|].
    intros (_ & sp & g' & [= <-] & _ & <- & ?). done. }
  case_bool_decide as Hforb; simpl.
  { split; [done|]. left. split; [done|].
    intros ((sp & [= <-] & ?) & _). done. }
  assert (∃ g', Some g = Some g' ∧ is_effective_type_strain g' = true ∧
                ncbi_taxa_species g' = ncbi_taxa_species g ∧
                ncbi_taxa_species g ≠ "s__") by eauto.
  destruct (anchored !! ncbi_taxa_species g) as [prev|] eqn:Hprev.
  - destruct (String.eqb_spec rid prev) as [->|Hne]; simpl; [|by auto].
    split; [done|]. right. exists (ncbi_taxa_species g). eauto 10.
  - split; [done|]. right. exists (ncbi_taxa_species g). eauto 10.
Qed.

(** The fact that the anchor loop keeps: a type-strain genome that the
    loop has passed has its species anchored at its own representative. *)
Definition anchored_at (k : string * string * string) (anchored : gmap string string) : Prop :=
  type_strain_of k.1.2 k.2 → anchored !! k.2 = Some k.1.1.

Lemma anchor_member_keeps rid anchored cid w w' anchored' :
  passes →
  anchor_member cur_genomes ncbi_species rid anchored cid w = (w', inr anchored') →
  (∀ sp, anchored_at (rid, cid, sp) anchored') ∧
  ∀ k, anchored_at k anchored → anchored_at k anchored'.
Proof.
  intros Hpass Hstep. pose proof (anchor_member_cases rid anchored cid w) as Hc.
  rewrite Hstep in Hc. destruct Hc as [_ [[-> Hno]|(sp & _ & Hcl & Hprev & ->)]].
  - split; [|done]. intros sp Hcl. destruct Hno. eauto.
  - split.
    + intros sp' Hcl'. unfold anchored_at in *. simpl in *.
      destruct Hcl as (g & Hg & _ & Hsp & _), Hcl' as (g' & Hg' & _ & Hsp' & _).
      assert (sp' = sp) as -> by congruence. apply lookup_insert_eq.
    + intros [[rid0 cid0] sp0] Hk Hcl0. specialize (Hk Hcl0). simpl in *.
      destruct (decide (sp = sp0)) as [->|Hne].
      * rewrite lookup_insert_eq. destruct Hprev; congruence.
      * by rewrite lookup_insert_ne.
Qed.

Lemma anchor_cluster_keeps anchored cluster w w' anchored' :
  passes →
  anchor_cluster cur_genomes ncbi_species anchored cluster w = (w', inr anchored') →
  (∀ cid sp, cid ∈ cluster.2 → anchored_at (cluster.1, cid, sp) anchored') ∧
  ∀ k, anchored_at k anchored → anchored_at k anchored'.
Proof.
  intros Hpass Hloop. unfold anchor_cluster in Hloop. split.
  - intros cid sp Hcid.
    apply (for_each_establish
             (λ k, anchored_at k) (λ cid, (cluster.1, cid, sp))
             _ _ (λ acc x w w' acc' _ Hb,
                    let H := anchor_member_keeps _ _ _ _ _ _ Hpass Hb in
                    conj (proj1 H sp) (proj2 H))
             _ _ _ _ Hloop cid Hcid).
  - apply (for_each_stable (λ k, anchored_at k) _ _
             (λ acc x w w' acc' _ Hb,
                proj2 (anchor_member_keeps _ _ _ _ _ _ Hpass Hb))
             _ _ _ _ Hloop).
Qed.

(** When the anchor loop completes, every type-strain genome with an NCBI
    species has its species anchored at its own representative. *)
Lemma anchor_loop_complete (cur_clusters : Clusters) w w' anchored :
  passes →
  for_each cur_clusters (anchor_cluster cur_genomes ncbi_species) ∅ w
  = (w', inr anchored) →
  ∀ rid cids cid sp,
    (rid, cids) ∈ cur_clusters → cid ∈ cids → type_strain_of cid sp →
    anchored !! sp = Some rid.
Proof.
  intros Hpass Hloop rid cids cid sp Hcl Hcid Hclaim.
  pose proof (for_each_establish
    (λ (k : string * list string) anchored,
       ∀ cid sp, cid ∈ k.2 → anchored_at (k.1, cid, sp) anchored)
    id _ _
    (λ acc x w w' acc' _ Hb,
       let H := anchor_cluster_keeps _ _ _ _ _ Hpass Hb in
       conj (proj1 H) (λ k Hk cid sp Hcid, proj2 H _ (Hk cid sp Hcid)))
    _ _ _ _ Hloop (rid, cids) Hcl cid sp Hcid) as Hat.
  by apply Hat.
Qed.

Lemma anchor_loop_exn (cur_clusters : Clusters) w :
  match for_each cur_clusters (anchor_cluster cur_genomes ncbi_species) ∅ w with
  | (w', inr _) => w' = w
  | (w', inl e) => w' = w ∧ anchor_exn e
  end.
Proof.
  assert (Hinner : ∀ cluster anchored w0,
    match anchor_cluster cur_genomes ncbi_species anchored cluster w0 with
    | (w', inr _) => w' = w0
    | (w', inl e) => w' = w0 ∧ anchor_exn e
    end).
  { intros cluster anchored w0. unfold anchor_cluster.
    apply (for_each_inv (λ _ w', w' = w0) (λ e w', w' = w0 ∧ anchor_exn e));
      [|done].
    intros acc cid w1 _ ->.
    pose proof (anchor_member_cases cluster.1 acc cid w0) as Hc.
    destruct (anchor_member _ _ _ _ _ _) as [w' [e|a]]; [done|]. by destruct Hc. }
  apply (for_each_inv (λ _ w', w' = w) (λ e w', w' = w ∧ anchor_exn e));
    [|done].
  intros acc cluster w1 _ ->. apply Hinner.
Qed.

End ClusterAnchors.

(** The forbidden-name test passes when no genome of the set carries a
    forbidden epithet. *)
Lemma passes_gather (cur_genomes : Genomes) cid g :
  (∀ gid g, (gid, g) ∈ cur_genomes →
            specific_epithet (ncbi_taxa_species g) ∉ forbidden_names) →
  genomes_lookup cur_genomes cid = Some g →
  passes (gather cur_genomes).2.
Proof.
  intros Hforb Hg. unfold passes. rewrite gather_last.
  destruct (last cur_genomes) as [[gid0 g0]|] eqn:Hlast.
  - exists (ncbi_taxa_species g0). split; [done|].
    apply (Hforb gid0). apply list_elem_of_lookup.
    exists (pred (length cur_genomes)). by rewrite <- last_lookup.
  - apply last_None in Hlast. by subst.
Qed.

(** C1 fails for the ANI method: R1 and R2 are type-strain genomes of the
    same species in two clusters, yet the method runs to the end, writes its
    report, and R2 has silently replaced R1 as the anchor (R1 is then
    flagged against R2). *)
Lemma ani_anchor_overwritten :
  let cur_genomes := [("R1", mkGenome "s__Foo bar" true true "");
                      ("R2", mkGenome "s__Foo bar" true true "")] in
  let cur_clusters := [("R1", ["R1"]); ("R2", ["R2"])] in
  let oracle := λ _ : list (string * string),
                  {[ ("R2", "R1") := (1#2, 1#2)%Q ]} : gmap (string * string) (Q * Q) in
  ncbi_type_anchored_species_ani cur_genomes cur_clusters None
  = (None, inr {[ "s__Foo bar" := "R2" ]}) ∧
  identify_misclassified_genomes_ani (95#100) oracle (λ fwd _, fwd)
    cur_genomes cur_clusters None
  = (Some [header_ani;
           [FStr "R1"; FStr "s__Foo bar"; FStr "R1"; FStr "R2";
            FFixed 2 (1#2); FFixed 3 (1#2)]],
     inr {[ "R1" ]}).
Proof. split; by vm_compute. Qed.

(** C1, amended.  Two type-strain genomes with the same NCBI species (not
    [s__]) that are clustered under different representatives stop the
    clustering method before the report is opened: with [sys.exit(-1)], or
    earlier with the [KeyError] of a clustered genome that is missing from
    the genome set.  The genome set is taken to hold no forbidden epithet. *)
Theorem cluster_anchor_conflict_aborts (cur_genomes : Genomes)
    (cur_clusters : Clusters) (w : report)
    (rid1 rid2 cid1 cid2 sp : string) (cids1 cids2 : list string) :
  (∀ gid g, (gid, g) ∈ cur_genomes →
            specific_epithet (ncbi_taxa_species g) ∉ forbidden_names) →
  (rid1, cids1) ∈ cur_clusters → cid1 ∈ cids1 →
  type_strain_of cur_genomes cid1 sp →
  (rid2, cids2) ∈ cur_clusters → cid2 ∈ cids2 →
  type_strain_of cur_genomes cid2 sp →
  rid1 ≠ rid2 →
  ∃ e, identify_misclassified_genomes_cluster cur_genomes cur_clusters w
       = (w, inl e) ∧
       (e = SysExit (-1) ∨
        ∃ cid, e = KeyError cid ∧ genomes_lookup cur_genomes cid = None).
Proof.
  intros Hforb Hc1 Hin1 Ht1 Hc2 Hin2 Ht2 Hne.
  assert (Hpass : passes (gather cur_genomes).2).
  { destruct Ht1 as (g & Hg & _). by eapply passes_gather. }
  unfold identify_misclassified_genomes_cluster, ncbi_type_anchored_species_cluster.
  pose proof (anchor_loop_exn cur_genomes (gather cur_genomes).2 cur_clusters w) as Hexn.
  destruct (for_each cur_clusters _ ∅ w) as [w' [e|anchored]] eqn:Hloop.
  - destruct Hexn as [-> Hexn]. exists e. split; [by erewrite bind_err|].
    destruct Hexn as [?|[[_ Hnone]|?]]; [by right| |by left].
    destruct Hpass as (? & ? & _). congruence.
  - pose proof (anchor_loop_complete _ _ _ _ _ _ Hpass Hloop _ _ _ _ Hc1 Hin1 Ht1).
    pose proof (anchor_loop_complete _ _ _ _ _ _ Hpass Hloop _ _ _ _ Hc2 Hin2 Ht2).
    congruence.
Qed.

Lemma cluster_anchor_conflict_aborts_witness :
  ∃ e, identify_misclassified_genomes_cluster
         [("R1", mkGenome "s__Foo bar" true true "");
          ("G2", mkGenome "s__Foo bar" true true "")]
         [("R1", ["R1"]); ("R2", ["G2"])] None
       = (None, inl e) ∧
       (e = SysExit (-1) ∨
        ∃ cid, e = KeyError cid ∧
               genomes_lookup [("R1", mkGenome "s__Foo bar" true true "");
                               ("G2", mkGenome "s__Foo bar" true true "")] cid = None).
Proof.
  apply (cluster_anchor_conflict_aborts
           [("R1", mkGenome "s__Foo bar" true true "");
            ("G2", mkGenome "s__Foo bar" true true "")]
           [("R1", ["R1"]); ("R2", ["G2"])] None
           "R1" "R2" "R1" "G2" "s__Foo bar" ["R1"] ["G2"]).
  - intros gid g Hin.
    repeat (apply elem_of_cons in Hin as [[= -> ->]|Hin]); [by vm_compute..|].
    by apply elem_of_nil in Hin.
  - left.
  - left.
  - eexists. repeat split; [reflexivity..|done].
  - right. left.
  - left.
  - eexists. repeat split; [reflexivity..|done].
  - done.
Defined.

(** Where the last genome of the set carries a forbidden epithet, line 187
    makes the test of line 188 fail for every anchor: the same conflict
    goes unnoticed and nothing is anchored. *)
Example conflict_hidden_by_last_genome :
  identify_misclassified_genomes_cluster
    [("R1", mkGenome "s__Foo bar" true true "");
     ("G2", mkGenome "s__Foo bar" true true "");
     ("G9", mkGenome "s__Baz cyanobacterium" false false "")]
    [("R1", ["R1"]); ("R2", ["G2"; "G9"])] None
  = (Some [header_cluster], inr ∅).
Proof. by vm_compute. Qed.

(** ** The detection loops *)

Section Detection.

Variable index anchored : gmap string string.
Variable groups : list (string * list string).

(** [gid] is a candidate mismatch: a candidate of the species [sp],
    anchored at [type_rid], that the index puts under another
    representative [cur_rid]. *)
Definition mismatch (gid sp cur_rid type_rid : string) : Prop :=
  grouped groups sp gid ∧ anchored !! sp = Some type_rid ∧
  index !! gid = Some cur_rid ∧ cur_rid ≠ type_rid.

(** The only exception of the clustering loop: a candidate that the index
    does not know. *)
Definition unindexed (e : exn) : Prop :=
  ∃ gid, e = KeyError gid ∧ index !! gid = None.

Definition cluster_line (l : line) : Prop :=
  l = header_cluster ∨
  ∃ gid sp cur_rid type_rid,
    l = [FStr gid; FStr sp; FStr cur_rid; FStr type_rid; FStr ""] ∧
    mismatch gid sp cur_rid type_rid.

Lemma flag_member_cases sp type_rid s gid w :
  match flag_member index sp type_rid s gid w with
  | (w', inr s') =>
      ∃ cur_rid, index !! gid = Some cur_rid ∧
        ((cur_rid = type_rid ∧ s' = s ∧ w' = w) ∨
         (cur_rid ≠ type_rid ∧ s' = {[gid]} ∪ s ∧
          w' = (fwrite [FStr gid; FStr sp; FStr cur_rid; FStr type_rid; FStr ""] w).1))
  | (w', inl e) => w' = w ∧ e = KeyError gid ∧ index !! gid = None
  end.
Proof.
  unfold flag_member, bind, getitem, ret, raise.
  destruct (index !! gid) as [cur_rid|]; [|done].
  destruct (String.eqb_spec type_rid cur_rid) as [->|Hne]; simpl.
  - exists cur_rid. auto.
  - exists cur_rid. split; [done|]. right. auto.
Qed.

Lemma flag_species_inv s group w :
  group ∈ groups →
  (∀ gid, gid ∈ s → ∃ sp cur_rid type_rid, mismatch gid sp cur_rid type_rid) →
  lines_sat cluster_line w →
  match flag_species index anchored s group w with
  | (w', inr s') =>
      (∀ gid, gid ∈ s' → ∃ sp cur_rid type_rid, mismatch gid sp cur_rid type_rid) ∧
      lines_sat cluster_line w'
  | (w', inl e) => lines_sat cluster_line w' ∧ unindexed e
  end.
Proof.
  intros Hgroup Hs Hw. unfold flag_species.
  destruct (anchored !! group.1) as [type_rid|] eqn:Hanchor; [|done].
  apply (for_each_inv
           (λ s' w', (∀ gid, gid ∈ s' → ∃ sp cur_rid type_rid,
                        mismatch gid sp cur_rid type_rid) ∧
                     lines_sat cluster_line w')
           (λ e w', lines_sat cluster_line w' ∧ unindexed e)); [|done].
  intros s1 gid w1 Hgid [Hs1 Hw1].
  pose proof (flag_member_cases group.1 type_rid s1 gid w1) as Hc.
  destruct (flag_member _ _ _ _ _ _) as [w' [e|s']].
  - destruct Hc as (-> & -> & ?). split; [done|]. by exists gid.
  - destruct Hc as (cur_rid & Hcur & [(_ & -> & ->)|(Hne & -> & ->)]); [done|].
    assert (mismatch gid group.1 cur_rid type_rid) as Hmis.
    { split; [|done]. exists group.2. by destruct group. }
    split.
    + intros gid' [->%elem_of_singleton|?]%elem_of_union; eauto.
    + apply lines_sat_fwrite; [done|]. right. eauto 10.
Qed.

(** A completed pass over a species flags all its candidate mismatches and
    unflags nothing. *)
Lemma flag_species_flags s group w w' s' :
  flag_species index anchored s group w = (w', inr s') →
  s ⊆ s' ∧
  ∀ type_rid gid cur_rid,
    anchored !! group.1 = Some type_rid → gid ∈ group.2 →
    index !! gid = Some cur_rid → cur_rid ≠ type_rid → gid ∈ s'.
Proof.
  unfold flag_species.
  destruct (anchored !! group.1) as [type_rid|] eqn:Hanchor.
  2:{ intros [= <- <-]. done. }
  intros Hloop.
  assert (Hstep : ∀ acc gid w0 w1 acc',
    flag_member index group.1 type_rid acc gid w0 = (w1, inr acc') →
    acc ⊆ acc' ∧ ∀ cur_rid, index !! gid = Some cur_rid → cur_rid ≠ type_rid →
                            gid ∈ acc').
  { intros acc gid w0 w1 acc' Hb.
    pose proof (flag_member_cases group.1 type_rid acc gid w0) as Hc.
    rewrite Hb in Hc.
    destruct Hc as (cur_rid & Hcur & [(-> & -> & _)|(Hne & -> & _)]).
    - split; [done|]. congruence.
    - split; [set_solver|]. intros _ _ _. set_solver. }
  split.
  - eapply (for_each_stable (λ (k : gset string) acc, k ⊆ acc));
      [|exact Hloop|done].
    intros acc x w0 w1 acc' _ Hb k Hk.
    transitivity acc; [done | exact (proj1 (Hstep _ _ _ _ _ Hb))].
  - intros ? gid cur_rid [= <-] Hgid Hcur Hne.
    pose proof (for_each_establish
      (λ (k : string) acc, ∀ cur_rid, index !! k = Some cur_rid →
                                      cur_rid ≠ type_rid → k ∈ acc)
      id _ _
      (λ acc x w0 w1 acc' _ Hb,
         conj (proj2 (Hstep _ _ _ _ _ Hb))
              (λ k Hk c Hc Hn, proj1 (Hstep _ _ _ _ _ Hb) _ (Hk c Hc Hn)))
      _ _ _ _ Hloop gid Hgid) as Hest.
    by eapply Hest.
Qed.

Lemma flag_loop_flags s w w' s' :
  for_each groups (flag_species index anchored) s w = (w', inr s') →
  ∀ gid sp cur_rid type_rid, mismatch gid sp cur_rid type_rid → gid ∈ s'.
Proof.
  intros Hloop gid sp cur_rid type_rid ((gids & Hgroup & Hgid) & Hanchor & Hcur & Hne).
  pose proof (for_each_establish
    (λ (k : string * list string) acc,
       ∀ type_rid gid cur_rid,
         anchored !! k.1 = Some type_rid → gid ∈ k.2 →
         index !! gid = Some cur_rid → cur_rid ≠ type_rid → gid ∈ acc)
    id _ _
    (λ acc x w0 w1 acc' _ Hb,
       conj (proj2 (flag_species_flags _ _ _ _ _ Hb))
            (λ k Hk t g c Ha Hg Hc Hn,
               proj1 (flag_species_flags _ _ _ _ _ Hb) _ (Hk t g c Ha Hg Hc Hn)))
    _ _ _ _ Hloop (sp, gids) Hgroup) as Hest.
  by eapply Hest.
Qed.

Lemma flag_loop_inv w :
  lines_sat cluster_line w →
  match for_each groups (flag_species index anchored) ∅ w with
  | (w', inr s') =>
      (∀ gid, gid ∈ s' → ∃ sp cur_rid type_rid, mismatch gid sp cur_rid type_rid) ∧
      lines_sat cluster_line w'
  | (w', inl e) => lines_sat cluster_line w' ∧ unindexed e
  end.
Proof.
  intros Hw.
  apply (for_each_inv
           (λ s' w', (∀ gid, gid ∈ s' → ∃ sp cur_rid type_rid,
                        mismatch gid sp cur_rid type_rid) ∧
                     lines_sat cluster_line w')
           (λ e w', lines_sat cluster_line w' ∧ unindexed e)).
  - intros s group w1 Hgroup [Hs Hw1]. by apply flag_species_inv.
  - split; [|done]. intros gid Hgid. by apply not_elem_of_empty in Hgid.
Qed.

(** A candidate of an anchored species that the index does not know stops
    the pass over its species. *)
Lemma flag_species_raises group type_rid gid :
  anchored !! group.1 = Some type_rid → gid ∈ group.2 → index !! gid = None →
  ∀ s w, ∃ w' e, flag_species index anchored s group w = (w', inl e).
Proof.
  intros Hanchor Hgid Hnone s w. unfold flag_species. rewrite Hanchor.
  apply (for_each_raises _ _ gid Hgid). intros acc w0.
  pose proof (flag_member_cases group.1 type_rid acc gid w0) as Hc.
  destruct (flag_member _ _ _ _ _ _) as [w' [e|s']]; [by eauto|].
  destruct Hc as (? & ? & _). congruence.
Qed.

End Detection.

Section DetectionANI.

Variable ani_ncbi_erroneous : Q.
Variable fastani_pairs : list (string * string) → gmap (string * string) (Q * Q).
Variable both : Q * Q → Q * Q → Q * Q.
Variable index anchored : gmap string string.
Variable groups : list (string * list string).

(** The oracle left out both orderings of the pair. *)
Definition omitted (ani_af : gmap (string * string) (Q * Q)) (gid1 gid2 : string) : Prop :=
  ani_af !! (gid1, gid2) = None ∧ ani_af !! (gid2, gid1) = None.

(** Some batch that asked for the pair got a score for it. *)
Definition resolved (type_rid gid : string) : Prop :=
  ∃ pairs, (type_rid, gid) ∈ pairs ∧ ¬ omitted (fastani_pairs pairs) type_rid gid.

Definition ani_line (l : line) : Prop :=
  l = header_ani ∨
  ∃ gid sp cur_rid type_rid ani af,
    l = [FStr gid; FStr sp; FStr cur_rid; FStr type_rid; FFixed 2 ani; FFixed 3 af] ∧
    mismatch index anchored groups gid sp cur_rid type_rid ∧
    resolved type_rid gid.

Definition flagged_ani (gid : string) : Prop :=
  ∃ sp cur_rid type_rid,
    mismatch index anchored groups gid sp cur_rid type_rid ∧ resolved type_rid gid.

(** The exceptions of the ANI loop: a candidate that the index does not
    know, or a pair without a score. *)
Definition ani_exn (e : exn) : Prop :=
  unindexed index e ∨ ∃ pair, e = PairKeyError pair.

Lemma symmetric_ani_cases ani_af gid1 gid2 w :
  match symmetric_ani both ani_af gid1 gid2 w with
  | (w', inr _) => w' = w ∧ ¬ omitted ani_af gid1 gid2
  | (w', inl e) => w' = w ∧ e = PairKeyError (gid1, gid2) ∧ omitted ani_af gid1 gid2
  end.
Proof.
  unfold symmetric_ani, omitted, ret, raise.
  destruct (ani_af !! (gid1, gid2)), (ani_af !! (gid2, gid1));
    try (split; [done|]; by intros [? ?]). done.
Qed.

(** The first inner loop (lines 112-118) in closed form. *)
Lemma check_loop_cases type_rid gids :
  ∀ gids_to_check w,
    match for_each gids (check_member index type_rid) gids_to_check w with
    | (w', inr l) =>
        w' = w ∧
        l = gids_to_check ++ filter (λ gid, index !! gid ≠ Some type_rid) gids ∧
        ∀ gid, gid ∈ gids → is_Some (index !! gid)
    | (w', inl e) =>
        w' = w ∧ ∃ gid, gid ∈ gids ∧ e = KeyError gid ∧ index !! gid = None
    end.
Proof.
  induction gids as [|gid gids IH]; intros l0 w; simpl.
  - split; [done|]. split; [by rewrite app_nil_r|]. by intros ? ?%elem_of_nil.
  - unfold bind, check_member at 1, getitem, ret, raise.
    destruct (index !! gid) as [cur_rid|] eqn:Hcur.
    2:{ split; [done|]. exists gid. split; [left | done]. }
    unfold bind. simpl.
    destruct (String.eqb_spec type_rid cur_rid) as [->|Hne]; simpl.
    + specialize (IH l0 w).
      destruct (for_each gids _ l0 w) as [w' [e|l]].
      * destruct IH as (-> & gid' & ? & ? & ?). split; [done|].
        exists gid'. split; [by right | done].
      * destruct IH as (-> & -> & Hall). split; [done|]. split.
        -- rewrite filter_cons_False; [done|]. intros Hn. by apply Hn.
        -- intros gid' [->|?]%elem_of_cons; [by eexists | auto].
    + specialize (IH (l0 ++ [gid]) w).
      destruct (for_each gids _ (l0 ++ [gid]) w) as [w' [e|l]].
      * destruct IH as (-> & gid' & ? & ? & ?). split; [done|].
        exists gid'. split; [by right | done].
      * destruct IH as (-> & -> & Hall). split; [done|]. split.
        -- rewrite filter_cons_True by congruence. by rewrite <- app_assoc.
        -- intros gid' [->|?]%elem_of_cons; [by eexists | auto].
Qed.

Lemma gid_pairs_elem type_rid gids gid :
  gid ∈ gids → (type_rid, gid) ∈ gid_pairs type_rid gids.
Proof.
  intros Hgid. unfold gid_pairs. apply list_elem_of_In, in_flat_map.
  exists gid. split; [by apply list_elem_of_In | by left].
Qed.

Lemma score_member_cases ani_af sp type_rid s gid w :
  match score_member ani_ncbi_erroneous both index ani_af sp type_rid s gid w with
  | (w', inr s') =>
      ¬ omitted ani_af type_rid gid ∧
      ((s' = s ∧ w' = w) ∨
       (∃ cur_rid ani af,
          index !! gid = Some cur_rid ∧ s' = {[gid]} ∪ s ∧
          w' = (fwrite [FStr gid; FStr sp; FStr cur_rid; FStr type_rid;
                        FFixed 2 ani; FFixed 3 af] w).1))
  | (w', inl e) =>
      w' = w ∧
      ((e = PairKeyError (type_rid, gid) ∧ omitted ani_af type_rid gid) ∨
       (e = KeyError gid ∧ index !! gid = None))
  end.
Proof.
  unfold score_member, bind.
  pose proof (symmetric_ani_cases ani_af type_rid gid w) as Hsym.
  destruct (symmetric_ani both ani_af type_rid gid w) as [w1 [e|scores]].
  - destruct Hsym as (-> & -> & ?). auto.
  - destruct Hsym as [-> Hres].
    destruct (float_lt scores.1 ani_ncbi_erroneous); [|unfold ret; auto].
    unfold getitem, ret, raise.
    destruct (index !! gid) as [cur_rid|]; [|auto].
    split; [done|]. right. exists cur_rid, scores.1, scores.2. done.
Qed.

Lemma score_species_inv s group w :
  group ∈ groups →
  (∀ gid, gid ∈ s → flagged_ani gid) →
  lines_sat ani_line w →
  match score_species ani_ncbi_erroneous fastani_pairs both index anchored s group w with
  | (w', inr s') => (∀ gid, gid ∈ s' → flagged_ani gid) ∧ lines_sat ani_line w'
  | (w', inl e) => lines_sat ani_line w' ∧ ani_exn e
  end.
Proof.
  intros Hgroup Hs Hw. unfold score_species.
  destruct (anchored !! group.1) as [type_rid|] eqn:Hanchor; [|done].
  unfold bind.
  pose proof (check_loop_cases type_rid group.2 [] w) as Hcheck.
  destruct (for_each group.2 _ [] w) as [w1 [e|gids_to_check]].
  { destruct Hcheck as (-> & gid & _ & -> & ?). split; [done|]. left. by exists gid. }
  destruct Hcheck as (-> & -> & Hall). simpl.
  destruct (0 <? _); [|done].
  set (gids_to_check := filter _ group.2).
  apply (for_each_inv
           (λ s' w', (∀ gid, gid ∈ s' → flagged_ani gid) ∧ lines_sat ani_line w')
           (λ e w', lines_sat ani_line w' ∧ ani_exn e)); [|done].
  intros s1 gid w1 Hgid [Hs1 Hw1].
  pose proof (score_member_cases (fastani_pairs (gid_pairs type_rid gids_to_check))
                group.1 type_rid s1 gid w1) as Hc.
  destruct (score_member _ _ _ _ _ _ _ _ _) as [w' [e|s']].
  - destruct Hc as (-> & [[-> _]|[-> ?]]); (split; [done|]).
    + right. by eexists.
    + left. by exists gid.
  - destruct Hc as (Hres & [[-> ->]|(cur_rid & ani & af & Hcur & -> & ->)]); [done|].
    pose proof (gid_pairs_elem type_rid _ _ Hgid) as Hpair.
    apply list_elem_of_filter in Hgid as [Hne Hgid].
    assert (mismatch index anchored groups gid group.1 cur_rid type_rid) as Hmis.
    { split; [|split; [done|split; [done|congruence]]].
      exists group.2. by destruct group. }
    assert (resolved type_rid gid) as Hresolved by (eexists; eauto).
    split.
    + intros gid' [->%elem_of_singleton|?]%elem_of_union; [|by auto].
      exists group.1, cur_rid, type_rid. done.
    + apply lines_sat_fwrite; [done|]. right. eauto 12.
Qed.

Lemma score_loop_inv w :
  lines_sat ani_line w →
  match for_each groups
          (score_species ani_ncbi_erroneous fastani_pairs both index anchored) ∅ w with
  | (w', inr s') => (∀ gid, gid ∈ s' → flagged_ani gid) ∧ lines_sat ani_line w'
  | (w', inl e) => lines_sat ani_line w' ∧ ani_exn e
  end.
Proof.
  intros Hw.
  apply (for_each_inv
           (λ s' w', (∀ gid, gid ∈ s' → flagged_ani gid) ∧ lines_sat ani_line w')
           (λ e w', lines_sat ani_line w' ∧ ani_exn e)).
  - intros s group w1 Hgroup [Hs Hw1]. by apply score_species_inv.
  - split; [|done]. intros gid Hgid. by apply not_elem_of_empty in Hgid.
Qed.

(** The pass over an anchored species raises when one of its candidates is
    unknown to the index, or is a candidate mismatch whose pair the oracle
    leaves out whenever it is asked for. *)
Lemma score_species_raises group type_rid gid :
  anchored !! group.1 = Some type_rid → gid ∈ group.2 →
  index !! gid = None ∨
  (index !! gid ≠ Some type_rid ∧
   ∀ pairs, (type_rid, gid) ∈ pairs → omitted (fastani_pairs pairs) type_rid gid) →
  ∀ s w, ∃ w' e,
    score_species ani_ncbi_erroneous fastani_pairs both index anchored s group w
    = (w', inl e).
Proof.
  intros Hanchor Hgid Hcase s w. unfold score_species. rewrite Hanchor. unfold bind.
  pose proof (check_loop_cases type_rid group.2 [] w) as Hcheck.
  destruct (for_each group.2 _ [] w) as [w1 [e|gids_to_check]]; [by eauto|].
  destruct Hcheck as (-> & -> & Hall). simpl.
  destruct Hcase as [Hnone|[Hne Homit]].
  { destruct (Hall gid Hgid) as [? ?]. congruence. }
  set (gids_to_check := filter _ group.2).
  assert (gid ∈ gids_to_check) as Hcheck by (by apply list_elem_of_filter).
  destruct gids_to_check as [|gid0 rest] eqn:Heq; [by apply elem_of_nil in Hcheck|].
  rewrite <- Heq in *. replace (0 <? _) with true by (rewrite Heq; done).
  apply (for_each_raises _ _ gid Hcheck). intros acc w0.
  pose proof (score_member_cases (fastani_pairs (gid_pairs type_rid gids_to_check))
                group.1 type_rid acc gid w0) as Hc.
  destruct (score_member _ _ _ _ _ _ _ _ _) as [w' [e|s']]; [by eauto|].
  destruct Hc as [Hres _]. destruct Hres. apply Homit. by apply gid_pairs_elem.
Qed.

End DetectionANI.

(** ** Anchors of the ANI method *)

Lemma anchor_rep_cases (cur_genomes : Genomes) anchored (cluster : string * list string) w :
  match anchor_rep cur_genomes anchored cluster w with
  | (w', inr anchored') =>
      w' = w ∧
      (anchored' = anchored ∨
       ∃ sp, type_strain_of cur_genomes cluster.1 sp ∧
             anchored' = <[sp := cluster.1]> anchored)
  | (w', inl e) =>
      w' = w ∧ e = KeyError cluster.1 ∧ genomes_lookup cur_genomes cluster.1 = None
  end.
Proof.
  unfold anchor_rep, bind, getitem, ret, raise, type_strain_of.
  destruct (genomes_lookup cur_genomes cluster.1) as [g|]; [|done].
  destruct (is_effective_type_strain g) eqn:Hts; [|auto].
  destruct (String.eqb_spec (ncbi_taxa_species g) "s__"); simpl; [auto|].
  split; [done|]. right. exists (ncbi_taxa_species g). eauto 10.
Qed.

(** The anchors of the ANI method are type-strain representatives; the
    loop raises only for a representative missing from the genome set. *)
Lemma ani_anchors_inv (cur_genomes : Genomes) (cur_clusters : Clusters) w :
  match ncbi_type_anchored_species_ani cur_genomes cur_clusters w with
  | (w', inr anchored) =>
      w' = w ∧
      ∀ sp rid, anchored !! sp = Some rid →
        (∃ cids, (rid, cids) ∈ cur_clusters) ∧ type_strain_of cur_genomes rid sp
  | (w', inl e) =>
      w' = w ∧ ∃ rid, e = KeyError rid ∧ genomes_lookup cur_genomes rid = None
  end.
Proof.
  unfold ncbi_type_anchored_species_ani.
  apply (for_each_inv
    (λ anchored w', w' = w ∧
       ∀ sp rid, anchored !! sp = Some rid →
         (∃ cids, (rid, cids) ∈ cur_clusters) ∧ type_strain_of cur_genomes rid sp)
    (λ e w', w' = w ∧ ∃ rid, e = KeyError rid ∧ genomes_lookup cur_genomes rid = None));
    [|done].
  intros anchored cluster w0 Hcl [-> Hinv].
  pose proof (anchor_rep_cases cur_genomes anchored cluster w) as Hc.
  destruct (anchor_rep _ _ _ _) as [w' [e|anchored']].
  - destruct Hc as (-> & -> & ?). eauto.
  - destruct Hc as (-> & [->|(sp & Hts & ->)]); [done|]. split; [done|].
    intros sp' rid. destruct (decide (sp = sp')) as [->|Hne].
    + rewrite lookup_insert_eq. intros [= <-]. split; [|done].
      exists cluster.2. by destruct cluster.
    + rewrite lookup_insert_ne by done. apply Hinv.
Qed.

(** ** The two methods as a whole *)

Section Methods.

Variable ani_ncbi_erroneous : Q.
Variable fastani_pairs : list (string * string) → gmap (string * string) (Q * Q).
Variable both : Q * Q → Q * Q → Q * Q.
Variable cur_genomes : Genomes.
Variable cur_clusters : Clusters.

Lemma ani_method_inv w :
  match identify_misclassified_genomes_ani ani_ncbi_erroneous fastani_pairs both
          cur_genomes cur_clusters w with
  | (w', inr s) =>
      ∃ anchored,
        ncbi_type_anchored_species_ani cur_genomes cur_clusters w = (w, inr anchored) ∧
        (∀ gid, gid ∈ s →
           flagged_ani fastani_pairs (gid_to_rid cur_clusters) anchored
                       (ncbi_sp_gids cur_genomes) gid) ∧
        lines_sat (ani_line fastani_pairs (gid_to_rid cur_clusters) anchored
                            (ncbi_sp_gids cur_genomes)) w'
  | (w', inl e) =>
      (w' = w ∧ ∃ rid, e = KeyError rid ∧ genomes_lookup cur_genomes rid = None) ∨
      ∃ anchored,
        ncbi_type_anchored_species_ani cur_genomes cur_clusters w = (w, inr anchored) ∧
        lines_sat (ani_line fastani_pairs (gid_to_rid cur_clusters) anchored
                            (ncbi_sp_gids cur_genomes)) w' ∧
        ani_exn (gid_to_rid cur_clusters) e
  end.
Proof.
  unfold identify_misclassified_genomes_ani.
  pose proof (ani_anchors_inv cur_genomes cur_clusters w) as Ha.
  destruct (ncbi_type_anchored_species_ani cur_genomes cur_clusters w)
    as [w0 [e|anchored]] eqn:Hanchors.
  - destruct Ha as [-> Ha]. erewrite bind_err by done. by left.
  - destruct Ha as [-> _]. erewrite bind_ok by done.
    unfold bind at 1 2, fopen, fwrite. simpl.
    pose proof (score_loop_inv ani_ncbi_erroneous fastani_pairs both
                  (gid_to_rid cur_clusters) anchored (ncbi_sp_gids cur_genomes)
                  (Some [header_ani])) as Hloop.
    destruct (for_each _ _ ∅ (Some [header_ani])) as [w' [e|s]].
    + right. exists anchored. split; [done|]. apply Hloop.
      intros ls l [= <-] ->%list_elem_of_singleton. by left.
    + exists anchored. split; [done|]. apply Hloop.
      intros ls l [= <-] ->%list_elem_of_singleton. by left.
Qed.

Lemma cluster_method_inv w :
  match identify_misclassified_genomes_cluster cur_genomes cur_clusters w with
  | (w', inr s) =>
      ∃ anchored,
        ncbi_type_anchored_species_cluster cur_genomes cur_clusters w
        = (w, inr anchored) ∧
        (∀ gid, gid ∈ s ↔
           ∃ sp cur_rid type_rid,
             mismatch (gid_to_rid cur_clusters) anchored (ncbi_sp_gids cur_genomes)
                      gid sp cur_rid type_rid) ∧
        lines_sat (cluster_line (gid_to_rid cur_clusters) anchored
                                (ncbi_sp_gids cur_genomes)) w'
  | (w', inl e) =>
      (w' = w ∧ anchor_exn cur_genomes (gather cur_genomes).2 e) ∨
      ∃ anchored,
        ncbi_type_anchored_species_cluster cur_genomes cur_clusters w
        = (w, inr anchored) ∧
        lines_sat (cluster_line (gid_to_rid cur_clusters) anchored
                                (ncbi_sp_gids cur_genomes)) w' ∧
        unindexed (gid_to_rid cur_clusters) e
  end.
Proof.
  unfold identify_misclassified_genomes_cluster.
  pose proof (anchor_loop_exn cur_genomes (gather cur_genomes).2 cur_clusters w) as Ha.
  fold (ncbi_type_anchored_species_cluster cur_genomes cur_clusters) in Ha.
  destruct (ncbi_type_anchored_species_cluster cur_genomes cur_clusters w)
    as [w0 [e|anchored]] eqn:Hanchors.
  - destruct Ha as [-> Ha]. erewrite bind_err by done. by left.
  - subst w0. erewrite bind_ok by done.
    unfold bind at 1 2, fopen, fwrite. simpl.
    pose proof (flag_loop_inv (gid_to_rid cur_clusters) anchored
                  (ncbi_sp_gids cur_genomes) (Some [header_cluster])) as Hloop.
    destruct (for_each _ _ ∅ (Some [header_cluster])) as [w' [e|s]] eqn:Hrun.
    + right. exists anchored. split; [done|]. apply Hloop.
      intros ls l [= <-] ->%list_elem_of_singleton. by left.
    + exists anchored. split; [done|].
      destruct Hloop as [Hs Hw].
      { intros ls l [= <-] ->%list_elem_of_singleton. by left. }
      split; [|done]. intros gid. split; [apply Hs|].
      intros (sp & cur_rid & type_rid & Hmis).
      by eapply flag_loop_flags.
Qed.

(** A pass that must raise at some species makes the method raise. *)
Lemma ani_method_raises w anchored group :
  ncbi_type_anchored_species_ani cur_genomes cur_clusters w = (w, inr anchored) →
  group ∈ ncbi_sp_gids cur_genomes →
  (∀ s w0, ∃ w' e,
     score_species ani_ncbi_erroneous fastani_pairs both
       (gid_to_rid cur_clusters) anchored s group w0 = (w', inl e)) →
  ∃ w' e, identify_misclassified_genomes_ani ani_ncbi_erroneous fastani_pairs both
            cur_genomes cur_clusters w = (w', inl e).
Proof.
  intros Hanchors Hgroup Hraise. unfold identify_misclassified_genomes_ani.
  erewrite bind_ok by done. unfold bind at 1 2, fopen, fwrite. simpl.
  by apply (for_each_raises _ _ group).
Qed.

Lemma cluster_method_raises w anchored group :
  ncbi_type_anchored_species_cluster cur_genomes cur_clusters w = (w, inr anchored) →
  group ∈ ncbi_sp_gids cur_genomes →
  (∀ s w0, ∃ w' e,
     flag_species (gid_to_rid cur_clusters) anchored s group w0 = (w', inl e)) →
  ∃ w' e, identify_misclassified_genomes_cluster cur_genomes cur_clusters w
          = (w', inl e).
Proof.
  intros Hanchors Hgroup Hraise. unfold identify_misclassified_genomes_cluster.
  erewrite bind_ok by done. unfold bind at 1 2, fopen, fwrite. simpl.
  by apply (for_each_raises _ _ group).
Qed.

End Methods.

(** ** Outcomes of a method *)

(** The line [l] is a row (not the header [hdr]) about the genome [gid]. *)
Definition names (hdr : line) (gid : string) (l : line) : Prop :=
  l ≠ hdr ∧ l !! 0%nat = Some (FStr gid).

(** [gid] is in the returned set of flagged genomes. *)
Definition flagged_by (gid : string) (r : report * (exn + gset string)) : Prop :=
  ∃ s, r.2 = inr s ∧ gid ∈ s.

(** [gid] is neither in the returned set nor in a row of the report. *)
Definition not_flagged (hdr : line) (gid : string)
    (r : report * (exn + gset string)) : Prop :=
  ¬ flagged_by gid r ∧ lines_sat (λ l, ¬ names hdr gid l) r.1.

Lemma grouped_species (cur_genomes : Genomes) gid g sp :
  NoDup cur_genomes.*1 → (gid, g) ∈ cur_genomes →
  grouped (ncbi_sp_gids cur_genomes) sp gid →
  ncbi_taxa_species g = sp ∧ candidate g.
Proof.
  intros Hnd Hg (g' & Hg' & Hsp & Hcand)%ncbi_sp_gids_grouped.
  apply (genomes_lookup_NoDup _ _ _ Hnd) in Hg, Hg'.
  assert (g' = g) as -> by congruence. done.
Qed.

(** ** Forbidden names *)

(** C4 fails for the anchors of the ANI method, which are not filtered by
    the forbidden names: the species of a type-strain representative
    becomes an anchor key even with the epithet cyanobacterium. *)
Lemma forbidden_name_anchored :
  specific_epithet "s__Foo cyanobacterium" ∈ forbidden_names ∧
  ncbi_type_anchored_species_ani
    [("T", mkGenome "s__Foo cyanobacterium" true true "")] [("T", ["T"])] None
  = (None, inr {[ "s__Foo cyanobacterium" := "T" ]}).
Proof. split; by vm_compute. Qed.

(** In the clustering method the test of line 188 is made on the species
    of the last genome of the set (line 187), so a forbidden name is
    anchored whenever that genome has another epithet. *)
Example forbidden_name_anchored_cluster :
  ncbi_type_anchored_species_cluster
    [("T", mkGenome "s__Foo cyanobacterium" true true "");
     ("Z", mkGenome "s__Foo bar" false false "")]
    [("T", ["T"; "Z"])] None
  = (None, inr {[ "s__Foo cyanobacterium" := "T" ]}).
Proof. by vm_compute. Qed.

Section Forbidden.

Variable ani_ncbi_erroneous : Q.
Variable fastani_pairs : list (string * string) → gmap (string * string) (Q * Q).
Variable both : Q * Q → Q * Q → Q * Q.

(** C4, amended.  A genome whose NCBI epithet is forbidden is in no
    candidate group, and so is neither in the returned set nor in a report
    row of either method.  (The anchors of the ANI method are not filtered:
    see [forbidden_name_anchored].) *)
Theorem forbidden_never_flagged (cur_genomes : Genomes) (cur_clusters : Clusters)
    (gid : string) (g : Genome) :
  NoDup cur_genomes.*1 →
  (gid, g) ∈ cur_genomes →
  specific_epithet (ncbi_taxa_species g) ∈ forbidden_names →
  (∀ sp, ¬ grouped (ncbi_sp_gids cur_genomes) sp gid) ∧
  not_flagged header_ani gid
    (identify_misclassified_genomes_ani ani_ncbi_erroneous fastani_pairs both
       cur_genomes cur_clusters None) ∧
  not_flagged header_cluster gid
    (identify_misclassified_genomes_cluster cur_genomes cur_clusters None).
Proof.
  intros Hnd Hg Hforb.
  assert (Hgrouped : ∀ sp, ¬ grouped (ncbi_sp_gids cur_genomes) sp gid).
  { intros sp Hgr. destruct (grouped_species _ _ _ _ Hnd Hg Hgr) as [_ [_ Hok]]. done. }
  split; [done|]. split.
  - pose proof (ani_method_inv ani_ncbi_erroneous fastani_pairs both
                  cur_genomes cur_clusters None) as Hinv.
    destruct (identify_misclassified_genomes_ani _ _ _ _ _ _) as [w' [e|s]].
    + split; [by intros (s & [=] & _)|].
      destruct Hinv as [[-> _]|(anchored & _ & Hlines & _)]; [done|].
      intros ls l Hw Hl [Hhdr Hfirst].
      destruct (Hlines ls l Hw Hl) as [->|(gid' & sp & c & r & ani & af & -> & Hmis & _)];
        [done|].
      injection Hfirst as ->. destruct Hmis as [Hgr _]. by eapply Hgrouped.
    + destruct Hinv as (anchored & _ & Hs & Hlines). split.
      * intros (s' & [= <-] & Hin).
        destruct (Hs _ Hin) as (sp & c & r & [Hgr _] & _). by eapply Hgrouped.
      * intros ls l Hw Hl [Hhdr Hfirst].
        destruct (Hlines ls l Hw Hl) as [->|(gid' & sp & c & r & ani & af & -> & Hmis & _)];
          [done|].
        injection Hfirst as ->. destruct Hmis as [Hgr _]. by eapply Hgrouped.
  - pose proof (cluster_method_inv cur_genomes cur_clusters None) as Hinv.
    destruct (identify_misclassified_genomes_cluster _ _ _) as [w' [e|s]].
    + split; [by intros (s & [=] & _)|].
      destruct Hinv as [[-> _]|(anchored & _ & Hlines & _)]; [done|].
      intros ls l Hw Hl [Hhdr Hfirst].
      destruct (Hlines ls l Hw Hl) as [->|(gid' & sp & c & r & -> & Hmis)]; [done|].
      injection Hfirst as ->. destruct Hmis as [Hgr _]. by eapply Hgrouped.
    + destruct Hinv as (anchored & _ & Hs & Hlines). split.
      * intros (s' & [= <-] & Hin).
        apply Hs in Hin as (sp & c & r & [Hgr _]). by eapply Hgrouped.
      * intros ls l Hw Hl [Hhdr Hfirst].
        destruct (Hlines ls l Hw Hl) as [->|(gid' & sp & c & r & -> & Hmis)]; [done|].
        injection Hfirst as ->. destruct Hmis as [Hgr _]. by eapply Hgrouped.
Qed.

End Forbidden.

Definition cyano_genomes : Genomes :=
  [("R1", mkGenome "s__Foo bar" true true "");
   ("R2", mkGenome "s__Foo baz" false false "");
   ("G3", mkGenome "s__Foo cyanobacterium" false false "");
   ("G4", mkGenome "s__Foo bar" false false "")].

Definition cyano_clusters : Clusters :=
  [("R1", ["R1"]); ("R2", ["R2"; "G3"; "G4"])].

Definition half_oracle (pairs : list (string * string)) : gmap (string * string) (Q * Q) :=
  list_to_map ((λ pair, (pair, (1#2, 1#2)%Q)) <$> pairs).

Lemma forbidden_never_flagged_witness :
  (∀ sp, ¬ grouped (ncbi_sp_gids cyano_genomes) sp "G3") ∧
  not_flagged header_ani "G3"
    (identify_misclassified_genomes_ani (95#100) half_oracle (λ fwd _, fwd)
       cyano_genomes cyano_clusters None) ∧
  not_flagged header_cluster "G3"
    (identify_misclassified_genomes_cluster cyano_genomes cyano_clusters None).
Proof.
  apply (forbidden_never_flagged (95#100) half_oracle (λ fwd _, fwd)
           cyano_genomes cyano_clusters "G3"
           (mkGenome "s__Foo cyanobacterium" false false "")).
  - apply NoDup_ListNoDup. repeat constructor; simpl; intuition discriminate.
  - right. right. left.
  - by vm_compute.
Defined.

(** On that input both methods flag G4, which shares R1's species but is
    clustered under R2, and leave G3 alone. *)
Example cyano_flagged :
  identify_misclassified_genomes_ani (95#100) half_oracle (λ fwd _, fwd)
    cyano_genomes cyano_clusters None
  = (Some [header_ani;
           [FStr "G4"; FStr "s__Foo bar"; FStr "R2"; FStr "R1";
            FFixed 2 (1#2); FFixed 3 (1#2)]],
     inr {[ "G4" ]}) ∧
  identify_misclassified_genomes_cluster cyano_genomes cyano_clusters None
  = (Some [header_cluster;
           [FStr "G4"; FStr "s__Foo bar"; FStr "R2"; FStr "R1"; FStr ""]],
     inr {[ "G4" ]}).
Proof. split; by vm_compute. Qed.

(** ** Candidates that the index does not know *)

(** C6 fails: G3 is a candidate of the anchored species but no cluster
    lists it, and both methods end in the [KeyError] of the index lookup
    (lines 113 and 212) instead of passing over it. *)
Lemma unclustered_candidate_crashes :
  let cur_genomes := [("R1", mkGenome "s__Foo bar" true true "");
                      ("G3", mkGenome "s__Foo bar" false false "")] in
  let cur_clusters := [("R1", ["R1"])] in
  grouped (ncbi_sp_gids cur_genomes) "s__Foo bar" "G3" ∧
  gid_to_rid cur_clusters !! "G3" = None ∧
  identify_misclassified_genomes_ani (95#100) half_oracle (λ fwd _, fwd)
    cur_genomes cur_clusters None
  = (Some [header_ani], inl (KeyError "G3")) ∧
  identify_misclassified_genomes_cluster cur_genomes cur_clusters None
  = (Some [header_cluster], inl (KeyError "G3")).
Proof.
  split; [|by vm_compute].
  exists ["R1"; "G3"]. split; [by vm_compute; left | right; left].
Qed.

Section Unclustered.

Variable ani_ncbi_erroneous : Q.
Variable fastani_pairs : list (string * string) → gmap (string * string) (Q * Q).
Variable both : Q * Q → Q * Q → Q * Q.

(** C6, amended.  Once the anchors are built, a candidate of an anchored
    species that the index does not know ends either method with an
    exception: the [KeyError] of a candidate missing from the index (in the
    ANI method possibly the error of an unscored pair reached earlier).
    No representative is made up for it, and it is not passed over. *)
Theorem unclustered_candidate_raises (cur_genomes : Genomes)
    (cur_clusters : Clusters) (w : report) (sp gid : string) (gids : list string) :
  (sp, gids) ∈ ncbi_sp_gids cur_genomes → gid ∈ gids →
  gid_to_rid cur_clusters !! gid = None →
  (∀ anchored,
     ncbi_type_anchored_species_ani cur_genomes cur_clusters w = (w, inr anchored) →
     is_Some (anchored !! sp) →
     ∃ w' e,
       identify_misclassified_genomes_ani ani_ncbi_erroneous fastani_pairs both
         cur_genomes cur_clusters w = (w', inl e) ∧
       ani_exn (gid_to_rid cur_clusters) e) ∧
  (∀ anchored,
     ncbi_type_anchored_species_cluster cur_genomes cur_clusters w
     = (w, inr anchored) →
     is_Some (anchored !! sp) →
     ∃ w' e,
       identify_misclassified_genomes_cluster cur_genomes cur_clusters w
       = (w', inl e) ∧
       unindexed (gid_to_rid cur_clusters) e).
Proof.
  intros Hgroup Hgid Hnone. split.
  - intros anchored Hanchors [type_rid Hanchor].
    destruct (ani_method_raises ani_ncbi_erroneous fastani_pairs both
                cur_genomes cur_clusters w anchored (sp, gids) Hanchors Hgroup)
      as (w' & e & Hrun).
    { apply (score_species_raises _ _ _ _ _ (sp, gids) type_rid gid); auto. }
    exists w', e. split; [done|].
    pose proof (ani_method_inv ani_ncbi_erroneous fastani_pairs both
                  cur_genomes cur_clusters w) as Hinv.
    rewrite Hrun in Hinv.
    destruct Hinv as [(_ & rid & -> & _)|(_ & _ & _ & Hexn)]; [|done].
    unfold identify_misclassified_genomes_ani in Hrun.
    erewrite bind_ok in Hrun by done.
    pose proof (score_loop_inv ani_ncbi_erroneous fastani_pairs both
                  (gid_to_rid cur_clusters) anchored (ncbi_sp_gids cur_genomes)
                  (Some [header_ani])) as Hloop.
    unfold bind at 1 2, fopen, fwrite in Hrun. simpl in Hrun. rewrite Hrun in Hloop.
    apply Hloop. intros ls l [= <-] ->%list_elem_of_singleton. by left.
  - intros anchored Hanchors [type_rid Hanchor].
    destruct (cluster_method_raises cur_genomes cur_clusters w anchored (sp, gids)
                Hanchors Hgroup) as (w' & e & Hrun).
    { by apply (flag_species_raises _ _ (sp, gids) type_rid gid). }
    exists w', e. split; [done|].
    unfold identify_misclassified_genomes_cluster in Hrun.
    erewrite bind_ok in Hrun by done.
    pose proof (flag_loop_inv (gid_to_rid cur_clusters) anchored
                  (ncbi_sp_gids cur_genomes) (Some [header_cluster])) as Hloop.
    unfold bind at 1 2, fopen, fwrite in Hrun. simpl in Hrun. rewrite Hrun in Hloop.
    apply Hloop. intros ls l [= <-] ->%list_elem_of_singleton. by left.
Qed.

End Unclustered.

Lemma unclustered_candidate_raises_witness :
  (∃ w' e,
     identify_misclassified_genomes_ani (95#100) half_oracle (λ fwd _, fwd)
       cyano_genomes [("R1", ["R1"])] None = (w', inl e) ∧
     ani_exn (gid_to_rid [("R1", ["R1"])]) e) ∧
  (∃ w' e,
     identify_misclassified_genomes_cluster cyano_genomes [("R1", ["R1"])] None
     = (w', inl e) ∧
     unindexed (gid_to_rid [("R1", ["R1"])]) e).
Proof.
  destruct (unclustered_candidate_raises (95#100) half_oracle (λ fwd _, fwd)
              cyano_genomes [("R1", ["R1"])] None "s__Foo bar" "G4" ["R1"; "G4"])
    as [Hani Hcluster].
  - vm_compute. left.
  - right. left.
  - reflexivity.
  - split.
    + apply (Hani {[ "s__Foo bar" := "R1" ]}); [by vm_compute | by eexists].
    + apply (Hcluster {[ "s__Foo bar" := "R1" ]}); [by vm_compute | by eexists].
Defined.

(** ** Pairs without a score *)

Section Unscored.

Variable ani_ncbi_erroneous : Q.
Variable fastani_pairs : list (string * string) → gmap (string * string) (Q * Q).
Variable both : Q * Q → Q * Q → Q * Q.



End Unscored.

(** An oracle that scores nothing against R1. *)
Definition silent_oracle (pairs : list (string * string)) : gmap (string * string) (Q * Q) := ∅.


Example unscored_pair_outcome :
  identify_misclassified_genomes_ani (95#100) silent_oracle (λ fwd _, fwd)
    cyano_genomes cyano_clusters None
  = (Some [header_ani], inl (PairKeyError ("R1", "G4"))).
Proof. by vm_compute. Qed.





(** ** The two methods compared *)

(** C3 fails: R1 and R2 are type-strain genomes of one species in two
    clusters.  The ANI method takes R2 as the anchor and flags R1, whose
    similarity to R2 the oracle gave; the clustering method stops at the
    conflict and flags nothing. *)
Lemma cluster_flags_no_superset :
  let cur_genomes := [("R1", mkGenome "s__Foo bar" true true "");
                      ("R2", mkGenome "s__Foo bar" true true "")] in
  let cur_clusters := [("R1", ["R1"]); ("R2", ["R2"])] in
  flagged_by "R1"
    (identify_misclassified_genomes_ani (95#100) half_oracle (λ fwd _, fwd)
       cur_genomes cur_clusters None) ∧
  half_oracle [("R2", "R1"); ("R1", "R2")] !! ("R2", "R1") = Some (1#2, 1#2)%Q ∧
  ¬ flagged_by "R1"
      (identify_misclassified_genomes_cluster cur_genomes cur_clusters None) ∧
  identify_misclassified_genomes_cluster cur_genomes cur_clusters None
  = (None, inl (SysExit (-1))).
Proof.
  split; [|split; [by vm_compute|split; [|by vm_compute]]].
  - exists {[ "R1" ]}. split; [by vm_compute | by apply elem_of_singleton].
  - intros (s & Hs & _). vm_compute in Hs. discriminate.
Qed.

Section Superset.

Variable ani_ncbi_erroneous : Q.
Variable fastani_pairs : list (string * string) → gmap (string * string) (Q * Q).
Variable both : Q * Q → Q * Q → Q * Q.

(** C3, amended.  When both methods run to the end on the same genome set
    and clusters, every representative is listed among the clustered
    genomes of its own cluster, and the genome set holds no forbidden
    epithet, every genome that the ANI method flags is flagged by the
    clustering method. *)
Theorem cluster_flags_superset (cur_genomes : Genomes) (cur_clusters : Clusters)
    (w1 w1' w2 w2' : report) (s_ani s_cluster : gset string) :
  (∀ gid g, (gid, g) ∈ cur_genomes →
            specific_epithet (ncbi_taxa_species g) ∉ forbidden_names) →
  (∀ rid cids, (rid, cids) ∈ cur_clusters → rid ∈ cids) →
  identify_misclassified_genomes_ani ani_ncbi_erroneous fastani_pairs both
    cur_genomes cur_clusters w1 = (w1', inr s_ani) →
  identify_misclassified_genomes_cluster cur_genomes cur_clusters w2
  = (w2', inr s_cluster) →
  s_ani ⊆ s_cluster.
Proof.
  intros Hforb Hself Hani Hcluster gid Hgid.
  pose proof (ani_method_inv ani_ncbi_erroneous fastani_pairs both
                cur_genomes cur_clusters w1) as Ha.
  rewrite Hani in Ha. destruct Ha as (anchored_ani & Hanchors_ani & Hs & _).
  pose proof (cluster_method_inv cur_genomes cur_clusters w2) as Hc.
  rewrite Hcluster in Hc. destruct Hc as (anchored_cl & Hanchors_cl & Hiff & _).
  destruct (Hs gid Hgid) as (sp & cur_rid & type_rid & (Hgr & Hanchor & Hcur & Hne) & _).
  pose proof (ani_anchors_inv cur_genomes cur_clusters w1) as Hinv.
  rewrite Hanchors_ani in Hinv. destruct Hinv as [_ Hinv].
  destruct (Hinv sp type_rid Hanchor) as [[cids Hcl] Hts].
  apply Hiff. exists sp, cur_rid, type_rid. split; [done|]. split; [|done].
  eapply (anchor_loop_complete cur_genomes (gather cur_genomes).2);
    [|exact Hanchors_cl|exact Hcl|by eapply Hself|done].
  destruct Hts as (g & Hg & _). by eapply passes_gather.
Qed.

End Superset.

Definition plain_genomes : Genomes :=
  [("R1", mkGenome "s__Foo bar" true true "");
   ("R2", mkGenome "s__Foo baz" false false "");
   ("G4", mkGenome "s__Foo bar" false false "")].

Definition plain_clusters : Clusters := [("R1", ["R1"]); ("R2", ["R2"; "G4"])].

Lemma cluster_flags_superset_witness :
  identify_misclassified_genomes_ani (95#100) half_oracle (λ fwd _, fwd)
    plain_genomes plain_clusters None
  = (Some [header_ani;
           [FStr "G4"; FStr "s__Foo bar"; FStr "R2"; FStr "R1";
            FFixed 2 (1#2); FFixed 3 (1#2)]],
     inr {[ "G4" ]}) ∧
  identify_misclassified_genomes_cluster plain_genomes plain_clusters None
  = (Some [header_cluster;
           [FStr "G4"; FStr "s__Foo bar"; FStr "R2"; FStr "R1"; FStr ""]],
     inr {[ "G4" ]}) ∧
  ({[ "G4" ]} : gset string) ⊆ {[ "G4" ]}.
Proof.
  assert (Hani : identify_misclassified_genomes_ani (95#100) half_oracle (λ fwd _, fwd)
            plain_genomes plain_clusters None
          = (Some [header_ani;
                   [FStr "G4"; FStr "s__Foo bar"; FStr "R2"; FStr "R1";
                    FFixed 2 (1#2); FFixed 3 (1#2)]],
             inr {[ "G4" ]})) by (by vm_compute).
  assert (Hcluster : identify_misclassified_genomes_cluster plain_genomes plain_clusters None
          = (Some [header_cluster;
                   [FStr "G4"; FStr "s__Foo bar"; FStr "R2"; FStr "R1"; FStr ""]],
             inr {[ "G4" ]})) by (by vm_compute).
  split; [exact Hani|]. split; [exact Hcluster|].
  eapply (cluster_flags_superset (95#100) half_oracle (λ fwd _, fwd)
            plain_genomes plain_clusters); [| |exact Hani|exact Hcluster].
  - intros gid g Hin. unfold plain_genomes in Hin.
    repeat (apply elem_of_cons in Hin as [[= -> ->]|Hin]); [by vm_compute..|].
    by apply elem_of_nil in Hin.
  - intros rid cids Hin. unfold plain_clusters in Hin.
    repeat (apply elem_of_cons in Hin as [[= -> ->]|Hin]); [left | left |].
    by apply elem_of_nil in Hin.
Defined.

End UpdateErroneousNCBI_Facts.

(** * Further properties *)

(** The loop over a concatenation runs the first part, then the second. *)
Lemma for_each_app {A S} (body : S → A → M S) (xs ys : list A) acc w :
  for_each (xs ++ ys) body acc w =
  match for_each xs body acc w with
  | (w', inr acc') => for_each ys body acc' w'
  | (w', inl e) => (w', inl e)
  end.
Proof.
  revert acc w. induction xs as [|x xs IH]; intros acc w; simpl; [done|].
  unfold bind. destruct (body acc x w) as [w1 [e|acc1]]; [done|]. apply IH.
Qed.

Lemma len_append (s1 s2 : string) : len (s1 +:+ s2) = len s1 + len s2.
Proof.
  unfold len. induction s1 as [|a s1 IH]; simpl; [done|]. lia.
Qed.

Lemma longest_common_prefix_append (p s1 s2 : string) :
  len p ≤ len (longest_common_prefix (p +:+ s1) (p +:+ s2)).
Proof.
  unfold len. induction p as [|a p IH]; simpl; [lia|].
  rewrite Ascii.eqb_refl. simpl. lia.
Qed.

Module PMC_CheckTypeStrains_More.
Import PMC_CheckTypeStrains PMC_CheckTypeStrains_Facts.

Lemma same_epithet_cases (epithet1 epithet2 : string) :
  _test_same_epithet epithet1 epithet2 =
  bool_decide (epithet1 = epithet2) ||
  bool_decide (Z.min (len epithet1) (len epithet2) - 3
               ≤ len (longest_common_prefix epithet1 epithet2)).
Proof.
  unfold _test_same_epithet.
  destruct (String.eqb_spec epithet1 epithet2) as [->|Hne].
  - by rewrite bool_decide_eq_true_2.
  - rewrite (bool_decide_eq_false_2 _ Hne). cbn [orb].
    destruct (Z.geb_spec (len (longest_common_prefix epithet1 epithet2))
                         (Z.min (len epithet1) (len epithet2) - 3)).
    + rewrite bool_decide_eq_true_2; [done | lia].
    + rewrite bool_decide_eq_false_2; [done | lia].
Qed.

(** X1.  Two epithets that share a prefix and of which one goes on for at
    most three more characters pass [_test_same_epithet], whatever the
    other one goes on with. *)
Theorem test_same_epithet_suffix (p s1 s2 : string) :
  Z.min (len s1) (len s2) ≤ 3 →
  _test_same_epithet (p +:+ s1) (p +:+ s2) = true.
Proof.
  intros Hshort. rewrite same_epithet_cases. apply orb_true_iff. right.
  apply bool_decide_eq_true_2.
  pose proof (longest_common_prefix_append p s1 s2). rewrite !len_append. lia.
Qed.

Lemma test_same_epithet_suffix_witness :
  _test_same_epithet ("aure" +:+ "us") ("aure" +:+ "ofaciens") = true.
Proof. apply (test_same_epithet_suffix "aure" "us" "ofaciens"). by vm_compute. Defined.

(** X2.  An epithet of at most three characters passes the test against
    every epithet: the bound [min(...) - 3] is then at most zero. *)
Theorem test_same_epithet_short (epithet1 epithet2 : string) :
  len epithet1 ≤ 3 ∨ len epithet2 ≤ 3 →
  _test_same_epithet epithet1 epithet2 = true.
Proof.
  intros Hshort. rewrite same_epithet_cases. apply orb_true_iff. right.
  apply bool_decide_eq_true_2.
  assert (0 ≤ len (longest_common_prefix epithet1 epithet2)) by (unfold len; lia).
  lia.
Qed.

Lemma test_same_epithet_short_witness :
  _test_same_epithet "coli" "bar" = true.
Proof. apply (test_same_epithet_short "coli" "bar"). right. by vm_compute. Defined.

(** X3.  Epithets that fail the test differ within the first
    [min(len) - 3] characters: both are longer than three characters and
    their common prefix is shorter than either by more than three. *)
Theorem test_same_epithet_false (epithet1 epithet2 : string) :
  _test_same_epithet epithet1 epithet2 = false →
  epithet1 ≠ epithet2 ∧ 3 < len epithet1 ∧ 3 < len epithet2 ∧
  len (longest_common_prefix epithet1 epithet2) + 3 < len epithet1 ∧
  len (longest_common_prefix epithet1 epithet2) + 3 < len epithet2.
Proof.
  rewrite same_epithet_cases. intros [Hne Hlcp]%orb_false_iff.
  apply bool_decide_eq_false in Hne, Hlcp.
  assert (0 ≤ len (longest_common_prefix epithet1 epithet2)) by (unfold len; lia).
  split; [done|]. lia.
Qed.

Lemma test_same_epithet_false_witness :
  "coli" ≠ "subtilis" ∧ 3 < len "coli" ∧ 3 < len "subtilis" ∧
  len (longest_common_prefix "coli" "subtilis") + 3 < len "coli" ∧
  len (longest_common_prefix "coli" "subtilis") + 3 < len "subtilis".
Proof. apply (test_same_epithet_false "coli" "subtilis"). by vm_compute. Defined.

Lemma run_after_check (mc_taxonomy : list (string * list string))
    (cur_genomes : Genomes) (w : report) :
  is_Some (genomes_lookup cur_genomes "G003992675") →
  is_Some (genomes_lookup cur_genomes "G003149745") →
  run mc_taxonomy cur_genomes w
  = for_each mc_taxonomy (check_genome cur_genomes) 0 (Some [header]).
Proof. intros [g1 H1] [g2 H2]. unfold run. by rewrite H1, H2. Qed.

(** X4.  A curated genome that is missing from the genome set stops [run]
    with its [KeyError] in the middle of the loop: the rows of the entries
    before it are already in the report. *)
Theorem run_stops_at_missing_genome (before after : list (string * list string))
    (rid : string) (taxa : list string) (cur_genomes : Genomes) (w : report) :
  is_Some (genomes_lookup cur_genomes "G003992675") →
  is_Some (genomes_lookup cur_genomes "G003149745") →
  loadable cur_genomes before →
  genomes_lookup cur_genomes rid = None →
  run (before ++ (rid, taxa) :: after) cur_genomes w
  = (Some (header :: flat_map (rows_of cur_genomes) before), inl (KeyError rid)).
Proof.
  intros H1 H2 Hload Hmiss. rewrite run_after_check by done.
  rewrite for_each_app, (check_loop _ _ Hload 0 [header]).
  cbn [for_each app]. unfold bind, check_genome. cbn [fst snd].
  unfold bind, getitem, raise. by rewrite Hmiss.
Qed.

Lemma run_stops_at_missing_genome_witness :
  run ([("G2", taxa_ex "s__Foo coli")] ++ ("G7", taxa_ex "s__Foo bar") :: [])
      cur_genomes_ex None
  = (Some (header :: flat_map (rows_of cur_genomes_ex) [("G2", taxa_ex "s__Foo coli")]),
     inl (KeyError "G7")).
Proof.
  apply (run_stops_at_missing_genome [("G2", taxa_ex "s__Foo coli")] []
           "G7" (taxa_ex "s__Foo bar") cur_genomes_ex None).
  - by eexists.
  - by eexists.
  - intros entry ->%list_elem_of_singleton.
    eexists. split; [reflexivity | intros _; by eexists].
  - reflexivity.
Defined.

(** X5.  A type-strain genome whose curated taxonomy has fewer than seven
    ranks stops [run] with [IndexError], again after the rows of the
    entries before it. *)
Theorem run_stops_at_short_taxonomy (before after : list (string * list string))
    (rid : string) (taxa : list string) (g : Genome) (cur_genomes : Genomes)
    (w : report) :
  is_Some (genomes_lookup cur_genomes "G003992675") →
  is_Some (genomes_lookup cur_genomes "G003149745") →
  loadable cur_genomes before →
  genomes_lookup cur_genomes rid = Some g →
  is_gtdb_type_strain g = true →
  (length taxa ≤ SPECIES_INDEX)%nat →
  run (before ++ (rid, taxa) :: after) cur_genomes w
  = (Some (header :: flat_map (rows_of cur_genomes) before), inl IndexError).
Proof.
  intros H1 H2 Hload Hg Hts Hlen. rewrite run_after_check by done.
  rewrite for_each_app, (check_loop _ _ Hload 0 [header]).
  cbn [for_each app]. unfold bind, check_genome. cbn [fst snd].
  unfold bind, getitem, ret, raise. rewrite Hg, Hts.
  by rewrite (lookup_ge_None_2 taxa SPECIES_INDEX Hlen).
Qed.

Lemma run_stops_at_short_taxonomy_witness :
  run ([] ++ ("G2", ["d__D"; "p__P"]) :: mc_taxonomy_ex) cur_genomes_ex None
  = (Some (header :: flat_map (rows_of cur_genomes_ex) []), inl IndexError).
Proof.
  apply (run_stops_at_short_taxonomy [] mc_taxonomy_ex "G2" ["d__D"; "p__P"]
           (ts "s__Foo subtilis") cur_genomes_ex None).
  - by eexists.
  - by eexists.
  - intros entry []%elem_of_nil.
  - reflexivity.
  - reflexivity.
  - unfold SPECIES_INDEX. simpl. lia.
Defined.

(** X6.  Every row of a completed report is about an entry of the curated
    taxonomy whose genome is a GTDB type strain with an NCBI species: a
    genome that is not a type strain, or has the NCBI species [s__], gets
    no row, and the rows keep the order of the curated taxonomy. *)
Theorem run_rows_are_type_strains (mc_taxonomy : list (string * list string))
    (cur_genomes : Genomes) (w w' : report) (n : Z) :
  run mc_taxonomy cur_genomes w = (w', inr n) →
  ∃ rows,
    w' = Some (header :: rows) ∧
    rows = flat_map (rows_of cur_genomes) mc_taxonomy ∧
    ∀ l, l ∈ rows →
      ∃ rid taxa g gtdb_sp,
        (rid, taxa) ∈ mc_taxonomy ∧
        genomes_lookup cur_genomes rid = Some g ∧
        is_gtdb_type_strain g = true ∧
        ncbi_taxa_species g ≠ "s__" ∧
        taxa !! SPECIES_INDEX = Some gtdb_sp ∧
        l = [FStr rid; FStr gtdb_sp; FStr (ncbi_taxa_species g);
             FStr (excluded_from_refseq_note g)].
Proof.
  intros Hrun.
  assert (H12 : is_Some (genomes_lookup cur_genomes "G003992675") ∧
                is_Some (genomes_lookup cur_genomes "G003149745")).
  { revert Hrun. unfold run, bind, getitem, raise.
    destruct (genomes_lookup cur_genomes "G003992675"); [|done].
    destruct (genomes_lookup cur_genomes "G003149745"); [|done]. by eauto. }
  destruct H12 as [H1 H2]. rewrite run_after_check in Hrun by done.
  assert (Hloop : ∀ mc ls n0 w0 n1,
    for_each mc (check_genome cur_genomes) n0 (Some ls) = (w0, inr n1) →
    w0 = Some (ls ++ flat_map (rows_of cur_genomes) mc)).
  { induction mc as [|entry mc IH]; intros ls n0 w0 n1; simpl.
    - intros [= <- _]. by rewrite app_nil_r.
    - intros (n2 & w2' & Hstep & Hrest)%bind_inr.
      assert (w2' = Some (ls ++ rows_of cur_genomes entry)) as ->.
      { revert Hstep. unfold check_genome, rows_of, bind, getitem, ret, raise, fwrite.
        destruct (genomes_lookup cur_genomes entry.1) as [g|]; [|done].
        destruct (is_gtdb_type_strain g); cbn [andb].
        - destruct (entry.2 !! SPECIES_INDEX) as [sp|]; [|done].
          destruct (String.eqb (ncbi_taxa_species g) "s__"); cbn [negb andb].
          + intros [= <- _]. by rewrite app_nil_r.
          + destruct (_test_same_epithet _ _); cbn [negb];
              intros [= <- _]; [by rewrite app_nil_r | done].
        - intros [= <- _]. destruct (entry.2 !! SPECIES_INDEX); by rewrite app_nil_r. }
      apply IH in Hrest as ->. by rewrite <- app_assoc. }
  apply Hloop in Hrun as ->. eexists. split; [done|]. split; [done|].
  intros l ([rid taxa] & Hin%list_elem_of_In & Hrow)%list_elem_of_In%in_flat_map.
  unfold rows_of in Hrow. cbn [fst snd] in Hrow.
  destruct (genomes_lookup cur_genomes rid) as [g|] eqn:Hg; [|done].
  destruct (taxa !! SPECIES_INDEX) as [sp|] eqn:Hsp; [|by destruct Hrow].
  destruct (is_gtdb_type_strain g) eqn:Hts; [|by destruct Hrow].
  destruct (String.eqb_spec (ncbi_taxa_species g) "s__") as [|Hne]; [by destruct Hrow|].
  destruct (_test_same_epithet _ _); [by destruct Hrow|].
  destruct Hrow as [<-|[]]. exists rid, taxa, g, sp. done.
Qed.

Lemma run_rows_are_type_strains_witness :
  ∃ rows,
    Some [header; [FStr "G2"; FStr "s__Foo coli"; FStr "s__Foo subtilis"; FStr ""]]
    = Some (header :: rows) ∧
    rows = flat_map (rows_of cur_genomes_ex) mc_taxonomy_ex ∧
    ∀ l, l ∈ rows →
      ∃ rid taxa g gtdb_sp,
        (rid, taxa) ∈ mc_taxonomy_ex ∧
        genomes_lookup cur_genomes_ex rid = Some g ∧
        is_gtdb_type_strain g = true ∧
        ncbi_taxa_species g ≠ "s__" ∧
        taxa !! SPECIES_INDEX = Some gtdb_sp ∧
        l = [FStr rid; FStr gtdb_sp; FStr (ncbi_taxa_species g);
             FStr (excluded_from_refseq_note g)].
Proof.
  apply (run_rows_are_type_strains mc_taxonomy_ex cur_genomes_ex None _ 1).
  reflexivity.
Defined.

End PMC_CheckTypeStrains_More.

Module UpdateErroneousNCBI_More.
Import UpdateErroneousNCBI UpdateErroneousNCBI_Facts.

(** *** Candidate groups *)

Lemma group_append_keys ncbi_species gid groups :
  (group_append ncbi_species gid groups).*1 =
  if bool_decide (ncbi_species ∈ groups.*1) then groups.*1
  else groups.*1 ++ [ncbi_species].
Proof.
  induction groups as [|[sp gids] rest IH]; cbn [group_append fmap list_fmap fst].
  - by rewrite bool_decide_eq_false_2 by apply not_elem_of_nil.
  - destruct (String.eqb_spec sp ncbi_species) as [->|Hne].
    + by rewrite bool_decide_eq_true_2 by left.
    + cbn [fmap list_fmap fst]. fold (rest.*1). rewrite IH.
      destruct (decide (ncbi_species ∈ rest.*1)) as [Hin|Hnin].
      * rewrite !bool_decide_eq_true_2; [done|by right|done].
      * rewrite !bool_decide_eq_false_2; [done| |done].
        intros [?|?]%elem_of_cons; [congruence | done].
Qed.

Lemma group_append_nonempty ncbi_species gid groups :
  (∀ group, group ∈ groups → group.2 ≠ []) →
  ∀ group, group ∈ group_append ncbi_species gid groups → group.2 ≠ [].
Proof.
  induction groups as [|[sp gids] rest IH]; intros Hall group; cbn [group_append].
  - by intros ->%list_elem_of_singleton.
  - destruct (String.eqb sp ncbi_species).
    + intros [->|?]%elem_of_cons; [by destruct gids | apply Hall; by right].
    + intros [->|?]%elem_of_cons; [apply (Hall (sp, gids)); left|].
      apply IH; [|done]. intros g' ?. apply Hall. by right.
Qed.

Lemma gather_from_keys (cur_genomes : Genomes) st :
  NoDup st.1.*1 → (∀ group, group ∈ st.1 → group.2 ≠ []) →
  NoDup (foldl gather_step st cur_genomes).1.*1 ∧
  ∀ group, group ∈ (foldl gather_step st cur_genomes).1 → group.2 ≠ [].
Proof.
  revert st. induction cur_genomes as [|entry rest IH]; intros st Hnd Hne; [done|].
  cbn [foldl]. apply IH; unfold gather_step; cbn [fst].
  - destruct (negb _ && negb _); [|done]. rewrite group_append_keys.
    case_bool_decide as Hin; [done|].
    apply NoDup_app. split; [done|]. split; [|apply NoDup_singleton].
    intros sp Hsp ->%list_elem_of_singleton. done.
  - destruct (negb _ && negb _); [|done]. by apply group_append_nonempty.
Qed.

(** X7.  The candidate groups of lines 83-89 hold exactly the genomes that
    have an NCBI species with an epithet that is not forbidden, each under
    its own species; no species has two groups and no group is empty. *)
Theorem candidate_groups_exact (cur_genomes : Genomes) :
  (∀ sp gid,
     grouped (ncbi_sp_gids cur_genomes) sp gid ↔
     ∃ g, (gid, g) ∈ cur_genomes ∧ ncbi_taxa_species g = sp ∧
          sp ≠ "s__" ∧ specific_epithet sp ∉ forbidden_names) ∧
  NoDup (ncbi_sp_gids cur_genomes).*1 ∧
  ∀ group, group ∈ ncbi_sp_gids cur_genomes → group.2 ≠ [].
Proof.
  split.
  - intros sp gid. rewrite ncbi_sp_gids_grouped. unfold candidate.
    split; intros (g & ? & <- & ?); exists g; tauto.
  - apply (gather_from_keys cur_genomes ([], None)); [apply NoDup_nil_2|].
    by intros group ?%elem_of_nil.
Qed.

(** *** A run with nothing anchored *)

Section NothingAnchored.

Variable ani_ncbi_erroneous : Q.
Variable fastani_pairs : list (string * string) → gmap (string * string) (Q * Q).
Variable both : Q * Q → Q * Q → Q * Q.

Lemma flag_loop_unanchored index (groups : list (string * list string)) s w :
  for_each groups (flag_species index ∅) s w = (w, inr s).
Proof.
  induction groups as [|group groups IH]; [done|]. cbn [for_each].
  unfold bind, flag_species at 1. by rewrite lookup_empty.
Qed.

Lemma score_loop_unanchored index (groups : list (string * list string)) s w :
  for_each groups
    (score_species ani_ncbi_erroneous fastani_pairs both index ∅) s w
  = (w, inr s).
Proof.
  induction groups as [|group groups IH]; [done|]. cbn [for_each].
  unfold bind, score_species at 1. by rewrite lookup_empty.
Qed.

(** X8.  Without clusters nothing is anchored: whatever the genome set and
    the previous report, both methods return the empty set and leave a
    report with the header alone. *)
Theorem no_clusters_nothing_flagged (cur_genomes : Genomes) (w : report) :
  identify_misclassified_genomes_ani ani_ncbi_erroneous fastani_pairs both
    cur_genomes [] w = (Some [header_ani], inr ∅) ∧
  identify_misclassified_genomes_cluster cur_genomes [] w
  = (Some [header_cluster], inr ∅).
Proof.
  split.
  - unfold identify_misclassified_genomes_ani, ncbi_type_anchored_species_ani.
    cbn [for_each]. unfold bind at 1, ret at 1. unfold bind at 1 2, fopen, fwrite.
    cbn [fst snd app]. apply score_loop_unanchored.
  - unfold identify_misclassified_genomes_cluster,
      ncbi_type_anchored_species_cluster.
    cbn [for_each]. unfold bind at 1, ret at 1. unfold bind at 1 2, fopen, fwrite.
    cbn [fst snd app]. apply flag_loop_unanchored.
Qed.

End NothingAnchored.

(** *** The forbidden-name test of the clustering method *)

Lemma anchor_member_blocked (cur_genomes : Genomes) sp0 rid anchored cid g w :
  specific_epithet sp0 ∈ forbidden_names →
  genomes_lookup cur_genomes cid = Some g →
  anchor_member cur_genomes (Some sp0) rid anchored cid w = (w, inr anchored).
Proof.
  intros Hforb Hg. unfold anchor_member, bind, getitem, ret. rewrite Hg.
  destruct (is_effective_type_strain g); [|done].
  rewrite (bool_decide_eq_true_2 _ Hforb). by rewrite andb_false_r.
Qed.

Lemma anchor_loop_blocked (cur_genomes : Genomes) sp0 (cur_clusters : Clusters) :
  specific_epithet sp0 ∈ forbidden_names →
  (∀ cluster cid, cluster ∈ cur_clusters → cid ∈ cluster.2 →
                  is_Some (genomes_lookup cur_genomes cid)) →
  ∀ anchored w,
    for_each cur_clusters (anchor_cluster cur_genomes (Some sp0)) anchored w
    = (w, inr anchored).
Proof.
  intros Hforb. induction cur_clusters as [|cluster rest IH]; intros Hall anchored w;
    [done|].
  cbn [for_each]. unfold bind.
  assert (Hcluster : ∀ cids, (∀ cid, cid ∈ cids → cid ∈ cluster.2) →
    for_each cids (anchor_member cur_genomes (Some sp0) cluster.1) anchored w
    = (w, inr anchored)).
  { induction cids as [|cid cids IHc]; intros Hsub; [done|].
    cbn [for_each]. unfold bind.
    destruct (Hall cluster cid) as [g Hg]; [left | apply Hsub; left |].
    rewrite (anchor_member_blocked _ _ _ _ _ _ _ Hforb Hg).
    apply IHc. intros c ?. apply Hsub. by right. }
  unfold anchor_cluster at 1. rewrite Hcluster by done.
  apply IH. intros c cid ? ?. apply (Hall c cid); [by right | done].
Qed.

(** X9.  Line 187 takes the epithet of [ncbi_species], the species of the
    last genome of the set.  When that epithet is forbidden (and every
    clustered genome is in the genome set), the clustering method anchors
    no species at all and so returns the empty set, whatever the clusters
    and the type strains are. *)
Theorem forbidden_last_genome_blocks_all (cur_genomes : Genomes)
    (cur_clusters : Clusters) (w : report) (last_gid : string) (last_genome : Genome) :
  last cur_genomes = Some (last_gid, last_genome) →
  specific_epithet (ncbi_taxa_species last_genome) ∈ forbidden_names →
  (∀ cluster cid, cluster ∈ cur_clusters → cid ∈ cluster.2 →
                  is_Some (genomes_lookup cur_genomes cid)) →
  ncbi_type_anchored_species_cluster cur_genomes cur_clusters w = (w, inr ∅) ∧
  identify_misclassified_genomes_cluster cur_genomes cur_clusters w
  = (Some [header_cluster], inr ∅).
Proof.
  intros Hlast Hforb Hall.
  assert (Hanchors :
    ncbi_type_anchored_species_cluster cur_genomes cur_clusters w = (w, inr ∅)).
  { unfold ncbi_type_anchored_species_cluster. rewrite gather_last, Hlast.
    by apply anchor_loop_blocked. }
  split; [done|]. unfold identify_misclassified_genomes_cluster.
  erewrite bind_ok by done. unfold bind at 1 2, fopen, fwrite. cbn [fst snd app].
  apply flag_loop_unanchored.
Qed.

Lemma forbidden_last_genome_blocks_all_witness :
  ncbi_type_anchored_species_cluster
    [("R1", mkGenome "s__Foo bar" true true "");
     ("G2", mkGenome "s__Foo bar" false false "");
     ("G9", mkGenome "s__Baz cyanobacterium" false false "")]
    [("R1", ["R1"]); ("R2", ["G2"; "G9"])] None = (None, inr ∅) ∧
  identify_misclassified_genomes_cluster
    [("R1", mkGenome "s__Foo bar" true true "");
     ("G2", mkGenome "s__Foo bar" false false "");
     ("G9", mkGenome "s__Baz cyanobacterium" false false "")]
    [("R1", ["R1"]); ("R2", ["G2"; "G9"])] None
  = (Some [header_cluster], inr ∅).
Proof.
  apply (forbidden_last_genome_blocks_all _ _ None "G9"
           (mkGenome "s__Baz cyanobacterium" false false "")).
  - reflexivity.
  - by vm_compute.
  - intros cluster cid Hcl Hcid.
    repeat (apply elem_of_cons in Hcl as [->|Hcl]);
      [| |by apply elem_of_nil in Hcl];
      repeat (apply elem_of_cons in Hcid as [->|Hcid]);
      try (by apply elem_of_nil in Hcid); by eexists.
Defined.

(** *** Exceptions of the two methods *)

Lemma anchor_loop_exceptions (cur_genomes : Genomes) (cur_clusters : Clusters) w :
  match ncbi_type_anchored_species_cluster cur_genomes cur_clusters w with
  | (_, inl e) => (∃ gid, e = KeyError gid) ∨ e = SysExit (-1)
  | (_, inr _) => True
  end.
Proof.
  unfold ncbi_type_anchored_species_cluster.
  destruct (gather cur_genomes).2 as [sp0|] eqn:Hstale.
  - pose proof (anchor_loop_exn cur_genomes (Some sp0) cur_clusters w) as Hexn.
    destruct (for_each _ _ _ _) as [w' [e|anchored]]; [|done].
    destruct Hexn as [_ [(gid & -> & _)|[[_ Hnone]| ->]]]; [by eauto|done|by eauto].
  - rewrite gather_last in Hstale.
    destruct (last cur_genomes) eqn:Hlast; [done|]. apply last_None in Hlast as ->.
    apply (for_each_inv (λ _ _, True)
             (λ e _, (∃ gid, e = KeyError gid) ∨ e = SysExit (-1))); [|done].
    intros anchored cluster w0 _ _. unfold anchor_cluster.
    apply (for_each_inv (λ _ _, True)
             (λ e _, (∃ gid, e = KeyError gid) ∨ e = SysExit (-1))); [|done].
    intros acc cid w1 _ _. cbn. eauto.
Qed.

Section Exceptions.

Variable ani_ncbi_erroneous : Q.
Variable fastani_pairs : list (string * string) → gmap (string * string) (Q * Q).
Variable both : Q * Q → Q * Q → Q * Q.

(** X10.  The ANI method never calls [sys.exit]: it ends normally or with
    a lookup error.  The clustering method ends normally, with a
    [KeyError], or with [sys.exit(-1)]; in particular line 187 never reads
    [ncbi_species] unbound, although an empty genome set leaves it so. *)
Theorem method_exceptions (cur_genomes : Genomes) (cur_clusters : Clusters)
    (w : report) :
  match identify_misclassified_genomes_ani ani_ncbi_erroneous fastani_pairs both
          cur_genomes cur_clusters w with
  | (_, inl e) => (∃ gid, e = KeyError gid) ∨ (∃ pair, e = PairKeyError pair)
  | (_, inr _) => True
  end ∧
  match identify_misclassified_genomes_cluster cur_genomes cur_clusters w with
  | (_, inl e) => (∃ gid, e = KeyError gid) ∨ e = SysExit (-1)
  | (_, inr _) => True
  end.
Proof.
  split.
  - pose proof (ani_method_inv ani_ncbi_erroneous fastani_pairs both
                  cur_genomes cur_clusters w) as Hinv.
    destruct (identify_misclassified_genomes_ani _ _ _ _ _ _) as [w' [e|s]]; [|done].
    destruct Hinv as [(_ & rid & -> & _)|(_ & _ & _ & [(gid & -> & _)|?])]; eauto.
  - pose proof (anchor_loop_exceptions cur_genomes cur_clusters w) as Hanchors.
    pose proof (anchor_loop_exn cur_genomes (gather cur_genomes).2 cur_clusters w)
      as Hpure.
    fold (ncbi_type_anchored_species_cluster cur_genomes cur_clusters) in Hpure.
    unfold identify_misclassified_genomes_cluster.
    destruct (ncbi_type_anchored_species_cluster cur_genomes cur_clusters w)
      as [w0 [e|anchored]] eqn:Hrun.
    + by erewrite bind_err by done.
    + subst w0. erewrite bind_ok by done.
      unfold bind at 1 2, fopen, fwrite. cbn [fst snd app].
      pose proof (flag_loop_inv (gid_to_rid cur_clusters) anchored
                    (ncbi_sp_gids cur_genomes) (Some [header_cluster])) as Hloop.
      destruct (for_each _ _ ∅ (Some [header_cluster])) as [w' [e|s]]; [|done].
      destruct Hloop as [_ (gid & -> & _)]; [|by eauto].
      intros ls l [= <-] Hl%list_elem_of_singleton. subst. by left.
Qed.

End Exceptions.

(** *** The returned set and the report *)

(** The report begins with the header [hdr], and the genomes of [s] are
    those that its rows are about. *)
Definition agrees (hdr : line) (s : gset string) (w : report) : Prop :=
  ∃ rows, w = Some (hdr :: rows) ∧
          ∀ gid, gid ∈ s ↔ ∃ l, l ∈ rows ∧ l !! 0%nat = Some (FStr gid).

Lemma agrees_init (hdr : line) : agrees hdr ∅ (Some [hdr]).
Proof.
  exists []. split; [done|]. intros gid. split.
  - by intros ?%not_elem_of_empty.
  - by intros (l & ?%elem_of_nil & _).
Qed.

Lemma agrees_fwrite (hdr : line) s w gid (rest : list field) :
  agrees hdr s w →
  agrees hdr ({[gid]} ∪ s) (fwrite (FStr gid :: rest) w).1.
Proof.
  intros (rows & -> & Hs). exists (rows ++ [FStr gid :: rest]). split; [done|].
  intros gid'. rewrite elem_of_union, elem_of_singleton, Hs. split.
  - intros [->|(l & Hl & Hfirst)].
    + eexists. split; [apply elem_of_app; right; left | done].
    + exists l. split; [apply elem_of_app; by left | done].
  - intros (l & [Hl|Hl%list_elem_of_singleton]%elem_of_app & Hfirst).
    + right. by exists l.
    + left. subst l. by injection Hfirst.
Qed.

Section Agreement.

Variable ani_ncbi_erroneous : Q.
Variable fastani_pairs : list (string * string) → gmap (string * string) (Q * Q).
Variable both : Q * Q → Q * Q → Q * Q.

Lemma flag_loop_agrees index anchored (groups : list (string * list string)) :
  match for_each groups (flag_species index anchored) ∅ (Some [header_cluster]) with
  | (w', inr s) => agrees header_cluster s w'
  | (_, inl _) => True
  end.
Proof.
  apply (for_each_inv (agrees header_cluster) (λ _ _, True));
    [|apply agrees_init].
  intros s group w _ Hs. unfold flag_species.
  destruct (anchored !! group.1) as [type_rid|]; [|done].
  apply (for_each_inv (agrees header_cluster) (λ _ _, True)); [|done].
  intros s1 gid w1 _ Hs1.
  pose proof (flag_member_cases index group.1 type_rid s1 gid w1) as Hc.
  destruct (flag_member _ _ _ _ _ _) as [w' [e|s']]; [done|].
  destruct Hc as (cur_rid & _ & [(_ & -> & ->)|(_ & -> & ->)]); [done|].
  by apply agrees_fwrite.
Qed.

Lemma score_loop_agrees index anchored (groups : list (string * list string)) :
  match for_each groups
          (score_species ani_ncbi_erroneous fastani_pairs both index anchored)
          ∅ (Some [header_ani]) with
  | (w', inr s) => agrees header_ani s w'
  | (_, inl _) => True
  end.
Proof.
  apply (for_each_inv (agrees header_ani) (λ _ _, True)); [|apply agrees_init].
  intros s group w _ Hs. unfold score_species.
  destruct (anchored !! group.1) as [type_rid|]; [|done].
  unfold bind.
  pose proof (check_loop_cases index type_rid group.2 [] w) as Hcheck.
  destruct (for_each group.2 _ [] w) as [w1 [e|gids_to_check]]; [done|].
  destruct Hcheck as (-> & _ & _). destruct (0 <? _); [|done].
  apply (for_each_inv (agrees header_ani) (λ _ _, True)); [|done].
  intros s1 gid w1 _ Hs1.
  pose proof (score_member_cases ani_ncbi_erroneous both index
                (fastani_pairs (gid_pairs type_rid gids_to_check))
                group.1 type_rid s1 gid w1) as Hc.
  destruct (score_member _ _ _ _ _ _ _ _ _) as [w' [e|s']]; [done|].
  destruct Hc as (_ & [[-> ->]|(cur_rid & ani & af & _ & -> & ->)]); [done|].
  by apply agrees_fwrite.
Qed.

(** X11.  When a method runs to the end, its report is the header followed
    by rows, and the returned set holds exactly the genomes that the rows
    are about: no genome is flagged without a row, and no row is written
    for a genome that is not returned. *)
Theorem report_agrees_with_set (cur_genomes : Genomes) (cur_clusters : Clusters)
    (w : report) :
  match identify_misclassified_genomes_ani ani_ncbi_erroneous fastani_pairs both
          cur_genomes cur_clusters w with
  | (w', inr s) => agrees header_ani s w'
  | (_, inl _) => True
  end ∧
  match identify_misclassified_genomes_cluster cur_genomes cur_clusters w with
  | (w', inr s) => agrees header_cluster s w'
  | (_, inl _) => True
  end.
Proof.
  split.
  - unfold identify_misclassified_genomes_ani, bind at 1.
    destruct (ncbi_type_anchored_species_ani cur_genomes cur_clusters w)
      as [w0 [e|anchored]]; [done|].
    unfold bind at 1 2, fopen, fwrite. cbn [fst snd app].
    apply score_loop_agrees.
  - unfold identify_misclassified_genomes_cluster, bind at 1.
    destruct (ncbi_type_anchored_species_cluster cur_genomes cur_clusters w)
      as [w0 [e|anchored]]; [done|].
    unfold bind at 1 2, fopen, fwrite. cbn [fst snd app].
    apply flag_loop_agrees.
Qed.

End Agreement.

(** X12.  When the clustering method runs to the end, it returns exactly
    the genomes of the set that have an NCBI species with an epithet that is
    not forbidden, whose species is anchored, and which the index puts under
    another representative than the anchor. *)
Theorem cluster_flags_exactly (cur_genomes : Genomes) (cur_clusters : Clusters)
    (w w' : report) (s : gset string) :
  identify_misclassified_genomes_cluster cur_genomes cur_clusters w = (w', inr s) →
  ∃ anchored,
    ncbi_type_anchored_species_cluster cur_genomes cur_clusters w = (w, inr anchored) ∧
    ∀ gid, gid ∈ s ↔
      ∃ g type_rid cur_rid,
        (gid, g) ∈ cur_genomes ∧
        ncbi_taxa_species g ≠ "s__" ∧
        (specific_epithet (ncbi_taxa_species g) ∉ forbidden_names) ∧
        anchored !! ncbi_taxa_species g = Some type_rid ∧
        gid_to_rid cur_clusters !! gid = Some cur_rid ∧
        cur_rid ≠ type_rid.
Proof.
  intros Hrun. pose proof (cluster_method_inv cur_genomes cur_clusters w) as Hinv.
  rewrite Hrun in Hinv. destruct Hinv as (anchored & Hanchors & Hs & _).
  exists anchored. split; [done|]. intros gid. rewrite Hs. split.
  - intros (sp & cur_rid & type_rid & Hgr & Hanchor & Hcur & Hne).
    apply ncbi_sp_gids_grouped in Hgr as (g & Hg & <- & Hcand1 & Hcand2).
    exists g, type_rid, cur_rid. done.
  - intros (g & type_rid & cur_rid & Hg & Hsp & Hforb & Hanchor & Hcur & Hne).
    exists (ncbi_taxa_species g), cur_rid, type_rid.
    split; [|done]. apply ncbi_sp_gids_grouped. exists g. done.
Qed.

Lemma cluster_flags_exactly_witness :
  ∃ anchored,
    ncbi_type_anchored_species_cluster plain_genomes plain_clusters None
    = (None, inr anchored) ∧
    ∀ gid, gid ∈ ({[ "G4" ]} : gset string) ↔
      ∃ g type_rid cur_rid,
        (gid, g) ∈ plain_genomes ∧
        ncbi_taxa_species g ≠ "s__" ∧
        (specific_epithet (ncbi_taxa_species g) ∉ forbidden_names) ∧
        anchored !! ncbi_taxa_species g = Some type_rid ∧
        gid_to_rid plain_clusters !! gid = Some cur_rid ∧
        cur_rid ≠ type_rid.
Proof.
  eapply (cluster_flags_exactly plain_genomes plain_clusters None). by vm_compute.
Defined.

(** *** The rows of the ANI report *)

Section AniRows.

Variable ani_ncbi_erroneous : Q.
Variable fastani_pairs : list (string * string) → gmap (string * string) (Q * Q).
Variable both : Q * Q → Q * Q → Q * Q.

(** The batch that lines 121-137 request for a species anchored at
    [type_rid]: both orderings of the anchor with every genome of the species
    that the index puts elsewhere. *)
Definition requested (index : gmap string string) (type_rid : string)
    (gids : list string) : list (string * string) :=
  gid_pairs type_rid (filter (λ gid, index !! gid ≠ Some type_rid) gids).

(** A row of the ANI report: a genome [gid] of a species [sp] anchored at
    [type_rid], which the index puts in another cluster [cur_rid], with the
    scores that [symmetric_ani] gave for the anchor and the genome on the
    batch requested for the species.  The row shows the identity to two and
    the alignment fraction to three decimals (line 143); the identity that
    was compared, before it is rounded, is below the threshold. *)
Definition scored_row (index anchored : gmap string string)
    (groups : list (string * list string)) (l : line) : Prop :=
  ∃ gid sp gids cur_rid type_rid scores w0,
    l = [FStr gid; FStr sp; FStr cur_rid; FStr type_rid;
         FFixed 2 scores.1; FFixed 3 scores.2] ∧
    (sp, gids) ∈ groups ∧ gid ∈ gids ∧
    anchored !! sp = Some type_rid ∧
    index !! gid = Some cur_rid ∧ cur_rid ≠ type_rid ∧
    symmetric_ani both (fastani_pairs (requested index type_rid gids)) type_rid gid w0
    = (w0, inr scores) ∧
    float_lt scores.1 ani_ncbi_erroneous = true.

Lemma score_member_row index ani_af sp type_rid s gid w w' s' :
  score_member ani_ncbi_erroneous both index ani_af sp type_rid s gid w
  = (w', inr s') →
  (s' = s ∧ w' = w) ∨
  ∃ scores cur_rid,
    symmetric_ani both ani_af type_rid gid w = (w, inr scores) ∧
    float_lt scores.1 ani_ncbi_erroneous = true ∧
    index !! gid = Some cur_rid ∧
    s' = {[gid]} ∪ s ∧
    w' = (fwrite [FStr gid; FStr sp; FStr cur_rid; FStr type_rid;
                  FFixed 2 scores.1; FFixed 3 scores.2] w).1.
Proof.
  unfold score_member, bind.
  pose proof (symmetric_ani_cases both ani_af type_rid gid w) as Hsym.
  destruct (symmetric_ani both ani_af type_rid gid w) as [w1 [e|scores]]; [done|].
  destruct Hsym as [-> _].
  destruct (float_lt scores.1 ani_ncbi_erroneous) eqn:Hlt.
  - unfold getitem, ret, raise. destruct (index !! gid) as [cur_rid|]; [|done].
    intros [= <- <-]. right. exists scores, cur_rid. done.
  - intros [= <- <-]. by left.
Qed.

Lemma score_loop_rows index anchored (groups : list (string * list string)) s w :
  lines_sat (λ l, l = header_ani ∨ scored_row index anchored groups l) w →
  lines_sat (λ l, l = header_ani ∨ scored_row index anchored groups l)
    (for_each groups
       (score_species ani_ncbi_erroneous fastani_pairs both index anchored) s w).1.
Proof.
  intros Hw.
  set (P := λ l, l = header_ani ∨ scored_row index anchored groups l) in *.
  assert (Hinv :
    match for_each groups
            (score_species ani_ncbi_erroneous fastani_pairs both index anchored) s w
    with
    | (w', inr _) => lines_sat P w'
    | (w', inl _) => lines_sat P w'
    end).
  2:{ by destruct (for_each groups _ s w) as [w' [e|s']]. }
  apply (for_each_inv (λ _ w', lines_sat P w') (λ _ w', lines_sat P w')); [|done].
  intros s0 group w0 Hgroup Hw0. unfold score_species.
  destruct (anchored !! group.1) as [type_rid|] eqn:Hanchor; [|done].
  unfold bind.
  pose proof (check_loop_cases index type_rid group.2 [] w0) as Hcheck.
  destruct (for_each group.2 _ [] w0) as [w1 [e0|gids_to_check]];
    [by destruct Hcheck as (-> & _)|].
  destruct Hcheck as (-> & -> & Hall). cbn [app].
  destruct (0 <? _); [|done].
  apply (for_each_inv (λ _ w', lines_sat P w') (λ _ w', lines_sat P w')); [|done].
  intros s1 gid w1 Hgid Hw1.
  destruct (score_member _ _ _ _ _ _ _ _ _) as [w2 [e1|s2]] eqn:Hstep.
  - pose proof (score_member_cases ani_ncbi_erroneous both index
         (fastani_pairs (gid_pairs type_rid
            (filter (λ gid, index !! gid ≠ Some type_rid) group.2)))
         group.1 type_rid s1 gid w1) as Hc.
    rewrite Hstep in Hc. by destruct Hc as [-> _].
  - apply score_member_row in Hstep
      as [[_ ->]|(scores & cur_rid & Hsym & Hlt & Hcur & _ & ->)]; [done|].
    apply lines_sat_fwrite; [done|]. right.
    apply list_elem_of_filter in Hgid as [Hne Hgid].
    exists gid, group.1, group.2, cur_rid, type_rid, scores, w1.
    split; [done|]. split; [by destruct group|]. split; [done|].
    split; [done|]. split; [done|]. split; [congruence|]. done.
Qed.

(** X13.  Every line of the report of the ANI method is the header or the
    row of a genome of an anchored species that the index puts in another
    cluster than the anchor.  The row shows, to two and to three decimals,
    the identity and the alignment fraction that [symmetric_ani] gave for the
    anchor and the genome on the batch requested for that species, and that
    identity, as compared before it is rounded, is below the threshold
    [ani_ncbi_erroneous]. *)
Theorem ani_rows_below_threshold (cur_genomes : Genomes) (cur_clusters : Clusters) :
  match ncbi_type_anchored_species_ani cur_genomes cur_clusters None with
  | (_, inr anchored) =>
      lines_sat (λ l, l = header_ani ∨
                      scored_row (gid_to_rid cur_clusters) anchored
                                 (ncbi_sp_gids cur_genomes) l)
        (identify_misclassified_genomes_ani ani_ncbi_erroneous fastani_pairs both
           cur_genomes cur_clusters None).1
  | (_, inl e) =>
      identify_misclassified_genomes_ani ani_ncbi_erroneous fastani_pairs both
        cur_genomes cur_clusters None = (None, inl e)
  end.
Proof.
  pose proof (ani_anchors_inv cur_genomes cur_clusters None) as Hpure.
  unfold identify_misclassified_genomes_ani.
  destruct (ncbi_type_anchored_species_ani cur_genomes cur_clusters None)
    as [w0 [e|anchored]] eqn:Hanchors.
  - destruct Hpure as [-> _]. by erewrite bind_err by done.
  - destruct Hpure as [-> _]. erewrite bind_ok by done.
    unfold bind at 1 2, fopen, fwrite. cbn [fst snd app].
    apply score_loop_rows.
    intros ls l [= <-] Hl%list_elem_of_singleton. by left.
Qed.

End AniRows.

(** *** The previous report *)

(** A loop whose body neither reads nor writes the report. *)
Lemma for_each_indep {A S} (body : S → A → M S) (xs : list A) :
  (∀ acc x w, body acc x w = (w, (body acc x None).2)) →
  ∀ acc w, for_each xs body acc w = (w, (for_each xs body acc None).2).
Proof.
  intros Hbody. induction xs as [|x xs IH]; intros acc w; [done|].
  cbn [for_each]. unfold bind. rewrite (Hbody acc x w).
  destruct (body acc x None) as [w0 [e|acc1]] eqn:Hnone; cbn [snd]; [done|].
  rewrite (Hbody acc x None) in Hnone. injection Hnone as <-. apply IH.
Qed.

Lemma anchor_rep_indep (cur_genomes : Genomes) anchored cluster w :
  anchor_rep cur_genomes anchored cluster w
  = (w, (anchor_rep cur_genomes anchored cluster None).2).
Proof.
  unfold anchor_rep, bind, getitem, ret, raise.
  destruct (genomes_lookup cur_genomes cluster.1) as [g|]; [|done].
  destruct (is_effective_type_strain g); [|done].
  by destruct (negb _).
Qed.

Lemma anchor_member_indep (cur_genomes : Genomes) stale rid anchored cid w :
  anchor_member cur_genomes stale rid anchored cid w
  = (w, (anchor_member cur_genomes stale rid anchored cid None).2).
Proof.
  unfold anchor_member, bind, getitem, ret, raise.
  destruct (genomes_lookup cur_genomes cid) as [g|]; [|done].
  destruct (is_effective_type_strain g); [|done].
  destruct stale as [sp0|]; [|done].
  destruct (negb _ && negb _); [|done].
  destruct (anchored !! ncbi_taxa_species g) as [prev|]; [|done].
  by destruct (negb _).
Qed.

Lemma ani_anchors_indep (cur_genomes : Genomes) (cur_clusters : Clusters) w :
  ncbi_type_anchored_species_ani cur_genomes cur_clusters w
  = (w, (ncbi_type_anchored_species_ani cur_genomes cur_clusters None).2).
Proof. apply for_each_indep. intros. apply anchor_rep_indep. Qed.

Lemma cluster_anchors_indep (cur_genomes : Genomes) (cur_clusters : Clusters) w :
  ncbi_type_anchored_species_cluster cur_genomes cur_clusters w
  = (w, (ncbi_type_anchored_species_cluster cur_genomes cur_clusters None).2).
Proof.
  apply for_each_indep. intros anchored cluster w0. unfold anchor_cluster.
  apply for_each_indep. intros. apply anchor_member_indep.
Qed.

Section Rewritten.

Variable ani_ncbi_erroneous : Q.
Variable fastani_pairs : list (string * string) → gmap (string * string) (Q * Q).
Variable both : Q * Q → Q * Q → Q * Q.

(** X14.  The report is written anew, not appended to.  Either a method
    stops while it builds the anchors, and then the previous report is left
    as it was; or it opens the report, and then its outcome and the report
    are the same whatever the previous report held. *)
Theorem report_rewritten (cur_genomes : Genomes) (cur_clusters : Clusters)
    (w : report) :
  ((∃ e, identify_misclassified_genomes_ani ani_ncbi_erroneous fastani_pairs both
           cur_genomes cur_clusters w = (w, inl e) ∧
         ncbi_type_anchored_species_ani cur_genomes cur_clusters w = (w, inl e)) ∨
   (identify_misclassified_genomes_ani ani_ncbi_erroneous fastani_pairs both
      cur_genomes cur_clusters w
    = identify_misclassified_genomes_ani ani_ncbi_erroneous fastani_pairs both
        cur_genomes cur_clusters None ∧
    ∃ anchored,
      ncbi_type_anchored_species_ani cur_genomes cur_clusters w = (w, inr anchored))) ∧
  ((∃ e, identify_misclassified_genomes_cluster cur_genomes cur_clusters w
         = (w, inl e) ∧
         ncbi_type_anchored_species_cluster cur_genomes cur_clusters w = (w, inl e)) ∨
   (identify_misclassified_genomes_cluster cur_genomes cur_clusters w
    = identify_misclassified_genomes_cluster cur_genomes cur_clusters None ∧
    ∃ anchored,
      ncbi_type_anchored_species_cluster cur_genomes cur_clusters w
      = (w, inr anchored))).
Proof.
  split.
  - unfold identify_misclassified_genomes_ani.
    pose proof (ani_anchors_indep cur_genomes cur_clusters w) as Hw.
    pose proof (ani_anchors_indep cur_genomes cur_clusters None) as HN.
    destruct (ncbi_type_anchored_species_ani cur_genomes cur_clusters None).2
      as [e|anchored].
    + left. exists e. split; [by rewrite (bind_err _ _ _ _ _ Hw) | done].
    + right. split; [|by eexists].
      by rewrite (bind_ok _ _ _ _ _ Hw), (bind_ok _ _ _ _ _ HN).
  - unfold identify_misclassified_genomes_cluster.
    pose proof (cluster_anchors_indep cur_genomes cur_clusters w) as Hw.
    pose proof (cluster_anchors_indep cur_genomes cur_clusters None) as HN.
    destruct (ncbi_type_anchored_species_cluster cur_genomes cur_clusters None).2
      as [e|anchored].
    + left. exists e. split; [by rewrite (bind_err _ _ _ _ _ Hw) | done].
    + right. split; [|by eexists].
      by rewrite (bind_ok _ _ _ _ _ Hw), (bind_ok _ _ _ _ _ HN).
Qed.

End Rewritten.

(** *** Anchors in closed form *)

Lemma anchor_rep_total (cur_genomes : Genomes) (cur_clusters : Clusters) :
  (∀ cluster, cluster ∈ cur_clusters →
              is_Some (genomes_lookup cur_genomes cluster.1)) →
  ∀ anchored w, ∃ anchored',
    for_each cur_clusters (anchor_rep cur_genomes) anchored w = (w, inr anchored').
Proof.
  induction cur_clusters as [|cluster rest IH]; intros Hall anchored w; [by eexists|].
  cbn [for_each]. unfold bind.
  pose proof (anchor_rep_cases cur_genomes anchored cluster w) as Hc.
  destruct (anchor_rep cur_genomes anchored cluster w) as [w1 [e|anchored1]].
  - destruct Hc as (_ & _ & Hnone). destruct (Hall cluster) as [g Hg]; [left|].
    congruence.
  - destruct Hc as [-> _]. apply IH. intros c ?. apply Hall. by right.
Qed.

(** X15.  The anchors of the ANI method are built without any test for a
    conflict: when every representative is in the genome set the loop runs
    to the end, and a species is anchored at the last representative, in the
    order of the clusters, that is a type-strain genome with that species. *)
Theorem ani_anchor_last_wins (cur_genomes : Genomes)
    (before after : Clusters) (rid : string) (cids : list string) (sp : string)
    (w : report) :
  (∀ cluster, cluster ∈ before ++ (rid, cids) :: after →
              is_Some (genomes_lookup cur_genomes cluster.1)) →
  type_strain_of cur_genomes rid sp →
  (∀ later, later ∈ after → ¬ type_strain_of cur_genomes later.1 sp) →
  ∃ anchored,
    ncbi_type_anchored_species_ani cur_genomes (before ++ (rid, cids) :: after) w
    = (w, inr anchored) ∧
    anchored !! sp = Some rid.
Proof.
  intros Hall Hts Hlater. unfold ncbi_type_anchored_species_ani.
  rewrite for_each_app.
  destruct (anchor_rep_total cur_genomes before) with (anchored := (∅ : gmap string string))
    (w := w) as [anchored1 ->].
  { intros c ?. apply Hall. apply elem_of_app. by left. }
  cbn [for_each]. unfold bind.
  assert (Hstep : anchor_rep cur_genomes anchored1 (rid, cids) w
                  = (w, inr (<[sp := rid]> anchored1))).
  { destruct Hts as (g & Hg & Htype & <- & Hne).
    unfold anchor_rep, bind, getitem, ret. cbn [fst]. rewrite Hg, Htype.
    apply String.eqb_neq in Hne. by rewrite Hne. }
  rewrite Hstep.
  destruct (anchor_rep_total cur_genomes after) with (anchored := <[sp := rid]> anchored1)
    (w := w) as [anchored Hrest].
  { intros c ?. apply Hall. apply elem_of_app. right. by right. }
  exists anchored. split; [done|].
  eapply (for_each_stable (λ (_ : unit) (a : gmap string string), a !! sp = Some rid));
    [|exact Hrest|exact ()|apply lookup_insert_eq].
  intros acc later w0 w1 acc' Hin Hb _ Hacc.
  pose proof (anchor_rep_cases cur_genomes acc later w0) as Hc. rewrite Hb in Hc.
  destruct Hc as (_ & [->|(sp' & Hts' & ->)]); [done|].
  rewrite lookup_insert_ne; [done|]. intros ->. by apply (Hlater later).
Qed.

Lemma ani_anchor_last_wins_witness :
  ∃ anchored,
    ncbi_type_anchored_species_ani
      [("R1", mkGenome "s__Foo bar" true true "");
       ("R2", mkGenome "s__Foo bar" true true "");
       ("R3", mkGenome "s__Foo baz" true true "")]
      ([("R1", ["R1"])] ++ ("R2", ["R2"]) :: [("R3", ["R3"])]) None
    = (None, inr anchored) ∧
    anchored !! "s__Foo bar" = Some "R2".
Proof.
  apply (ani_anchor_last_wins
           [("R1", mkGenome "s__Foo bar" true true "");
            ("R2", mkGenome "s__Foo bar" true true "");
            ("R3", mkGenome "s__Foo baz" true true "")]
           [("R1", ["R1"])] [("R3", ["R3"])] "R2" ["R2"] "s__Foo bar" None).
  - intros cluster Hin.
    repeat (apply elem_of_cons in Hin as [->|Hin]); [by eexists..|].
    by apply elem_of_nil in Hin.
  - eexists. repeat split; [reflexivity..|done].
  - intros later ->%list_elem_of_singleton (g & Hg & _ & Hsp & _).
    injection Hg as <-. discriminate.
Defined.

(** X16.  When the anchor loop of the clustering method runs to the end
    and the test of line 188 lets anchors through, a species is anchored at
    a representative exactly when a type-strain genome with that species is
    clustered under that representative. *)
Theorem cluster_anchors_exact (cur_genomes : Genomes) (cur_clusters : Clusters)
    (w : report) (anchored : gmap string string) :
  passes (gather cur_genomes).2 →
  ncbi_type_anchored_species_cluster cur_genomes cur_clusters w = (w, inr anchored) →
  ∀ sp rid,
    anchored !! sp = Some rid ↔
    ∃ cids cid, (rid, cids) ∈ cur_clusters ∧ cid ∈ cids ∧
                type_strain_of cur_genomes cid sp.
Proof.
  intros Hpass Hrun sp rid. split.
  - revert sp rid.
    assert (Hinv :
      match for_each cur_clusters
              (anchor_cluster cur_genomes (gather cur_genomes).2) ∅ w with
      | (_, inr a) =>
          ∀ sp rid, a !! sp = Some rid →
            ∃ cids cid, (rid, cids) ∈ cur_clusters ∧ cid ∈ cids ∧
                        type_strain_of cur_genomes cid sp
      | (_, inl _) => True
      end).
    2:{ unfold ncbi_type_anchored_species_cluster in Hrun. by rewrite Hrun in Hinv. }
    apply (for_each_inv
      (λ (a : gmap string string) (_ : report),
         ∀ sp rid, a !! sp = Some rid →
           ∃ cids cid, (rid, cids) ∈ cur_clusters ∧ cid ∈ cids ∧
                       type_strain_of cur_genomes cid sp)
      (λ _ _, True)); [|by intros sp rid; rewrite lookup_empty].
    intros acc cluster w0 Hcl Hacc. unfold anchor_cluster.
    apply (for_each_inv
      (λ (a : gmap string string) (_ : report),
         ∀ sp rid, a !! sp = Some rid →
           ∃ cids cid, (rid, cids) ∈ cur_clusters ∧ cid ∈ cids ∧
                       type_strain_of cur_genomes cid sp)
      (λ _ _, True)); [|done].
    intros acc1 cid w1 Hcid Hacc1.
    pose proof (anchor_member_cases cur_genomes (gather cur_genomes).2
                  cluster.1 acc1 cid w1) as Hc.
    destruct (anchor_member _ _ _ _ _ _) as [w2 [e|acc2]]; [done|].
    destruct Hc as (_ & [[-> _]|(sp' & _ & Hts & _ & ->)]); [done|].
    intros sp rid. destruct (decide (sp' = sp)) as [->|Hne].
    + rewrite lookup_insert_eq. intros [= <-].
      exists cluster.2, cid. split; [by destruct cluster | done].
    + rewrite lookup_insert_ne by done. apply Hacc1.
  - intros (cids & cid & Hcl & Hcid & Hts).
    by eapply (anchor_loop_complete cur_genomes (gather cur_genomes).2).
Qed.

Lemma cluster_anchors_exact_witness :
  ({[ "s__Foo bar" := "R1" ]} : gmap string string) !! "s__Foo bar" = Some "R1" ↔
  ∃ cids cid, ("R1", cids) ∈ plain_clusters ∧ cid ∈ cids ∧
              type_strain_of plain_genomes cid "s__Foo bar".
Proof.
  apply (cluster_anchors_exact plain_genomes plain_clusters None
           {[ "s__Foo bar" := "R1" ]}).
  - eexists. split; [by vm_compute | by vm_compute].
  - by vm_compute.
Defined.

(** *** The threshold *)

(** Two outcomes of a method: the same exception, or two sets of which the
    second includes the first. *)
Definition grows (r1 r2 : exn + gset string) : Prop :=
  match r1, r2 with
  | inr s1, inr s2 => s1 ⊆ s2
  | inl e1, inl e2 => e1 = e2
  | _, _ => False
  end.

(** Two loops over the same list whose bodies keep [grows]. *)
Lemma for_each_grows {A} (body1 body2 : gset string → A → M (gset string))
    (xs : list A) :
  (∀ x s1 s2 w1 w2, x ∈ xs → s1 ⊆ s2 →
     grows (body1 s1 x w1).2 (body2 s2 x w2).2) →
  ∀ s1 s2 w1 w2, s1 ⊆ s2 →
    grows (for_each xs body1 s1 w1).2 (for_each xs body2 s2 w2).2.
Proof.
  induction xs as [|x xs IH]; intros Hbody s1 s2 w1 w2 Hs; [done|].
  cbn [for_each]. unfold bind.
  specialize (Hbody x s1 s2 w1 w2 (list_elem_of_here _ _) Hs) as Hx.
  destruct (body1 s1 x w1) as [w1' [e1|s1']], (body2 s2 x w2) as [w2' [e2|s2']];
    try done.
  apply IH; [|done]. intros y ????? . apply Hbody. by right.
Qed.

Lemma float_lt_mono (x thr1 thr2 : Q) :
  (thr1 <= thr2)%Q → float_lt x thr1 = true → float_lt x thr2 = true.
Proof.
  unfold float_lt. intros Hle Hlt. apply negb_true_iff in Hlt. apply negb_true_iff.
  destruct (Qle_bool thr2 x) eqn:Hle2; [|done].
  apply Qle_bool_iff in Hle2.
  assert (Qle_bool thr1 x = true) by (apply Qle_bool_iff; by eapply Qle_trans).
  congruence.
Qed.

Section Threshold.

Variable fastani_pairs : list (string * string) → gmap (string * string) (Q * Q).
Variable both : Q * Q → Q * Q → Q * Q.

Lemma symmetric_ani_indep ani_af gid1 gid2 w :
  symmetric_ani both ani_af gid1 gid2 w
  = (w, (symmetric_ani both ani_af gid1 gid2 None).2).
Proof.
  unfold symmetric_ani, ret, raise.
  by destruct (ani_af !! (gid1, gid2)), (ani_af !! (gid2, gid1)).
Qed.

Lemma check_member_indep index type_rid gids_to_check gid w :
  check_member index type_rid gids_to_check gid w
  = (w, (check_member index type_rid gids_to_check gid None).2).
Proof.
  unfold check_member, bind, getitem, ret, raise.
  destruct (index !! gid) as [cur_rid|]; [|done]. by destruct (negb _).
Qed.

Lemma score_member_grows thr1 thr2 index ani_af sp type_rid s1 s2 gid w1 w2 :
  (thr1 <= thr2)%Q → is_Some (index !! gid) → s1 ⊆ s2 →
  grows (score_member thr1 both index ani_af sp type_rid s1 gid w1).2
        (score_member thr2 both index ani_af sp type_rid s2 gid w2).2.
Proof.
  intros Hle [cur_rid Hcur] Hs. unfold score_member, bind.
  rewrite (symmetric_ani_indep ani_af type_rid gid w1),
          (symmetric_ani_indep ani_af type_rid gid w2).
  destruct (symmetric_ani both ani_af type_rid gid None).2 as [e|scores]; [done|].
  rewrite Hcur. unfold getitem, ret, fwrite. cbn [fst snd].
  destruct (float_lt scores.1 thr1) eqn:Hlt1.
  - rewrite (float_lt_mono _ _ _ Hle Hlt1). cbn. by apply union_mono_l.
  - destruct (float_lt scores.1 thr2); cbn; [by apply union_subseteq_r' | done].
Qed.

Lemma score_species_grows thr1 thr2 index anchored s1 s2 group w1 w2 :
  (thr1 <= thr2)%Q → s1 ⊆ s2 →
  grows (score_species thr1 fastani_pairs both index anchored s1 group w1).2
        (score_species thr2 fastani_pairs both index anchored s2 group w2).2.
Proof.
  intros Hle Hs. unfold score_species.
  destruct (anchored !! group.1) as [type_rid|]; [|done]. unfold bind.
  pose proof (check_loop_cases index type_rid group.2 [] None) as Hcheck.
  rewrite (for_each_indep _ _ (check_member_indep index type_rid) [] w1),
          (for_each_indep _ _ (check_member_indep index type_rid) [] w2).
  destruct (for_each group.2 (check_member index type_rid) [] None)
    as [w0 [e|gids_to_check]]; cbn [snd]; [done|].
  destruct Hcheck as (_ & -> & Hall). cbn [app].
  destruct (0 <? _); [|done].
  apply for_each_grows; [|done].
  intros gid s1' s2' w1' w2' Hgid%list_elem_of_filter Hs'.
  apply score_member_grows; [done| |done]. apply Hall. tauto.
Qed.

(** X17.  Raising the threshold of the ANI method changes neither whether
    it runs to the end nor the exception it ends with, and every genome
    flagged under the lower threshold is flagged under the higher one. *)
Theorem threshold_monotone (thr1 thr2 : Q) (cur_genomes : Genomes)
    (cur_clusters : Clusters) (w1 w2 : report) :
  (thr1 <= thr2)%Q →
  grows (identify_misclassified_genomes_ani thr1 fastani_pairs both
           cur_genomes cur_clusters w1).2
        (identify_misclassified_genomes_ani thr2 fastani_pairs both
           cur_genomes cur_clusters w2).2.
Proof.
  intros Hle. unfold identify_misclassified_genomes_ani, bind at 1 4.
  rewrite (ani_anchors_indep cur_genomes cur_clusters w1),
          (ani_anchors_indep cur_genomes cur_clusters w2).
  destruct (ncbi_type_anchored_species_ani cur_genomes cur_clusters None).2
    as [e|anchored]; [done|].
  unfold bind at 1 2 3 4, fopen, fwrite. cbn [fst snd app].
  apply for_each_grows; [|done].
  intros group s1 s2 w1' w2' _ Hs. by apply score_species_grows.
Qed.

End Threshold.

Lemma threshold_monotone_witness :
  grows (identify_misclassified_genomes_ani (40#100) half_oracle (λ fwd _, fwd)
           plain_genomes plain_clusters None).2
        (identify_misclassified_genomes_ani (95#100) half_oracle (λ fwd _, fwd)
           plain_genomes plain_clusters None).2.
Proof.
  apply (threshold_monotone half_oracle (λ fwd _, fwd) (40#100) (95#100)
           plain_genomes plain_clusters None None).
  by vm_compute.
Defined.

(** On that input the lower threshold flags nothing and the higher one
    flags G4, whose identity to the anchor is one half. *)
Example threshold_example :
  (identify_misclassified_genomes_ani (40#100) half_oracle (λ fwd _, fwd)
     plain_genomes plain_clusters None).2 = inr ∅ ∧
  (identify_misclassified_genomes_ani (95#100) half_oracle (λ fwd _, fwd)
     plain_genomes plain_clusters None).2 = inr {[ "G4" ]}.
Proof. split; by vm_compute. Qed.

End UpdateErroneousNCBI_More.

(** ** New and updated genomes *)

Lemma dict_get_set (k k0 v : string) (d : list (string * string)) :
  dict_get k (dict_set k0 v d) = if String.eqb k0 k then Some v else dict_get k d.
Proof.
  induction d as [|[k' v'] d IH]; cbn [dict_set dict_get].
  - by destruct (String.eqb k0 k).
  - destruct (String.eqb_spec k' k0) as [->|Hne]; cbn [dict_get].
    + by destruct (String.eqb k0 k).
    + rewrite IH. destruct (String.eqb_spec k' k) as [->|Hne'].
      * apply String.eqb_neq in Hne. rewrite String.eqb_sym in Hne. by rewrite Hne.
      * done.
Qed.

Lemma dict_get_keys (k : string) (d : list (string * string)) :
  is_Some (dict_get k d) ↔ k ∈ d.*1.
Proof.
  induction d as [|[k' v'] d IH]; cbn [dict_get fmap list_fmap fst].
  - split; [by intros [? ?] | by intros ?%elem_of_nil].
  - destruct (String.eqb_spec k' k) as [->|Hne].
    + split; [intros _; left | by eexists].
    + rewrite IH. split; [by right|]. intros [?|?]%elem_of_cons; [congruence | done].
Qed.

Module NewGenomes_Facts.
Import NewGenomes.

Section Facts.

Variable canonical_gid : string → string.
Variable basename normpath : string → string.
Variable join : string → string → string.
Variable set_order : gset string → list string.

(** The values of a dictionary are accessions whose canonical ID is their
    key: so the loops of lines 71-75 and 84-88 build them. *)
Definition keyed_map (accns : gmap string string) : Prop :=
  ∀ k v, accns !! k = Some v → canonical_gid v = k.

Definition keyed_dict (accns : list (string * string)) : Prop :=
  ∀ k v, dict_get k accns = Some v → canonical_gid v = k.

Lemma read_prev_keyed (lines : list string) (accns : gmap string string) :
  keyed_map accns → keyed_map (read_prev canonical_gid lines accns).
Proof.
  unfold read_prev. generalize (tail lines) as data. intros data. revert accns.
  induction data as [|line data IH]; intros accns Hk; [done|].
  cbn [foldl]. apply IH. intros k v.
  destruct (decide (canonical_gid (default "" (line_split line !! 0%nat)) = k))
    as [<-|Hne].
  - rewrite lookup_insert_eq. by intros [= <-].
  - rewrite lookup_insert_ne by done. apply Hk.
Qed.

Lemma read_cur_keyed (lines : list string) : keyed_dict (read_cur canonical_gid lines).
Proof.
  unfold read_cur. generalize (tail lines) as data. intros data.
  assert (Hgen : ∀ accns, keyed_dict accns →
    keyed_dict (foldl (λ accns line,
                  let gid := default "" (line_split line !! 0%nat) in
                  dict_set (canonical_gid gid) gid accns) accns data)).
  { induction data as [|line data IH]; intros accns Hk; [done|].
    cbn [foldl]. apply IH. intros k v. rewrite dict_get_set.
    destruct (String.eqb_spec
                (canonical_gid (default "" (line_split line !! 0%nat))) k)
      as [<-|Hne]; [by intros [= <-] | apply Hk]. }
  apply Hgen. by intros k v.
Qed.

(** The accession without its RefSeq or GenBank prefix (lines 50-51). *)
Definition bare (accn : string) : string := remove_all "GB_" (remove_all "RS_" accn).

Lemma same_genome_accn_keyed accn1 accn2 identical_accns :
  canonical_gid accn1 = canonical_gid accn2 →
  same_genome_accn canonical_gid accn1 accn2 identical_accns
  = inr (String.eqb accn1 accn2
         || bool_decide (identical_accns !! bare accn1 = Some (bare accn2))).
Proof.
  intros Hcanon. unfold same_genome_accn, bare.
  destruct (String.eqb accn1 accn2); [done|].
  rewrite Hcanon, String.eqb_refl. cbn [negb orb]. by case_bool_decide.
Qed.

(** A genome of the current release counts as updated when its accession
    has changed and the two accessions are not an identical
    GenBank/RefSeq pair. *)
Definition changed (cur_accns : list (string * string))
    (prev_accns identical_accns : gmap string string) (gid : string) : Prop :=
  ∃ cur_accn prev_accn,
    dict_get gid cur_accns = Some cur_accn ∧ prev_accns !! gid = Some prev_accn ∧
    cur_accn ≠ prev_accn ∧
    identical_accns !! bare cur_accn ≠ Some (bare prev_accn).

Lemma classify_gids_keyed (cur_accns : list (string * string))
    (prev_accns identical_accns : gmap string string) (gids : list string) :
  keyed_dict cur_accns → keyed_map prev_accns →
  (∀ gid, gid ∈ gids → gid ∈ cur_accns.*1) →
  ∀ st, ∃ st',
    classify_gids canonical_gid cur_accns prev_accns identical_accns st gids
    = inr st' ∧
    (∀ gid, gid ∈ st'.1 ↔
       gid ∈ st.1 ∨
       (gid ∈ gids ∧ String.prefix "U" gid = false ∧ prev_accns !! gid = None)) ∧
    (∀ gid, gid ∈ st'.2 ↔
       gid ∈ st.2 ∨
       (gid ∈ gids ∧ String.prefix "U" gid = false ∧
        changed cur_accns prev_accns identical_accns gid)).
Proof.
  intros Hcur Hprev. induction gids as [|gid0 gids IH]; intros Hkeys st.
  - exists st. split; [done|]. split; intros gid; split; auto;
      by intros [?|[?%elem_of_nil _]].
  - cbn [classify_gids]. unfold classify_gid.
    assert (Hrest : ∀ gid, gid ∈ gids → gid ∈ cur_accns.*1).
    { intros gid ?. apply Hkeys. by right. }
    destruct (String.prefix "U" gid0) eqn:HU.
    { destruct (IH Hrest st) as (st' & -> & Hnew & Hupd). exists st'.
      split; [done|]. split; intros gid.
      - rewrite Hnew. split; (intros [?|(Hin & HU' & ?)]; [by left|right]).
        + split; [by right | done].
        + apply elem_of_cons in Hin as [->|?]; [congruence | done].
      - rewrite Hupd. split; (intros [?|(Hin & HU' & ?)]; [by left|right]).
        + split; [by right | done].
        + apply elem_of_cons in Hin as [->|?]; [congruence | done]. }
    destruct (prev_accns !! gid0) as [prev_accn|] eqn:Hp.
    + destruct (proj2 (dict_get_keys gid0 cur_accns)) as [cur_accn Hc];
        [apply Hkeys; left|].
      rewrite Hc, same_genome_accn_keyed
        by (by rewrite (Hcur _ _ Hc), (Hprev _ _ Hp)).
      destruct (String.eqb_spec cur_accn prev_accn) as [Heq|Hneq]; cbn [orb negb].
      * destruct (IH Hrest st) as (st' & -> & Hnew & Hupd). exists st'.
        split; [done|]. split; intros gid.
        -- rewrite Hnew. split; (intros [?|(Hin & HU' & Hnone)]; [by left|right]).
           ++ split; [by right | done].
           ++ apply elem_of_cons in Hin as [->|?]; [congruence | done].
        -- rewrite Hupd. split; (intros [?|(Hin & HU' & Hch)]; [by left|right]).
           ++ split; [by right | done].
           ++ apply elem_of_cons in Hin as [->|?]; [|done].
              destruct Hch as (ca & pa & Hca & Hpa & Hne & _). congruence.
      * case_bool_decide as Hid; cbn [negb].
        -- destruct (IH Hrest st) as (st' & -> & Hnew & Hupd). exists st'.
           split; [done|]. split; intros gid.
           ++ rewrite Hnew. split; (intros [?|(Hin & HU' & Hnone)]; [by left|right]).
              ** split; [by right | done].
              ** apply elem_of_cons in Hin as [->|?]; [congruence | done].
           ++ rewrite Hupd. split; (intros [?|(Hin & HU' & Hch)]; [by left|right]).
              ** split; [by right | done].
              ** apply elem_of_cons in Hin as [->|?]; [|done].
                 destruct Hch as (ca & pa & Hca & Hpa & _ & Hnid). congruence.
        -- destruct (IH Hrest (st.1, {[gid0]} ∪ st.2)) as (st' & -> & Hnew & Hupd).
           exists st'. split; [done|]. cbn [fst snd] in *. split; intros gid.
           ++ rewrite Hnew. split; (intros [?|(Hin & HU' & Hnone)]; [by left|right]).
              ** split; [by right | done].
              ** apply elem_of_cons in Hin as [->|?]; [congruence | done].
           ++ rewrite Hupd, elem_of_union, elem_of_singleton. split.
              ** intros [[->|?]|(Hin & HU' & Hch)]; [right|by left|right].
                 --- split; [left|]. split; [done|]. by exists cur_accn, prev_accn.
                 --- split; [by right | done].
              ** intros [?|(Hin & HU' & Hch)]; [by left; right|].
                 apply elem_of_cons in Hin as [->|?]; [by left; left | by right].
    + destruct (IH Hrest ({[gid0]} ∪ st.1, st.2)) as (st' & -> & Hnew & Hupd).
      exists st'. split; [done|]. cbn [fst snd] in *. split; intros gid.
      * rewrite Hnew, elem_of_union, elem_of_singleton. split.
        -- intros [[->|?]|(Hin & HU' & Hnone)]; [right|by left|right].
           ++ split; [left | done].
           ++ split; [by right | done].
        -- intros [?|(Hin & HU' & Hnone)]; [by left; right|].
           apply elem_of_cons in Hin as [->|?]; [by left; left | by right].
      * rewrite Hupd. split; (intros [?|(Hin & HU' & Hch)]; [by left|right]).
        -- split; [by right | done].
        -- apply elem_of_cons in Hin as [->|?]; [|done].
           destruct Hch as (ca & pa & _ & Hpa & _). congruence.
Qed.

Lemma classify_ok (prev_ar_metadata prev_bac_metadata cur_gtdb_metadata
    : list string) (identical_accns : gmap string string) :
  ∃ sets,
    classify canonical_gid (read_cur canonical_gid cur_gtdb_metadata)
      (read_prev canonical_gid prev_bac_metadata
         (read_prev canonical_gid prev_ar_metadata ∅))
      identical_accns = inr sets.
Proof.
  destruct (classify_gids_keyed (read_cur canonical_gid cur_gtdb_metadata)
              (read_prev canonical_gid prev_bac_metadata
                 (read_prev canonical_gid prev_ar_metadata ∅))
              identical_accns (read_cur canonical_gid cur_gtdb_metadata).*1)
    with (st := ((∅, ∅) : gset string * gset string)) as (st' & Hrun & _).
  - apply read_cur_keyed.
  - apply read_prev_keyed, read_prev_keyed. by intros k v.
  - done.
  - by exists st'.
Qed.

(** X18.  The genomes of the current release are sorted without failure:
    [same_genome_accn] is only called on two accessions with the canonical
    ID under which both dictionaries hold them, so its [sys.exit] is never
    reached.  A genome is new when the previous releases do not have its
    canonical ID, updated when they have it under another accession that is
    not its identical GenBank/RefSeq pair; a canonical ID that starts with
    U is neither, and no genome is both. *)
Theorem classification_exact (prev_ar_metadata prev_bac_metadata cur_gtdb_metadata
    : list string) (identical_accns : gmap string string) :
  let prev_accns :=
    read_prev canonical_gid prev_bac_metadata
      (read_prev canonical_gid prev_ar_metadata ∅) in
  let cur_accns := read_cur canonical_gid cur_gtdb_metadata in
  ∃ new_gids updated_gids,
    classify canonical_gid cur_accns prev_accns identical_accns
    = inr (new_gids, updated_gids) ∧
    (∀ gid, gid ∈ new_gids ↔
       gid ∈ cur_accns.*1 ∧ String.prefix "U" gid = false ∧
       prev_accns !! gid = None) ∧
    (∀ gid, gid ∈ updated_gids ↔
       String.prefix "U" gid = false ∧
       changed cur_accns prev_accns identical_accns gid) ∧
    new_gids ## updated_gids.
Proof.
  intros prev_accns cur_accns.
  destruct (classify_gids_keyed cur_accns prev_accns identical_accns cur_accns.*1)
    with (st := ((∅, ∅) : gset string * gset string))
    as ([new_gids updated_gids] & Hrun & Hnew & Hupd).
  { apply read_cur_keyed. }
  { apply read_prev_keyed, read_prev_keyed. by intros k v. }
  { done. }
  cbn [fst snd] in *.
  assert (Hnew' : ∀ gid, gid ∈ new_gids ↔
    gid ∈ cur_accns.*1 ∧ String.prefix "U" gid = false ∧ prev_accns !! gid = None).
  { intros gid. rewrite Hnew. split; [|by right]. by intros [?%not_elem_of_empty|?]. }
  assert (Hupd' : ∀ gid, gid ∈ updated_gids ↔
    String.prefix "U" gid = false ∧ changed cur_accns prev_accns identical_accns gid).
  { intros gid. rewrite Hupd. split.
    - intros [?%not_elem_of_empty|(_ & ? & ?)]; done.
    - intros [HU Hch]. right. split; [|done].
      destruct Hch as (ca & pa & Hca & _). apply dict_get_keys. by eexists. }
  exists new_gids, updated_gids. split; [done|]. split; [done|]. split; [done|].
  intros gid (_ & _ & Hnone)%Hnew' (_ & ca & pa & _ & Hpa & _)%Hupd'. congruence.
Qed.

(** *** The assembly summary *)

Lemma read_identical_skips_aux (before rest : list string) :
  (∀ line, line ∈ before →
     String.prefix "#" line && contains "assembly_accession" line = false) →
  read_identical (before ++ rest) = read_identical rest ∧
  read_identical before = inr ∅.
Proof.
  intros Hno. induction before as [|line before IH]; [done|].
  cbn [app read_identical]. rewrite (Hno line) by left.
  apply IH. intros l ?. apply Hno. by right.
Qed.

(** X19.  Lines above the header line of the assembly summary are passed
    over, whatever they hold; a summary without a header line gives no
    identical pairs and no error. *)
Theorem read_identical_skips (before rest : list string) :
  (∀ line, line ∈ before →
     String.prefix "#" line && contains "assembly_accession" line = false) →
  read_identical (before ++ rest) = read_identical rest ∧
  read_identical before = inr ∅.
Proof.
  intros Hno. induction before as [|line before IH]; [done|].
  assert (Hline : String.prefix "#" line && contains "assembly_accession" line = false)
    by (apply Hno; left).
  cbn [app read_identical]. rewrite Hline.
  apply IH. intros l Hl. apply Hno. by right.
Qed.

Lemma read_pairs_entries gb rs paired (lines : list string) :
  ∀ acc result,
    read_pairs gb rs paired acc lines = inr result →
    ∀ a b, result !! a = Some b →
      acc !! a = Some b ∨
      ∃ line, line ∈ lines ∧
        line_split line !! paired = Some "identical" ∧
        ((line_split line !! gb = Some a ∧ line_split line !! rs = Some b) ∨
         (line_split line !! rs = Some a ∧ line_split line !! gb = Some b)).
Proof.
  induction lines as [|line lines IH]; intros acc result; cbn [read_pairs].
  - intros [= <-] a b ?. by left.
  - unfold read_pair.
    destruct (line_split line !! paired) as [paired_asm|] eqn:Hp; [|done].
    destruct (String.eqb_spec paired_asm "identical") as [->|Hne].
    + destruct (line_split line !! gb) as [gb_accn|] eqn:Hgb; [|done].
      destruct (line_split line !! rs) as [rs_accn|] eqn:Hrs; [|done].
      intros Hrest a b Hab.
      destruct (IH _ _ Hrest a b Hab) as [Hacc|(l & Hl & Hl')].
      * destruct (decide (rs_accn = a)) as [->|Hna].
        { rewrite lookup_insert_eq in Hacc. injection Hacc as <-.
          right. exists line. split; [left|]. split; [done|]. by right. }
        rewrite lookup_insert_ne in Hacc by done.
        destruct (decide (gb_accn = a)) as [->|Hnb].
        { rewrite lookup_insert_eq in Hacc. injection Hacc as <-.
          right. exists line. split; [left|]. split; [done|]. by left. }
        rewrite lookup_insert_ne in Hacc by done. by left.
      * right. exists l. split; [by right | done].
    + intros Hrest a b Hab.
      destruct (IH _ _ Hrest a b Hab) as [?|(l & Hl & Hl')]; [by left|].
      right. exists l. split; [by right | done].
Qed.

(** X20.  Every pair of [identical_accns] comes from a line below the
    header whose [paired_asm_comp] column says identical, and is that
    line's GenBank and RefSeq accession in one of the two directions. *)
Theorem identical_pairs_from_lines (above below : list string) (header_line : string)
    (gb rs paired : nat) (identical_accns : gmap string string) :
  (∀ line, line ∈ above →
     String.prefix "#" line && contains "assembly_accession" line = false) →
  String.prefix "#" header_line && contains "assembly_accession" header_line = true →
  index_of "# assembly_accession" (line_split header_line) = Some gb →
  index_of "gbrs_paired_asm" (line_split header_line) = Some rs →
  index_of "paired_asm_comp" (line_split header_line) = Some paired →
  read_identical (above ++ header_line :: below) = inr identical_accns →
  ∀ a b, identical_accns !! a = Some b →
    ∃ line, line ∈ below ∧
      line_split line !! paired = Some "identical" ∧
      ((line_split line !! gb = Some a ∧ line_split line !! rs = Some b) ∨
       (line_split line !! rs = Some a ∧ line_split line !! gb = Some b)).
Proof.
  intros Habove Hhdr Hgb Hrs Hpaired.
  rewrite (proj1 (read_identical_skips_aux above (header_line :: below) Habove)).
  cbn [read_identical]. rewrite Hhdr, Hgb, Hrs, Hpaired.
  intros Hread a b Hab.
  destruct (read_pairs_entries _ _ _ _ _ _ Hread a b Hab) as [Hempty|?]; [|done].
  by rewrite lookup_empty in Hempty.
Qed.

(** *** Accessions of the same genome *)

(** X21.  When [identical_accns] pairs accessions in both directions,
    [same_genome_accn] does not depend on the order of the two accessions:
    it exits for both orders or gives the same answer. *)
Theorem same_genome_accn_sym (accn1 accn2 : string)
    (identical_accns : gmap string string) :
  (∀ a b, identical_accns !! a = Some b → identical_accns !! b = Some a) →
  same_genome_accn canonical_gid accn1 accn2 identical_accns
  = same_genome_accn canonical_gid accn2 accn1 identical_accns.
Proof.
  intros Hsym. unfold same_genome_accn.
  rewrite (String.eqb_sym accn2 accn1),
          (String.eqb_sym (canonical_gid accn2) (canonical_gid accn1)).
  destruct (String.eqb accn1 accn2); [done|].
  destruct (negb _); [done|].
  case_bool_decide as H1; case_bool_decide as H2; try done.
  - destruct H2. by apply Hsym.
  - destruct H1. by apply Hsym.
Qed.

(** *** The report *)

(** The row of [gid] under the status [type_str] (lines 161-164). *)
Definition row (type_str : string) (cur_accns : list (string * string))
    (cur_genome_files : gmap string string) (gid : string) : line :=
  [FStr gid; FStr (default "" (dict_get gid cur_accns)); FStr type_str;
   FStr (default "" (cur_genome_files !! gid))].

Lemma write_rows_ok type_str cur_accns cur_genome_files (gids : list string) :
  (∀ gid, gid ∈ gids →
     is_Some (cur_genome_files !! gid) ∧ is_Some (dict_get gid cur_accns)) →
  ∀ written,
    write_rows type_str cur_accns cur_genome_files gids written
    = (written ++ (row type_str cur_accns cur_genome_files <$> gids), inr ()).
Proof.
  induction gids as [|gid gids IH]; intros Hall written; cbn [write_rows fmap list_fmap].
  - by rewrite app_nil_r.
  - destruct (Hall gid) as [[file Hf] [accn Ha]]; [left|].
    rewrite Hf, Ha, IH by (intros g ?; apply Hall; by right).
    rewrite <- app_assoc. unfold row. by rewrite Hf, Ha.
Qed.

Lemma write_rows_missing type_str cur_accns cur_genome_files
    (before after : list string) (gid : string) :
  (∀ g, g ∈ before →
     is_Some (cur_genome_files !! g) ∧ is_Some (dict_get g cur_accns)) →
  cur_genome_files !! gid = None →
  ∀ written,
    write_rows type_str cur_accns cur_genome_files (before ++ gid :: after) written
    = (written ++ (row type_str cur_accns cur_genome_files <$> before),
       inl (Exn (KeyError gid))).
Proof.
  induction before as [|g before IH]; intros Hall Hnone written;
    cbn [app write_rows fmap list_fmap].
  - by rewrite Hnone, app_nil_r.
  - destruct (Hall g) as [[file Hf] [accn Ha]]; [left|].
    rewrite Hf, Ha, IH by (try done; intros g' ?; apply Hall; by right).
    rewrite <- app_assoc. unfold row at 2. by rewrite Hf, Ha.
Qed.

Lemma classify_in_cur (cur_accns : list (string * string))
    (prev_accns identical_accns : gmap string string)
    (gids : list string) :
  ∀ st st',
    classify_gids canonical_gid cur_accns prev_accns identical_accns st gids
    = inr st' →
    (∀ gid, gid ∈ st.1 ∪ st.2 → gid ∈ gids ∨ is_Some (dict_get gid cur_accns)) →
    (∀ gid, gid ∈ gids → is_Some (dict_get gid cur_accns)) →
    ∀ gid, gid ∈ st'.1 ∪ st'.2 → is_Some (dict_get gid cur_accns).
Proof.
  induction gids as [|gid0 gids IH]; intros st st'; cbn [classify_gids].
  - intros [= <-] Hst _ gid Hgid.
    by destruct (Hst gid Hgid) as [?%elem_of_nil|?].
  - destruct (classify_gid canonical_gid cur_accns prev_accns identical_accns st gid0)
      as [e|st1] eqn:Hstep; [done|].
    intros Hrest Hst Hkeys. apply (IH _ _ Hrest).
    + intros gid Hgid. right.
      assert (gid = gid0 ∨ gid ∈ st.1 ∪ st.2) as [->|Hold].
      { revert Hstep Hgid. unfold classify_gid.
        destruct (String.prefix "U" gid0); [intros [= <-]; by right|].
        destruct (prev_accns !! gid0).
        - destruct (dict_get gid0 cur_accns); [|done].
          destruct (same_genome_accn _ _ _ _) as [e|same]; [done|].
          destruct (negb same); intros [= <-]; cbn [fst snd]; [|by right].
          rewrite !elem_of_union, elem_of_singleton. tauto.
        - intros [= <-]. cbn [fst snd].
          rewrite !elem_of_union, elem_of_singleton. tauto. }
      * apply Hkeys. left.
      * destruct (Hst gid Hold) as [[->|?]%elem_of_cons|?]; [| |done];
          apply Hkeys; [left | by right].
    + intros gid ?. apply Hkeys. by right.
Qed.

(** X22.  Let the order of a loop over a set run over members of the set
    only.  When the assembly summary and the path file are read without
    error and every new and updated genome has a line in the path file,
    [run] ends normally and the report is the header, a row for each new
    genome, then a row for each updated genome. *)
Theorem run_report (prev_ar_metadata prev_bac_metadata cur_gtdb_metadata
    cur_genome_paths ncbi_assembly_summary_genbank : list string) (w : report)
    (identical_accns cur_genome_files : gmap string string)
    (new_gids updated_gids : gset string) :
  (∀ s gid, gid ∈ set_order s → gid ∈ s) →
  read_identical ncbi_assembly_summary_genbank = inr identical_accns →
  classify canonical_gid (read_cur canonical_gid cur_gtdb_metadata)
    (read_prev canonical_gid prev_bac_metadata
       (read_prev canonical_gid prev_ar_metadata ∅))
    identical_accns = inr (new_gids, updated_gids) →
  read_paths basename normpath join ∅ cur_genome_paths = inr cur_genome_files →
  (∀ gid, gid ∈ new_gids ∪ updated_gids → is_Some (cur_genome_files !! gid)) →
  run canonical_gid basename normpath join set_order
    prev_ar_metadata prev_bac_metadata cur_gtdb_metadata cur_genome_paths
    ncbi_assembly_summary_genbank w
  = (Some (header ::
           (row "NEW" (read_cur canonical_gid cur_gtdb_metadata) cur_genome_files
              <$> set_order new_gids) ++
           (row "UPDATED" (read_cur canonical_gid cur_gtdb_metadata) cur_genome_files
              <$> set_order updated_gids)),
     inr ()).
Proof.
  intros Horder Hid Hclass Hpaths Hfiles. unfold run.
  rewrite Hid, Hclass, Hpaths.
  assert (Hcur : ∀ gid, gid ∈ new_gids ∪ updated_gids →
            is_Some (dict_get gid (read_cur canonical_gid cur_gtdb_metadata))).
  { unfold classify in Hclass.
    apply (classify_in_cur _ _ _ _ _ _ Hclass).
    - intros gid Hgid. cbn [fst snd] in Hgid.
      apply elem_of_union in Hgid as [?%not_elem_of_empty|?%not_elem_of_empty]; done.
    - intros gid ?. by apply dict_get_keys. }
  rewrite write_rows_ok.
  2:{ intros gid Hgid%Horder. split; [apply Hfiles | apply Hcur];
        apply elem_of_union; by left. }
  rewrite write_rows_ok.
  2:{ intros gid Hgid%Horder. split; [apply Hfiles | apply Hcur];
        apply elem_of_union; by right. }
  by rewrite <- app_assoc.
Qed.

(** X23.  A new genome without a line in the path file stops [run] with
    its [KeyError] when its turn comes: the header and the rows of the new
    genomes before it are in the report, and no row of an updated genome
    is. *)
Theorem run_missing_path (prev_ar_metadata prev_bac_metadata cur_gtdb_metadata
    cur_genome_paths ncbi_assembly_summary_genbank : list string) (w : report)
    (identical_accns cur_genome_files : gmap string string)
    (new_gids updated_gids : gset string)
    (before after : list string) (gid : string) :
  (∀ s gid, gid ∈ set_order s → gid ∈ s) →
  read_identical ncbi_assembly_summary_genbank = inr identical_accns →
  classify canonical_gid (read_cur canonical_gid cur_gtdb_metadata)
    (read_prev canonical_gid prev_bac_metadata
       (read_prev canonical_gid prev_ar_metadata ∅))
    identical_accns = inr (new_gids, updated_gids) →
  read_paths basename normpath join ∅ cur_genome_paths = inr cur_genome_files →
  set_order new_gids = before ++ gid :: after →
  (∀ g, g ∈ before → is_Some (cur_genome_files !! g)) →
  cur_genome_files !! gid = None →
  run canonical_gid basename normpath join set_order
    prev_ar_metadata prev_bac_metadata cur_gtdb_metadata cur_genome_paths
    ncbi_assembly_summary_genbank w
  = (Some (header ::
           (row "NEW" (read_cur canonical_gid cur_gtdb_metadata) cur_genome_files
              <$> before)),
     inl (Exn (KeyError gid))).
Proof.
  intros Horder Hid Hclass Hpaths Hsplit Hbefore Hnone. unfold run.
  rewrite Hid, Hclass, Hpaths, Hsplit.
  assert (Hcur : ∀ g, g ∈ new_gids ∪ updated_gids →
            is_Some (dict_get g (read_cur canonical_gid cur_gtdb_metadata))).
  { unfold classify in Hclass.
    apply (classify_in_cur _ _ _ _ _ _ Hclass).
    - intros g Hg. cbn [fst snd] in Hg.
      apply elem_of_union in Hg as [?%not_elem_of_empty|?%not_elem_of_empty]; done.
    - intros g ?. by apply dict_get_keys. }
  rewrite write_rows_missing; [done| |done].
  intros g Hg. split; [by apply Hbefore|].
  apply Hcur, elem_of_union. left. apply Horder. rewrite Hsplit.
  apply elem_of_app. by left.
Qed.

(** *** Exceptions *)

Lemma read_pairs_error gb rs paired (lines : list string) :
  ∀ acc e, read_pairs gb rs paired acc lines = inl e → e = Exn IndexError.
Proof.
  induction lines as [|line lines IH]; intros acc e; cbn [read_pairs]; [done|].
  destruct (read_pair gb rs paired acc line) as [e0|acc'] eqn:Hstep; [|apply IH].
  intros [= <-]. revert Hstep. unfold read_pair.
  destruct (line_split line !! paired) as [paired_asm|]; [|by intros [= <-]].
  destruct (String.eqb paired_asm "identical"); [|done].
  destruct (line_split line !! gb); [|by intros [= <-]].
  destruct (line_split line !! rs); [done | by intros [= <-]].
Qed.

Lemma read_identical_error (lines : list string) e :
  read_identical lines = inl e → (∃ x, e = ValueError x) ∨ e = Exn IndexError.
Proof.
  induction lines as [|line lines IH]; cbn [read_identical]; [done|].
  destruct (String.prefix "#" line && contains "assembly_accession" line); [|done].
  destruct (index_of "# assembly_accession" (line_split line));
    [|intros [= <-]; left; by eexists].
  destruct (index_of "gbrs_paired_asm" (line_split line));
    [|intros [= <-]; left; by eexists].
  destruct (index_of "paired_asm_comp" (line_split line));
    [|intros [= <-]; left; by eexists].
  intros ?%read_pairs_error. by right.
Qed.

Lemma read_paths_error (lines : list string) :
  ∀ files e, read_paths basename normpath join files lines = inl e →
             e = Exn IndexError.
Proof.
  induction lines as [|line lines IH]; intros files e; cbn [read_paths]; [done|].
  destruct (read_path basename normpath join files line) as [e0|files'] eqn:Hstep;
    [|apply IH].
  intros [= <-]. revert Hstep. unfold read_path.
  destruct (line_split line !! 0%nat); [|by intros [= <-]].
  destruct (line_split line !! 1%nat); [|by intros [= <-]].
  destruct (line_split line !! 2%nat); [done | by intros [= <-]].
Qed.

Lemma write_rows_error type_str cur_accns cur_genome_files (gids : list string) :
  ∀ written written' e,
    write_rows type_str cur_accns cur_genome_files gids written
    = (written', inl e) →
    ∃ gid, e = Exn (KeyError gid).
Proof.
  induction gids as [|gid gids IH]; intros written written' e; cbn [write_rows];
    [done|].
  destruct (cur_genome_files !! gid); [|intros [= _ <-]; by eexists].
  destruct (dict_get gid cur_accns); [apply IH | intros [= _ <-]; by eexists].
Qed.

(** X24.  [run] never ends by the [sys.exit] of [same_genome_accn]: it
    ends normally, or with the [ValueError] of a column missing from the
    header of the assembly summary, the [IndexError] of a line that is too
    short, or the [KeyError] of a genome without a path. *)
Theorem run_exceptions (prev_ar_metadata prev_bac_metadata cur_gtdb_metadata
    cur_genome_paths ncbi_assembly_summary_genbank : list string) (w : report) :
  match (run canonical_gid basename normpath join set_order
           prev_ar_metadata prev_bac_metadata cur_gtdb_metadata cur_genome_paths
           ncbi_assembly_summary_genbank w).2 with
  | inl e =>
      (∃ x, e = ValueError x) ∨ e = Exn IndexError ∨ ∃ gid, e = Exn (KeyError gid)
  | inr _ => True
  end.
Proof.
  unfold run.
  destruct (read_identical ncbi_assembly_summary_genbank) as [e|identical_accns]
    eqn:Hid.
  { cbn [snd]. apply read_identical_error in Hid as [?|?]; auto. }
  destruct (classify_ok prev_ar_metadata prev_bac_metadata
              cur_gtdb_metadata identical_accns)
    as ([new_gids updated_gids] & ->).
  destruct (read_paths basename normpath join ∅ cur_genome_paths)
    as [e|cur_genome_files] eqn:Hpaths.
  { cbn [snd]. apply read_paths_error in Hpaths. auto. }
  destruct (write_rows "NEW" _ _ _ _) as [written [e|[]]] eqn:Hnew.
  { cbn [snd]. apply write_rows_error in Hnew. auto. }
  destruct (write_rows "UPDATED" _ _ _ _) as [written' [e|[]]] eqn:Hupd; [|done].
  cbn [snd]. apply write_rows_error in Hupd. auto.
Qed.

End Facts.

End NewGenomes_Facts.

Module NewGenomes_Examples.
Import NewGenomes NewGenomes_Facts.

(** A line of tab-separated fields. *)
Definition tsv (fields : list string) : string :=
  String.concat (String tab "") fields.

(** A stand-in for [canonical_gid]: the accession without its prefix and
    without its version. *)
Definition canon (accn : string) : string :=
  default "" (split (Ascii.ascii_of_nat 46) (bare accn) !! 0%nat).

Definition slash (dir file : string) : string := dir +:+ "/" +:+ file.

Definition prev_bac : list string := ["accession"; tsv ["RS_GCF_1.1"; "x"]].

Definition cur_metadata : list string :=
  ["accession"; tsv ["RS_GCF_1.2"; "x"]; "GB_GCA_3.1"; "U_77"].

Definition summary : list string :=
  ["#   See ftp"; tsv ["# assembly_accession"; "gbrs_paired_asm"; "paired_asm_comp"];
   tsv ["GCA_9.1"; "GCF_9.1"; "identical"]; tsv ["GCA_8.1"; "na"; "na"]].

Definition all_paths : list string :=
  [tsv ["RS_GCF_1.2"; "/p/GCF_1.2"; "GCF_1"]; tsv ["GB_GCA_3.1"; "/p/GCA_3.1"; "GCA_3"]].

Definition pairs_ex : gmap string string :=
  {[ "GCA_9.1" := "GCF_9.1"; "GCF_9.1" := "GCA_9.1" ]}.

Lemma read_identical_skips_witness :
  read_identical (["#   See ftp"; "junk"] ++ summary) = read_identical summary ∧
  read_identical ["#   See ftp"; "junk"] = inr ∅.
Proof.
  apply (read_identical_skips ["#   See ftp"; "junk"] summary).
  intros line Hin.
  repeat (apply elem_of_cons in Hin as [->|Hin]); [reflexivity..|].
  by apply elem_of_nil in Hin.
Defined.

Lemma identical_pairs_from_lines_witness :
  ∃ line, line ∈ [tsv ["GCA_9.1"; "GCF_9.1"; "identical"]; tsv ["GCA_8.1"; "na"; "na"]] ∧
    line_split line !! 2%nat = Some "identical" ∧
    ((line_split line !! 0%nat = Some "GCF_9.1" ∧
      line_split line !! 1%nat = Some "GCA_9.1") ∨
     (line_split line !! 1%nat = Some "GCF_9.1" ∧
      line_split line !! 0%nat = Some "GCA_9.1")).
Proof.
  apply (identical_pairs_from_lines ["#   See ftp"]
           [tsv ["GCA_9.1"; "GCF_9.1"; "identical"]; tsv ["GCA_8.1"; "na"; "na"]]
           (tsv ["# assembly_accession"; "gbrs_paired_asm"; "paired_asm_comp"])
           0 1 2 pairs_ex).
  - intros line Hline%list_elem_of_singleton. by subst line.
  - reflexivity.
  - reflexivity.
  - reflexivity.
  - reflexivity.
  - by vm_compute.
  - by vm_compute.
Defined.

(** A second stand-in for [canonical_gid], which gives the GenBank and the
    RefSeq accession of one assembly the same ID: the accession without its
    prefix, without [GCA_] or [GCF_] and without its version, after a [G]. *)
Definition canon_asm (accn : string) : string :=
  "G" +:+ default "" (split (Ascii.ascii_of_nat 46)
                        (remove_all "GCF_" (remove_all "GCA_" (bare accn))) !! 0%nat).

(** The two accessions have the same canonical ID, so both orders get to the
    lookup in [identical_accns] (line 53), and both answer [True]. *)
Lemma same_genome_accn_sym_witness :
  canon_asm "GB_GCA_9.1" = canon_asm "RS_GCF_9.1" ∧
  same_genome_accn canon_asm "GB_GCA_9.1" "RS_GCF_9.1" pairs_ex = inr true ∧
  same_genome_accn canon_asm "GB_GCA_9.1" "RS_GCF_9.1" pairs_ex
  = same_genome_accn canon_asm "RS_GCF_9.1" "GB_GCA_9.1" pairs_ex.
Proof.
  split; [reflexivity|]. split; [by vm_compute|].
  apply (same_genome_accn_sym canon_asm "GB_GCA_9.1" "RS_GCF_9.1" pairs_ex).
  intros a b Hab. unfold pairs_ex in *.
  apply lookup_insert_Some in Hab as [[<- <-]|[_ Hab]]; [by vm_compute|].
  apply lookup_singleton_Some in Hab as [<- <-]. by vm_compute.
Defined.

(** With a pair recorded in one direction only the order of the two
    accessions decides the answer. *)
Example same_genome_accn_one_direction :
  same_genome_accn canon_asm "GB_GCA_9.1" "RS_GCF_9.1" {[ "GCA_9.1" := "GCF_9.1" ]}
  = inr true ∧
  same_genome_accn canon_asm "RS_GCF_9.1" "GB_GCA_9.1" {[ "GCA_9.1" := "GCF_9.1" ]}
  = inr false.
Proof. split; by vm_compute. Qed.

Lemma run_report_witness :
  run canon id id slash elements [] prev_bac cur_metadata all_paths summary None
  = (Some (header ::
           (row "NEW" (read_cur canon cur_metadata)
                {[ "GCF_1" := "/p/GCF_1.2//p/GCF_1.2_genomic.fna";
                   "GCA_3" := "/p/GCA_3.1//p/GCA_3.1_genomic.fna" ]}
              <$> elements ({[ "GCA_3" ]} : gset string)) ++
           (row "UPDATED" (read_cur canon cur_metadata)
                {[ "GCF_1" := "/p/GCF_1.2//p/GCF_1.2_genomic.fna";
                   "GCA_3" := "/p/GCA_3.1//p/GCA_3.1_genomic.fna" ]}
              <$> elements ({[ "GCF_1" ]} : gset string))),
     inr ()).
Proof.
  apply (run_report canon id id slash elements [] prev_bac cur_metadata all_paths
           summary None pairs_ex).
  - intros s gid. apply elem_of_elements.
  - by vm_compute.
  - by vm_compute.
  - by vm_compute.
  - intros gid [Hgid%elem_of_singleton|Hgid%elem_of_singleton]%elem_of_union;
      subst gid; by eexists.
Defined.

(** The report of that run: GCA_3 is new, GCF_1 has a new version, and the
    genome U_77 is passed over. *)
Example run_report_rows :
  run canon id id slash elements [] prev_bac cur_metadata all_paths summary None
  = (Some [header;
           [FStr "GCA_3"; FStr "GB_GCA_3.1"; FStr "NEW";
            FStr "/p/GCA_3.1//p/GCA_3.1_genomic.fna"];
           [FStr "GCF_1"; FStr "RS_GCF_1.2"; FStr "UPDATED";
            FStr "/p/GCF_1.2//p/GCF_1.2_genomic.fna"]],
     inr ()).
Proof. by vm_compute. Qed.

Lemma run_missing_path_witness :
  run canon id id slash elements [] prev_bac cur_metadata
    [tsv ["RS_GCF_1.2"; "/p/GCF_1.2"; "GCF_1"]] summary None
  = (Some (header ::
           (row "NEW" (read_cur canon cur_metadata)
                {[ "GCF_1" := "/p/GCF_1.2//p/GCF_1.2_genomic.fna" ]} <$> [])),
     inl (Exn (KeyError "GCA_3"))).
Proof.
  apply (run_missing_path canon id id slash elements [] prev_bac cur_metadata
           [tsv ["RS_GCF_1.2"; "/p/GCF_1.2"; "GCF_1"]] summary None pairs_ex
           {[ "GCF_1" := "/p/GCF_1.2//p/GCF_1.2_genomic.fna" ]}
           {[ "GCA_3" ]} {[ "GCF_1" ]} [] [] "GCA_3").
  - intros s gid. apply elem_of_elements.
  - by vm_compute.
  - by vm_compute.
  - by vm_compute.
  - by vm_compute.
  - by intros g ?%elem_of_nil.
  - reflexivity.
Defined.

End NewGenomes_Examples.

(** ** The run of the two methods *)

Module UpdateErroneousNCBI_Run.
Import UpdateErroneousNCBI UpdateErroneousNCBI_Facts.

Lemma cluster_conflict_stops (cur_genomes : Genomes) (cur_clusters : Clusters)
    (w : report) (rid1 rid2 cid1 cid2 sp : string) (cids1 cids2 : list string) :
  (∀ gid g, (gid, g) ∈ cur_genomes →
            specific_epithet (ncbi_taxa_species g) ∉ forbidden_names) →
  (rid1, cids1) ∈ cur_clusters → cid1 ∈ cids1 →
  type_strain_of cur_genomes cid1 sp →
  (rid2, cids2) ∈ cur_clusters → cid2 ∈ cids2 →
  type_strain_of cur_genomes cid2 sp →
  rid1 ≠ rid2 →
  ∃ e, identify_misclassified_genomes_cluster cur_genomes cur_clusters w
       = (w, inl e) ∧
       (e = SysExit (-1) ∨
        ∃ cid, e = KeyError cid ∧ genomes_lookup cur_genomes cid = None).
Proof.
  intros Hforb Hc1 Hin1 Ht1 Hc2 Hin2 Ht2 Hne.
  assert (Hpass : passes (gather cur_genomes).2).
  { destruct Ht1 as (g & Hg & _). by eapply passes_gather. }
  unfold identify_misclassified_genomes_cluster, ncbi_type_anchored_species_cluster.
  pose proof (anchor_loop_exn cur_genomes (gather cur_genomes).2 cur_clusters w) as Hexn.
  destruct (for_each cur_clusters _ ∅ w) as [w' [e|anchored]] eqn:Hloop.
  - destruct Hexn as [-> Hexn]. exists e. split; [by erewrite bind_err|].
    destruct Hexn as [?|[[_ Hnone]|?]]; [by right| |by left].
    destruct Hpass as (? & ? & _). congruence.
  - pose proof (anchor_loop_complete _ _ _ _ _ _ Hpass Hloop _ _ _ _ Hc1 Hin1 Ht1).
    pose proof (anchor_loop_complete _ _ _ _ _ _ Hpass Hloop _ _ _ _ Hc2 Hin2 Ht2).
    congruence.
Qed.

Section Run.

Variable ani_ncbi_erroneous : Q.
Variable fastani_pairs : list (string * string) → gmap (string * string) (Q * Q).
Variable both : Q * Q → Q * Q → Q * Q.

(** X25.  [run] calls the ANI method before the clustering method.  On a
    conflict of anchors (two type-strain genomes of one species clustered
    under different representatives, no forbidden epithet in the genome
    set) that the ANI method gets through, the run stops only in the
    clustering method: the complete ANI report is left behind, and the
    report of the clustering method is not touched. *)
Theorem run_exits_after_ani_report (cur_genomes : Genomes) (cur_clusters : Clusters)
    (ani_report ani_report' cluster_report : report) (s : gset string)
    (rid1 rid2 cid1 cid2 sp : string) (cids1 cids2 : list string) :
  (∀ gid g, (gid, g) ∈ cur_genomes →
            specific_epithet (ncbi_taxa_species g) ∉ forbidden_names) →
  (rid1, cids1) ∈ cur_clusters → cid1 ∈ cids1 →
  type_strain_of cur_genomes cid1 sp →
  (rid2, cids2) ∈ cur_clusters → cid2 ∈ cids2 →
  type_strain_of cur_genomes cid2 sp →
  rid1 ≠ rid2 →
  identify_misclassified_genomes_ani ani_ncbi_erroneous fastani_pairs both
    cur_genomes cur_clusters ani_report = (ani_report', inr s) →
  ∃ e, run ani_ncbi_erroneous fastani_pairs both cur_genomes cur_clusters
         (ani_report, cluster_report)
       = ((ani_report', cluster_report), inl e) ∧
       (e = SysExit (-1) ∨
        ∃ cid, e = KeyError cid ∧ genomes_lookup cur_genomes cid = None).
Proof.
  intros Hforb Hc1 Hin1 Ht1 Hc2 Hin2 Ht2 Hne Hani.
  destruct (cluster_conflict_stops cur_genomes cur_clusters cluster_report
              rid1 rid2 cid1 cid2 sp cids1 cids2) as (e & Hcluster & He); try done.
  exists e. split; [|done]. unfold run. cbn [fst snd]. by rewrite Hani, Hcluster.
Qed.

End Run.

Definition conflict_genomes : Genomes :=
  [("R1", mkGenome "s__Foo bar" true true "");
   ("R2", mkGenome "s__Foo bar" true true "")].

Definition conflict_clusters : Clusters := [("R1", ["R1"]); ("R2", ["R2"])].

Lemma run_exits_after_ani_report_witness :
  ∃ e, run (95#100) half_oracle (λ fwd _, fwd) conflict_genomes conflict_clusters
         (None, None)
       = ((Some [header_ani;
                 [FStr "R1"; FStr "s__Foo bar"; FStr "R1"; FStr "R2";
                  FFixed 2 (1#2); FFixed 3 (1#2)]],
           None), inl e) ∧
       (e = SysExit (-1) ∨
        ∃ cid, e = KeyError cid ∧ genomes_lookup conflict_genomes cid = None).
Proof.
  apply (run_exits_after_ani_report (95#100) half_oracle (λ fwd _, fwd)
           conflict_genomes conflict_clusters None _ None {[ "R1" ]}
           "R1" "R2" "R1" "R2" "s__Foo bar" ["R1"] ["R2"]).
  - intros gid g Hin. unfold conflict_genomes in Hin.
    repeat (apply elem_of_cons in Hin as [[= -> ->]|Hin]); [by vm_compute..|].
    by apply elem_of_nil in Hin.
  - left.
  - left.
  - eexists. repeat split; [reflexivity..|done].
  - right. left.
  - left.
  - eexists. repeat split; [reflexivity..|done].
  - done.
  - by vm_compute.
Defined.

End UpdateErroneousNCBI_Run.
